(** * Sync-health reconciliation (apps/hubble): a shallow embedding

    The development follows the TypeScript source function by function.
    Buffers are lists of bytes, JavaScript numbers that the program only
    ever uses as integers are [Z], neverthrow results are [HubResult], and
    asynchronous code that talks to a hub is written in a small state monad
    whose state is the world the calls act upon. *)

From Stdlib Require Import List ZArith NArith Lia Bool Arith.
From Stdlib Require Import Strings.String Strings.Ascii Strings.Byte.
From Stdlib Require Import Permutation Sorted.
Import ListNotations.
Set Implicit Arguments.
Local Open Scope Z_scope.

(* ################################################################# *)
(** * The program *)

(* ================================================================= *)
(** ** Buffers *)

(** A Node.js [Buffer] (or [Uint8Array]): a sequence of bytes. *)
Definition Buffer := list byte.

Definition byteZ (b : byte) : Z := Z.of_N (Byte.to_N b).

(** [Buffer.compare(a, b)]: unsigned byte-wise lexicographic comparison,
    a proper prefix sorting first; the result is -1, 0 or 1. *)
Fixpoint Buffer_compare (a b : Buffer) : Z :=
  match a, b with
  | [], [] => 0
  | [], _ :: _ => -1
  | _ :: _, [] => 1
  | x :: a', y :: b' =>
      if byteZ x <? byteZ y then -1
      else if byteZ y <? byteZ x then 1
      else Buffer_compare a' b'
  end.

(** [Array.prototype.find]: the first element satisfying the predicate, or
    [undefined] ([None]). *)
Fixpoint Array_find {A : Type} (p : A -> bool) (l : list A) : option A :=
  match l with
  | [] => None
  | x :: l' => if p x then Some x else Array_find p l'
  end.

(** Byte-for-byte membership in a list of buffers. *)
Definition memBuffer (x : Buffer) (l : list Buffer) : bool :=
  existsb (fun y => Buffer_compare x y =? 0) l.

(** [Buffer.prototype.toString()]: the UTF-8 decoding, as UTF-16 code
    units. An ASCII byte decodes to itself; every other byte ends up in a
    code unit above 0x7F, here U+FFFD, the replacement of an ill-formed
    byte (well-formed multi-byte sequences are not assembled: the prefixes
    compared with it are timestamps, as the source notes). *)
Definition utf8Unit (b : byte) : Z :=
  if byteZ b <? 128 then byteZ b else 65533.

Definition Buffer_toString (b : Buffer) : list Z := map utf8Unit b.

(** [String.prototype.startsWith]. *)
Fixpoint String_startsWith (s searchString : list Z) {struct searchString} : bool :=
  match searchString, s with
  | [], _ => true
  | _ :: _, [] => false
  | y :: t', x :: s' => (x =? y) && String_startsWith s' t'
  end.

(** [Buffer.from(string)] on a string of ASCII characters, each of which is
    one byte of its UTF-8 encoding. *)
Definition Buffer_from (s : string) : Buffer :=
  map byte_of_ascii (list_ascii_of_string s).

(* ================================================================= *)
(** ** Results, errors and numbers *)

(** [HubError]: an error code and a message. *)
Record HubError := mkHubError { errCode : string; message : string }.

(** neverthrow's [Result<T, HubError>]. *)
Inductive HubResult (A : Type) : Type :=
| ok (value : A)
| err (error : HubError).
Arguments ok {A} value.
Arguments err {A} error.

Definition isOk {A} (r : HubResult A) : bool :=
  match r with ok _ => true | err _ => false end.

Definition isErr {A} (r : HubResult A) : bool := negb (isOk r).

(** [result.map(f)]. *)
Definition HubResult_map {A B} (f : A -> B) (r : HubResult A) : HubResult B :=
  match r with ok a => ok (f a) | err e => err e end.

(** A JavaScript number that the program obtains from integer arithmetic,
    [parseInt] and [Date.prototype.setHours]: an integer or [NaN]. *)
Inductive number : Type :=
| NaN
| Int (z : Z).

(** The value of a division of two integer-valued numbers, [a / b]: with a
    zero divisor it is [NaN] (for [0 / 0]) or an infinity; otherwise it is
    finite, kept here as the exact fraction (the rounding to binary64 is not
    modelled). *)
Inductive quotient : Type :=
| QNaN
| QInfinity (negative : bool)
| QFinite (num den : Z).

Definition JSdiv (a b : Z) : quotient :=
  if b =? 0 then
    if a =? 0 then QNaN else QInfinity (a <? 0)
  else QFinite a b.

(** The values [JSON.stringify] writes for the fields of a summary.
    [JDate ms] stands for the ISO-8601 string of the instant [ms]. *)
#[local] Unset Elimination Schemes.
Inductive JSON : Type :=
| JNull
| JNumber (num den : Z)
| JString (s : string)
| JDate (ms : Z)
| JArray (items : list JSON).
#[local] Set Elimination Schemes.

(** [JSON.stringify] writes a finite number as a number and [NaN] and the
    infinities as [null]. *)
Definition JSON_of_quotient (q : quotient) : JSON :=
  match q with
  | QFinite n d => JNumber n d
  | QNaN | QInfinity _ => JNull
  end.

Definition JSON_of_Z (z : Z) : JSON := JNumber z 1.

(** [new Date(t)] serialised: an invalid date ([NaN], or beyond the
    8.64e15 ms a [Date] can hold) is written as [null]. *)
Definition JSON_of_Date (t : number) : JSON :=
  match t with
  | NaN => JNull
  | Int ms => if Z.abs ms <=? 8640000000000000 then JDate ms else JNull
  end.

(* ================================================================= *)
(** ** [SyncHealthMessageStats] and [Stats] *)

Record SyncHealthMessageStats := mkSyncHealthMessageStats {
  primaryNumMessages : Z;
  peerNumMessages : Z
}.

Definition computeDiff (s : SyncHealthMessageStats) : Z :=
  Z.abs (primaryNumMessages s - peerNumMessages s).

Definition computeDiffPercentage (s : SyncHealthMessageStats) : quotient :=
  JSdiv (computeDiff s) (primaryNumMessages s).

(** A message, as far as this program looks into it: its identifier in the
    trie and [data?.userDataBody?.type]. *)
Record Message := mkMessage {
  messageSyncId : Buffer;
  userDataBodyType : option Z
}.

Inductive Who := Primary | Peer.

Record Stats := mkStats {
  startTime : number;
  stopTime : number;
  primary : string;
  peer : string;
  syncHealthMessageStats : SyncHealthMessageStats;
  resultsUploadingToPeer : list (HubResult Message);
  resultsUploadingToPrimary : list (HubResult Message)
}.

Definition results (s : Stats) (who : Who) : list (HubResult Message) :=
  match who with
  | Primary => resultsUploadingToPrimary s
  | Peer => resultsUploadingToPeer s
  end.

Definition errorResults (s : Stats) (who : Who) : list (HubResult Message) :=
  filter isErr (results s who).

Definition successResults (s : Stats) (who : Who) : list (HubResult Message) :=
  filter isOk (results s who).

(** [Set.prototype.add] on the insertion-ordered contents of a [Set]. *)
Definition Set_add {A} (eqb : A -> A -> bool) (s : list A) (x : A) : list A :=
  if existsb (eqb x) s then s else s ++ [x].

Definition errorReasons (s : Stats) (who : Who) : list string :=
  fold_left (fun errorReasons error =>
               match error with
               | err e => Set_add String.eqb errorReasons (message e)
               | ok _ => errorReasons
               end)
            (errorResults s who) [].

Definition option_Z_eqb (a b : option Z) : bool :=
  match a, b with
  | Some x, Some y => x =? y
  | None, None => true
  | _, _ => false
  end.

Definition successTypes (s : Stats) (who : Who) : list (option Z) :=
  fold_left (fun successTypes success =>
               match success with
               | ok m => Set_add option_Z_eqb successTypes (userDataBodyType m)
               | err _ => successTypes
               end)
            (successResults s who) [].

Definition JSON_of_type (t : option Z) : JSON :=
  match t with Some z => JSON_of_Z z | None => JNull end.

(** [serializedSummary]: the object handed to [JSON.stringify], field by
    field and in the order of the source. *)
Definition serializedSummary (s : Stats) : list (string * JSON) :=
  [ ("startTime", JSON_of_Date (startTime s));
    ("stopTime", JSON_of_Date (stopTime s));
    ("primary", JString (primary s));
    ("peer", JString (peer s));
    ("primaryMessageCount", JSON_of_Z (primaryNumMessages (syncHealthMessageStats s)));
    ("peerMessageCount", JSON_of_Z (peerNumMessages (syncHealthMessageStats s)));
    ("diff", JSON_of_Z (computeDiff (syncHealthMessageStats s)));
    ("diffPercentage", JSON_of_quotient (computeDiffPercentage (syncHealthMessageStats s)));
    ("numSuccessToPeer", JSON_of_Z (Z.of_nat (List.length (successResults s Peer))));
    ("numErrorToPeer", JSON_of_Z (Z.of_nat (List.length (errorResults s Peer))));
    ("successTypesToPeer", JArray (map JSON_of_type (successTypes s Peer)));
    ("errorMessagesToPeer", JArray (map JString (errorReasons s Peer)));
    ("numSuccessToPrimary", JSON_of_Z (Z.of_nat (List.length (successResults s Primary))));
    ("numErrorToPrimary", JSON_of_Z (Z.of_nat (List.length (errorResults s Primary))));
    ("successTypesToPrimary", JArray (map JSON_of_type (successTypes s Primary)));
    ("errorMessagesToPrimary", JArray (map JString (errorReasons s Primary))) ]%string.

(* ================================================================= *)
(** ** The time-prefix codec *)

(** The decimal digit of [d], for [0 <= d <= 9]. *)
Definition digitChar (d : Z) : ascii := ascii_of_N (48 + Z.to_N d).

(** The digits of [n], most significant first, in front of [acc]; [fuel]
    bounds the number of digits. *)
Fixpoint digits_aux (fuel : nat) (n : Z) (acc : list ascii) : list ascii :=
  match fuel with
  | O => acc
  | S fuel' =>
      let acc' := digitChar (n mod 10) :: acc in
      if n / 10 =? 0 then acc' else digits_aux fuel' (n / 10) acc'
  end.

Definition digits (n : Z) : list ascii :=
  digits_aux (S (Z.to_nat (Z.log2 n))) n [].

(** [Number.prototype.toString] on an integer (below 1e21, where
    JavaScript still writes all the digits) or [NaN]. *)
Definition Number_toString (x : number) : string :=
  match x with
  | NaN => "NaN"%string
  | Int z =>
      if z <? 0 then String "-"%char (string_of_list_ascii (digits (- z)))
      else string_of_list_ascii (digits z)
  end.

(** [Math.floor], the identity on an integer and on [NaN]. *)
Definition Math_floor (x : number) : number := x.

(** [String.prototype.padStart] with a one-character filler: a string
    already as long as the target is returned unchanged. *)
Definition padStart (targetLength : nat) (fill : ascii) (s : string) : string :=
  let l := list_ascii_of_string s in
  string_of_list_ascii (repeat fill (targetLength - List.length l) ++ l).

(** Modelled from the spec: [TIMESTAMP_LENGTH] and
    [timestampToPaddedTimestampPrefix] of network/sync/syncId are not among
    the sources. The spec asks for a fixed-width decimal prefix, zero-padded
    on the left; ten is the number of digits of the largest 32-bit
    timestamp. *)
Definition TIMESTAMP_LENGTH : nat := 10.

(** Modelled from the spec: [timestampToPaddedTimestampPrefix], missing as
    said above: the decimal digits of the timestamp, padded on the left
    with zeros to the fixed width. *)
Definition timestampToPaddedTimestampPrefix (timestamp : number) : string :=
  padStart TIMESTAMP_LENGTH "0"%char (Number_toString (Math_floor timestamp)).

Section TimePrefixes.

(** [toFarcasterTime] of the hub library is not among the sources: it is
    a parameter, the conversion of a wall-clock instant in milliseconds to
    a protocol timestamp, or an error. *)
Variable toFarcasterTime : number -> HubResult number.

Definition getTimePrefix (time : number) : HubResult Buffer :=
  HubResult_map
    (fun farcasterTime => Buffer_from (timestampToPaddedTimestampPrefix farcasterTime))
    (toFarcasterTime time).

End TimePrefixes.

(* ================================================================= *)
(** ** Trie node metadata, hubs and the world *)

(** [TrieNodeMetadataResponse]: a node's prefix, the number of messages
    below it, and its children (the hash is not used here). *)
#[local] Unset Elimination Schemes.
Inductive TrieNodeMetadataResponse : Type :=
  mkTrieNodeMetadataResponse {
    prefix : Buffer;
    numMessages : Z;
    children : list TrieNodeMetadataResponse
  }.
#[local] Set Elimination Schemes.

Inductive Transport := Insecure | SSL.

(** An RPC client is known by the transport and the address it was made
    for. *)
Record HubRpcClient := mkHubRpcClient {
  clientTransport : Transport;
  clientAddress : string
}.

(** [ContactInfoContentBody], as far as [pickPeers] reads it: the gossiped
    RPC address, when there is one, and what [addressInfoFromGossip] and
    [addressInfoToString] make of it. *)
Record ContactInfo := mkContactInfo {
  rpcAddress : option string;
  addressInfoString : HubResult string
}.

(** What the program does to the outside world, in order. Console output
    is diagnostic only and is left out. *)
Inductive Event : Type :=
| GetSyncMetadataByPrefix (client : HubRpcClient) (prefix : Buffer)
| GetAllSyncIdsByPrefix (client : HubRpcClient) (prefix : Buffer)
| GetAllMessagesBySyncIds (client : HubRpcClient) (syncIds : list Buffer)
| SubmitMessage (client : HubRpcClient) (message : Message)
| GetCurrentPeers (client : HubRpcClient)
| GetTrieNodeMetadata (prefix : Buffer)
| CreateClient (client : HubRpcClient)
| WaitForReady (client : HubRpcClient)
| CloseClient (client : HubRpcClient)
| AppendFile (path : string) (data : list (string * JSON)).

Definition Trace := list Event.

(** The outside world: how the hubs, the local sync engine and the
    transport answer, each answer a function of everything that happened
    before, so that a hub may change its mind between two calls. *)
Record Env := mkEnv {
  metadataByPrefix : Trace -> HubRpcClient -> Buffer -> HubResult TrieNodeMetadataResponse;
  syncIdsByPrefix : Trace -> HubRpcClient -> Buffer -> HubResult (list Buffer);
  messagesBySyncIds : Trace -> HubRpcClient -> list Buffer -> HubResult (list Message);
  submitResult : Trace -> HubRpcClient -> Message -> HubResult Message;
  currentPeers : Trace -> HubRpcClient -> HubResult (list ContactInfo);
  trieNodeMetadata : Trace -> Buffer -> option TrieNodeMetadataResponse;
  (** creating the client raises synchronously *)
  createRaises : Trace -> HubRpcClient -> bool;
  (** [waitForReady] raises synchronously *)
  waitRaises : Trace -> HubRpcClient -> bool;
  (** the error handed to the readiness callback, if any *)
  readyError : Trace -> HubRpcClient -> option HubError;
  (** the sort keys [Math.random()] deals to the contacts, in order *)
  randomKeys : Trace -> nat -> list Z;
  (** the promise of [appendFile] is rejected *)
  appendRejects : Trace -> string -> list (string * JSON) -> bool
}.

(* ----------------------------------------------------------------- *)
(** *** The monad of asynchronous code *)

(** A computation reads and extends the trace; [None] is a run that does
    not finish within the fuel given to its recursion. *)
Definition M (A : Type) : Type := Trace -> option (A * Trace).

Definition ret {A} (a : A) : M A := fun t => Some (a, t).

Definition bind {A B} (m : M A) (k : A -> M B) : M B :=
  fun t => match m t with
           | Some (a, t') => k a t'
           | None => None
           end.

Definition diverge {A} : M A := fun _ => None.

(** One call to the outside: the answer is computed from the trace so
    far, and the call is appended to it. *)
Definition call {A} (answer : Trace -> A) (e : Event) : M A :=
  fun t => Some (answer t, t ++ [e]).

Declare Scope monad_scope.
Delimit Scope monad_scope with monad.
Notation "x <- m ;; k" := (bind m (fun x => k))
  (at level 61, m at next level, right associativity) : monad_scope.
Notation "m ;;; k" := (bind m (fun _ => k))
  (at level 61, right associativity) : monad_scope.
Local Open Scope monad_scope.

(** [for (const x of l) body], threading the variables the body updates. *)
Fixpoint forEach {A S} (l : list A) (body : S -> A -> M S) (s : S) : M S :=
  match l with
  | [] => ret s
  | x :: l' => s' <- body s x ;; forEach l' body s'
  end.

(* ================================================================= *)
(** ** Retrievers, the range traversal, the counters and the repair *)

(** The [MetadataRetriever] interface. *)
Record MetadataRetriever := mkMetadataRetriever {
  getMetadata : Buffer -> M (HubResult TrieNodeMetadataResponse)
}.

(** [RpcMetadataRetriever]: holds [_rpcClient]. *)
Record RpcMetadataRetriever := mkRpcMetadataRetriever {
  _rpcClient : HubRpcClient
}.

Definition isPrefix (prefix1 prefix2 : Buffer) : bool :=
  String_startsWith (Buffer_toString prefix1) (Buffer_toString prefix2).

(** [getCommonPrefix]: the loop stops at the first index where the two
    buffers differ. *)
Fixpoint getCommonPrefix (prefix1 prefix2 : Buffer) : Buffer :=
  match prefix1, prefix2 with
  | startValue :: rest1, stopValue :: rest2 =>
      if Byte.eqb startValue stopValue
      then startValue :: getCommonPrefix rest1 rest2
      else []
  | _, _ => []
  end.

Definition unavailable : HubError :=
  mkHubError "unavailable" "Missing metadata for node".

Record PrefixInfo := mkPrefixInfo {
  startTimePrefix : Buffer;
  stopTimePrefix : Buffer;
  commonPrefixMetadata : TrieNodeMetadataResponse
}.

(** The body of the [for (const syncId of mySyncIds)] loop; its value is
    what [idsOnlyInPrimary] holds after it. *)
Definition uniqueSyncIds_step (otherSyncIds : list Buffer)
    (idsOnlyInPrimary : list Buffer) (syncId : Buffer) : list Buffer :=
  let syncIdBuffer := syncId in
  let otherSyncId :=
    Array_find (fun otherSyncId =>
                  let otherSyncIdBuffer := otherSyncId in
                  Buffer_compare syncIdBuffer otherSyncIdBuffer =? 0)
               otherSyncIds in
  match otherSyncId with
  | None => idsOnlyInPrimary ++ [syncIdBuffer]
  | Some _ => idsOnlyInPrimary
  end.

Definition uniqueSyncIds (mySyncIds otherSyncIds : list Buffer) : list Buffer :=
  fold_left (uniqueSyncIds_step otherSyncIds) mySyncIds [].

Section Core.

Variable env : Env.
Variable toFarcasterTime : number -> HubResult number.

(** The methods of an RPC client that this program calls. *)
Definition getSyncMetadataByPrefix (c : HubRpcClient) (p : Buffer)
  : M (HubResult TrieNodeMetadataResponse) :=
  call (fun t => metadataByPrefix env t c p) (GetSyncMetadataByPrefix c p).

Definition getAllSyncIdsByPrefix (c : HubRpcClient) (p : Buffer)
  : M (HubResult (list Buffer)) :=
  call (fun t => syncIdsByPrefix env t c p) (GetAllSyncIdsByPrefix c p).

Definition getAllMessagesBySyncIds (c : HubRpcClient) (syncIds : list Buffer)
  : M (HubResult (list Message)) :=
  call (fun t => messagesBySyncIds env t c syncIds) (GetAllMessagesBySyncIds c syncIds).

Definition submitMessage (c : HubRpcClient) (m : Message) : M (HubResult Message) :=
  call (fun t => submitResult env t c m) (SubmitMessage c m).

Definition getCurrentPeers (c : HubRpcClient) : M (HubResult (list ContactInfo)) :=
  call (fun t => currentPeers env t c) (GetCurrentPeers c).

(** [RpcMetadataRetriever.getMetadata]. *)
Definition RpcMetadataRetriever_getMetadata (r : RpcMetadataRetriever)
  : MetadataRetriever :=
  mkMetadataRetriever (fun p => getSyncMetadataByPrefix (_rpcClient r) p).

(** [SyncEngineMetadataRetriever.getMetadata], on the local sync engine;
    [toTrieNodeMetadataResponse] is taken to be the identity. *)
Definition SyncEngineMetadataRetriever_getMetadata : MetadataRetriever :=
  mkMetadataRetriever (fun p =>
    result <- call (fun t => trieNodeMetadata env t p) (GetTrieNodeMetadata p) ;;
    match result with
    | Some r => ret (ok r)
    | None => ret (err unavailable)
    end).

(** [traverseRange]. The visitor [f] updates a variable of its closure;
    here it maps the old value [acc] to the new one, and the traversal
    returns the final value beside its result. The result of the
    recursive call is awaited and not looked at. *)
Fixpoint traverseRange {A : Type} (fuel : nat)
    (node : TrieNodeMetadataResponse) (startTimePrefix stopTimePrefix : Buffer)
    (metadataRetriever : MetadataRetriever)
    (f : TrieNodeMetadataResponse -> A -> A) (acc : A)
  : M (HubResult unit * A) :=
  match fuel with
  | O => diverge
  | S fuel' =>
      metadata <- getMetadata metadataRetriever (prefix node) ;;
      match metadata with
      | err e => ret (err e, acc)
      | ok value =>
          acc' <- forEach (children value)
            (fun acc child =>
               let childValue := prefix child in
               if Buffer_compare childValue startTimePrefix =? 0 then
                 ret (f child acc)
               else if isPrefix startTimePrefix childValue
                       || isPrefix stopTimePrefix childValue then
                 r <- traverseRange fuel' child startTimePrefix stopTimePrefix
                        metadataRetriever f acc ;;
                 ret (snd r)
               else if (Buffer_compare childValue startTimePrefix =? 1)
                       && (Buffer_compare childValue stopTimePrefix =? -1) then
                 ret (f child acc)
               else ret acc)
            acc ;;
          ret (ok tt, acc')
      end
  end.

Definition getPrefixInfo (metadataRetriever : MetadataRetriever)
    (startTime stopTime : number) : M (HubResult PrefixInfo) :=
  match getTimePrefix toFarcasterTime startTime with
  | err e => ret (err e)
  | ok startTimePrefix =>
      match getTimePrefix toFarcasterTime stopTime with
      | err e => ret (err e)
      | ok stopTimePrefix =>
          let commonPrefix := getCommonPrefix startTimePrefix stopTimePrefix in
          commonPrefixMetadata <- getMetadata metadataRetriever commonPrefix ;;
          match commonPrefixMetadata with
          | err e => ret (err e)
          | ok value => ret (ok (mkPrefixInfo startTimePrefix stopTimePrefix value))
          end
      end
  end.

Definition getNumMessagesInSpanOptimized (fuel : nat)
    (metadataRetriever : MetadataRetriever) (startTime stopTime : number)
  : M (HubResult Z) :=
  prefixInfo <- getPrefixInfo metadataRetriever startTime stopTime ;;
  match prefixInfo with
  | err e => ret (err e)
  | ok info =>
      let count := 0 in
      r <- traverseRange fuel (commonPrefixMetadata info)
             (startTimePrefix info) (stopTimePrefix info) metadataRetriever
             (fun node count => count + numMessages node)
             count ;;
      match r with
      | (err e, _) => ret (err e)
      | (ok _, count) => ret (ok count)
      end
  end.

(** The instants [startTime, startTime + 1000, ...] below [stopTime] that
    the loop of [getNumMessagesInSpan] goes through; a comparison with
    [NaN] is false, so the loop then does not run. *)
Definition spanInstants (startTime stopTime : number) : list number :=
  match startTime, stopTime with
  | Int a, Int b =>
      map (fun k => Int (a + 1000 * Z.of_nat k))
          (seq 0 (Z.to_nat ((b - a + 999) / 1000)))
  | _, _ => []
  end.

(** [getNumMessagesInSpan]: one query per second of the span; the loop
    returns at the first failure. *)
Definition getNumMessagesInSpan (metadataRetriever : MetadataRetriever)
    (startTime stopTime : number) : M (HubResult Z) :=
  forEach (spanInstants startTime stopTime)
    (fun acc i =>
       match acc with
       | err e => ret (err e)
       | ok count =>
           match getTimePrefix toFarcasterTime i with
           | err e => ret (err e)
           | ok timePrefixValue =>
               metadata <- getMetadata metadataRetriever timePrefixValue ;;
               match metadata with
               | err e => ret (err e)
               | ok value => ret (ok (count + numMessages value))
               end
           end
       end)
    (ok 0).

Definition computeSyncHealthMessageStats (fuel : nat)
    (startTime stopTime : number)
    (primaryMetadataRetriever peerMetadataRetriever : MetadataRetriever)
  : M (HubResult SyncHealthMessageStats) :=
  numMessagesPrimary <-
    getNumMessagesInSpanOptimized fuel primaryMetadataRetriever startTime stopTime ;;
  numMessagesPeer <-
    getNumMessagesInSpanOptimized fuel peerMetadataRetriever startTime stopTime ;;
  match numMessagesPrimary with
  | err e => ret (err e)
  | ok primaryValue =>
      match numMessagesPeer with
      | err e => ret (err e)
      | ok peerValue => ret (ok (mkSyncHealthMessageStats primaryValue peerValue))
      end
  end.

(** The second loop of [computeSyncIdsInSpan]: a fetch that fails adds
    nothing to [syncIds]. *)
Definition collectSyncIds (c : HubRpcClient) (prefixes : list Buffer)
  : M (list Buffer) :=
  forEach prefixes
    (fun syncIds prefix =>
       prefixSyncIds <- getAllSyncIdsByPrefix c prefix ;;
       match prefixSyncIds with
       | ok value => ret (syncIds ++ value)
       | err _ => ret syncIds
       end)
    [].

Definition computeSyncIdsInSpan (fuel : nat)
    (rpcMetadatataRetriever : RpcMetadataRetriever) (startTime stopTime : number)
  : M (HubResult (list Buffer)) :=
  let retriever := RpcMetadataRetriever_getMetadata rpcMetadatataRetriever in
  prefixInfo <- getPrefixInfo retriever startTime stopTime ;;
  match prefixInfo with
  | err e => ret (err e)
  | ok info =>
      r <- traverseRange fuel (commonPrefixMetadata info)
             (startTimePrefix info) (stopTimePrefix info) retriever
             (fun node prefixes => prefixes ++ [prefix node])
             [] ;;
      match r with
      | (err e, _) => ret (err e)
      | (ok _, prefixes) =>
          syncIds <- collectSyncIds (_rpcClient rpcMetadatataRetriever) prefixes ;;
          ret (ok syncIds)
      end
  end.

Definition tryPushingMissingMessages
    (rpcClientWithMessages rpcClientMissingMessages : RpcMetadataRetriever)
    (missingSyncIds : list Buffer) : M (HubResult (list (HubResult Message))) :=
  if (List.length missingSyncIds =? 0)%nat then ret (ok [])
  else
    messages <- getAllMessagesBySyncIds (_rpcClient rpcClientWithMessages)
                  missingSyncIds ;;
    match messages with
    | err e => ret (err e)
    | ok value =>
        results <- forEach value
          (fun results message =>
             result <- submitMessage (_rpcClient rpcClientMissingMessages) message ;;
             ret (results ++ [result]))
          [] ;;
        ret (ok results)
    end.

Record DiffResults := mkDiffResults {
  resultsPushingToPeer : list (HubResult Message);
  resultsPushingToPrimary : list (HubResult Message)
}.

Definition investigateDiff (fuel : nat)
    (primaryRpcClient peerRpcClient : RpcMetadataRetriever)
    (startTime stopTime : number) : M (HubResult DiffResults) :=
  primarySyncIds <- computeSyncIdsInSpan fuel primaryRpcClient startTime stopTime ;;
  match primarySyncIds with
  | err e => ret (err e)
  | ok primaryIds =>
      peerSyncIds <- computeSyncIdsInSpan fuel peerRpcClient startTime stopTime ;;
      match peerSyncIds with
      | err e => ret (err e)
      | ok peerIds =>
          let idsOnlyInPrimary := uniqueSyncIds primaryIds peerIds in
          let idsOnlyInPeer := uniqueSyncIds peerIds primaryIds in
          toPeer <- tryPushingMissingMessages primaryRpcClient peerRpcClient
                      idsOnlyInPrimary ;;
          match toPeer with
          | err e => ret (err e)
          | ok toPeerValue =>
              toPrimary <- tryPushingMissingMessages peerRpcClient primaryRpcClient
                             idsOnlyInPeer ;;
              match toPrimary with
              | err e => ret (err e)
              | ok toPrimaryValue => ret (ok (mkDiffResults toPeerValue toPrimaryValue))
              end
          end
      end
  end.

End Core.

(* ================================================================= *)
(** ** The session driver *)

(** [String.prototype.split(":")]. *)
Fixpoint splitColon (s : string) : list string :=
  match s with
  | EmptyString => [EmptyString]
  | String ch rest =>
      if Ascii.eqb ch ":"%char then EmptyString :: splitColon rest
      else match splitColon rest with
           | [] => [String ch EmptyString]
           | part :: parts => String ch part :: parts
           end
  end.

(** A string is truthy when it is not empty; a missing element of the
    destructured array is [undefined], which is falsy. *)
Definition truthy (part : option string) : bool :=
  match part with
  | Some (String _ _) => true
  | _ => false
  end.

Definition isWhiteSpace (ch : ascii) : bool :=
  let n := nat_of_ascii ch in
  ((9 <=? n) && (n <=? 13))%nat || (n =? 32)%nat.

Fixpoint trimStart (s : string) : string :=
  match s with
  | String ch rest => if isWhiteSpace ch then trimStart rest else s
  | EmptyString => s
  end.

(** The value of a digit in the given radix, if it is one. *)
Definition digitValue (radix : Z) (ch : ascii) : option Z :=
  let n := Z.of_nat (nat_of_ascii ch) in
  let v := if (48 <=? n) && (n <=? 57) then Some (n - 48)
           else if (97 <=? n) && (n <=? 122) then Some (n - 87)
           else if (65 <=? n) && (n <=? 90) then Some (n - 55)
           else None in
  match v with
  | Some d => if d <? radix then Some d else None
  | None => None
  end.

(** The longest run of digits at the head of [s], read in [radix]; [None]
    when [s] does not begin with a digit. *)
Fixpoint leadingDigits (radix : Z) (s : string) (acc : option Z) : option Z :=
  match s with
  | String ch rest =>
      match digitValue radix ch with
      | Some d =>
          leadingDigits radix rest
            (Some (match acc with Some a => a * radix + d | None => d end))
      | None => acc
      end
  | EmptyString => acc
  end.

(** [parseInt(string)] without a radix: leading white space, a sign, an
    optional [0x], then digits; [NaN] when there is no digit. *)
Definition parseInt (input : string) : number :=
  let s := trimStart input in
  let '(sign, s) :=
    match s with
    | String "-"%char rest => (-1, rest)
    | String "+"%char rest => (1, rest)
    | _ => (1, s)
    end in
  let '(radix, s) :=
    match s with
    | String "0"%char (String "x"%char rest) => (16, rest)
    | String "0"%char (String "X"%char rest) => (16, rest)
    | _ => (10, s)
    end in
  match leadingDigits radix s None with
  | Some v => Int (sign * v)
  | None => NaN
  end.

(** [TimeClip]: a time value beyond the 8.64e15 ms that a [Date] can hold
    is [NaN]. *)
Definition TimeClip (t : Z) : number :=
  if Z.abs t <=? 8640000000000000 then Int t else NaN.

(** The local time of the platform, as far as [setHours] reads it off
    [new Date()]. [localDayStart] is the local time value of the start of
    today, [Day(LocalTime(now)) * msPerDay]. [UTC] is the operation of that
    name of the language: it takes a local time value to the time value of
    the instant at which the local clock shows it, that is, it takes off the
    offset of the time zone in force then; where the clock is set forward or
    back during the day it is not one shift for the whole day. *)
Record LocalClock := mkLocalClock {
  localDayStart : Z;
  UTC : Z -> Z
}.

(** [Date.prototype.setHours(h, m, s, ms)] on today's date: the new time
    value [TimeClip(UTC(MakeDate(Day(t), MakeTime(h, m, s, ms))))], where
    [t] is the local time of now; [NaN] when an argument is [NaN]. The
    fields are set on the local clock and are not held to its ranges. *)
Definition Date_setHours (clock : LocalClock) (h m s ms : number) : number :=
  match h, m, s, ms with
  | Int h, Int m, Int s, Int ms =>
      TimeClip (UTC clock (localDayStart clock
                           + (h * 3600000 + m * 60000 + s * 1000 + ms)))
  | _, _, _, _ => NaN
  end.

(** [Array.prototype.slice(0, end)]: [end] is read as an integer, [NaN] as
    zero; an [end] below zero counts back from the end of the array. *)
Definition Array_slice0 {A} (end_ : number) (l : list A) : list A :=
  match end_ with
  | NaN => []
  | Int z =>
      if z <? 0 then firstn (Z.to_nat (Z.of_nat (List.length l) + z)) l
      else firstn (Z.to_nat z) l
  end.

(** [parseTime]: [None] is [undefined]. *)
Definition parseTime (clock : LocalClock) (timeString : string) : option number :=
  let parts := splitColon timeString in
  let hours := nth_error parts 0 in
  let minutes := nth_error parts 1 in
  let seconds := nth_error parts 2 in
  if truthy hours && truthy minutes && truthy seconds then
    match hours, minutes, seconds with
    | Some hours, Some minutes, Some seconds =>
        Some (Date_setHours clock (parseInt hours) (parseInt minutes)
                (parseInt seconds) (Int 0))
    | _, _, _ => None
    end
  else None.

(** How a call of the driver ends: it returns, or an exception leaves
    it. *)
Inductive Completion := Returned | Raised.

(** Insertion of a keyed element after the elements whose key is not
    larger: the stable order of [Array.prototype.sort]. *)
Fixpoint insertByKey {A} (x : Z * A) (l : list (Z * A)) : list (Z * A) :=
  match l with
  | [] => [x]
  | y :: l' => if fst x <? fst y then x :: l else y :: insertByKey x l'
  end.

Definition sortByKey {A} (l : list (Z * A)) : list (Z * A) :=
  fold_left (fun sorted x => insertByKey x sorted) l [].

Section Session.

Variable env : Env.
Variable toFarcasterTime : number -> HubResult number.

(** the fuel given to each traversal *)
Variable fuel : nat.

(** the local time of the platform, read off [new Date()]; the two calls
    of [parseTime] of a run are taken to fall on the same local day *)
Variable clock : LocalClock.

(** [getInsecureHubRpcClient] and [getSSLHubRpcClient]: [None] when the
    constructor raises. *)
Definition createClient (transport : Transport) (address : string)
  : M (option HubRpcClient) :=
  let c := mkHubRpcClient transport address in
  call (fun t => if createRaises env t c then None else Some c) (CreateClient c).

Definition getInsecureHubRpcClient := createClient Insecure.

Definition getSSLHubRpcClient := createClient SSL.

(** [client.$.waitForReady(deadline, callback)]: [None] when the call
    raises; otherwise the callback is registered, and the value is the
    error it will be handed, if any. *)
Definition waitForReady (c : HubRpcClient) : M (option (option HubError)) :=
  call (fun t => if waitRaises env t c then None else Some (readyError env t c))
       (WaitForReady c).

Definition closeClient (c : HubRpcClient) : M unit :=
  call (fun _ => tt) (CloseClient c).

(** [await appendFile(path, data)] of [fs/promises]: [None] when the
    promise is rejected, which raises at the [await]. *)
Definition appendFile (path : string) (data : list (string * JSON))
  : M (option unit) :=
  call (fun t => if appendRejects env t path data then None else Some tt)
       (AppendFile path data).

(** [pickPeers]: the contacts are shuffled by sorting them on random
    keys, [slice(0, count)] is taken of them, and each is resolved to an
    address, or to [undefined] ([None]). The [count] is the number as
    [slice] reads it, without its fraction; an infinite one is as any count
    of its sign that is beyond the length. *)
Definition pickPeers (metadataRetriever : RpcMetadataRetriever) (count : number)
  : M (HubResult (list (option string))) :=
  peers <- getCurrentPeers env (_rpcClient metadataRetriever) ;;
  fun t =>
    ret (HubResult_map
           (fun contacts =>
              map (fun peer =>
                     match rpcAddress peer with
                     | Some _ =>
                         match addressInfoString peer with
                         | ok s => Some s
                         | err _ => None
                         end
                     | None => None
                     end)
                  (Array_slice0 count
                     (map snd
                        (sortByKey
                           (combine (randomKeys env t (List.length contacts))
                                    contacts)))))
           peers) t.

(** The connection step of a peer's pass: the first [try] and its
    [catch]. The value is the client the pass goes on with, beside the
    error that the readiness callback, when one was registered, will be
    handed; [None] when [getSSLHubRpcClient] raises in the [catch]. *)
Definition connectPeer (peer : string)
  : M (option (HubRpcClient * option HubError)) :=
  created <- getInsecureHubRpcClient peer ;;
  match created with
  | Some peerRpcClient =>
      registered <- waitForReady peerRpcClient ;;
      match registered with
      | Some readyErr => ret (Some (peerRpcClient, readyErr))
      | None =>
          fallback <- getSSLHubRpcClient peer ;;
          ret (option_map (fun c => (c, None)) fallback)
      end
  | None =>
      fallback <- getSSLHubRpcClient peer ;;
      ret (option_map (fun c => (c, None)) fallback)
  end.

(** The readiness callback of a peer's client: on an error it assigns a
    secure client to [peerRpcClient]. The value is the client the variable
    holds afterwards. *)
Definition onPeerReady (peer : string) (readyErr : option HubError)
    (peerRpcClient : HubRpcClient) : M HubRpcClient :=
  match readyErr with
  | Some _ =>
      created <- getSSLHubRpcClient peer ;;
      ret (match created with Some c => c | None => peerRpcClient end)
  | None => ret peerRpcClient
  end.

(** One peer's pass. The retriever is made from the client the variable
    holds when the second [try] begins; the callback is taken to run as
    the second [try] ends, before the pass closes its client. A rejected
    [appendFile] raises inside the second [try]: its [catch] ends the
    pass, and the client is not closed. *)
Definition reconcilePeer (startTime stopTime : number)
    (primaryNode outfile : string)
    (primaryMetadataRetriever : RpcMetadataRetriever) (peer : string)
  : M Completion :=
  connection <- connectPeer peer ;;
  match connection with
  | None => ret Raised
  | Some (peerRpcClient, readyErr) =>
      let peerMetadataRetriever := mkRpcMetadataRetriever peerRpcClient in
      syncHealthStats <-
        computeSyncHealthMessageStats toFarcasterTime fuel startTime stopTime
          (RpcMetadataRetriever_getMetadata env primaryMetadataRetriever)
          (RpcMetadataRetriever_getMetadata env peerMetadataRetriever) ;;
      written <-
        match syncHealthStats with
        | ok value =>
            let score := computeDiff value in
            aggregateStats <-
              (if negb (score =? 0) then
                 result <- investigateDiff env toFarcasterTime fuel
                             primaryMetadataRetriever peerMetadataRetriever
                             startTime stopTime ;;
                 match result with
                 | err _ =>
                     ret (mkStats startTime stopTime primaryNode peer value [] [])
                 | ok r =>
                     ret (mkStats startTime stopTime primaryNode peer value
                            (resultsPushingToPeer r) (resultsPushingToPrimary r))
                 end
               else ret (mkStats startTime stopTime primaryNode peer value [] [])) ;;
            appendFile outfile (serializedSummary aggregateStats)
        | err _ => ret (Some tt)
        end ;;
      current <- onPeerReady peer readyErr peerRpcClient ;;
      match written with
      | Some _ => closeClient current ;;; ret Returned
      | None => ret Returned
      end
  end.

(** The loop over the selected peers: a peer that did not resolve to an
    address is passed over, and an exception that leaves a pass leaves the
    loop. *)
Definition reconcilePeers (startTime stopTime : number)
    (primaryNode outfile : string)
    (primaryMetadataRetriever : RpcMetadataRetriever)
    (peers : list (option string)) : M Completion :=
  forEach peers
    (fun completion peer =>
       match completion, peer with
       | Raised, _ => ret Raised
       | Returned, None => ret Returned
       | Returned, Some peer =>
           reconcilePeer startTime stopTime primaryNode outfile
             primaryMetadataRetriever peer
       end)
    Returned.

(** [printSyncHealth]. An exception that leaves the callback of the
    primary's [waitForReady] ends the run. *)
Definition printSyncHealth (startTimeOfDay stopTimeOfDay : string)
    (maxNumPeers : number) (primaryNode outfile : string) : M Completion :=
  match parseTime clock startTimeOfDay, parseTime clock stopTimeOfDay with
  | Some startTime, Some stopTime =>
      created <- getSSLHubRpcClient primaryNode ;;
      match created with
      | None => ret Raised
      | Some primaryRpcClient =>
          registered <- waitForReady primaryRpcClient ;;
          match registered with
          | None => ret Raised
          | Some (Some _) => ret Raised
          | Some None =>
              let primaryMetadataRetriever :=
                mkRpcMetadataRetriever primaryRpcClient in
              peers <- pickPeers primaryMetadataRetriever maxNumPeers ;;
              match peers with
              | err _ => ret Returned
              | ok value =>
                  completion <- reconcilePeers startTime stopTime primaryNode
                                  outfile primaryMetadataRetriever value ;;
                  match completion with
                  | Raised => ret Raised
                  | Returned => closeClient primaryRpcClient ;;; ret Returned
                  end
              end
          end
      end
  | _, _ => ret Returned
  end.

End Session.

(* ################################################################# *)
(** * What is not among the sources *)

(* ================================================================= *)
(** ** The trie of a replica *)

(** [p] is a leading part of [k], byte for byte. *)
Fixpoint prefixOf (p k : Buffer) : bool :=
  match p, k with
  | [], _ => true
  | _ :: _, [] => false
  | x :: p', y :: k' => Byte.eqb x y && prefixOf p' k'
  end.

(** The number of keys that begin with [p]. *)
Definition countUnder (keys : list Buffer) (p : Buffer) : nat :=
  List.length (filter (prefixOf p) keys).

Definition byteOfNat (n : nat) : byte :=
  match Byte.of_nat n with Some b => b | None => x00 end.

(** The 256 bytes, in increasing order. *)
Definition allBytes : list byte := map byteOfNat (seq 0 256).

(** Modelled from the spec: the trie itself (MerkleTrie, SyncEngine's
    [getTrieNodeMetadata] and the RPC server that answers
    [getSyncMetadataByPrefix]) is not among the sources. Following the
    glossary, a trie node summarises all records whose key begins with the
    node's prefix: the node for [p] exists when some key begins with [p]
    (the root always exists), its count is the number of those keys, and
    its children, in byte order, are the existing nodes one byte longer;
    a child is listed with its prefix and count only. *)
Definition trieChild (keys : list Buffer) (p : Buffer) (b : byte)
  : TrieNodeMetadataResponse :=
  mkTrieNodeMetadataResponse (p ++ [b]) (Z.of_nat (countUnder keys (p ++ [b]))) [].

(** Modelled from the spec: the bytes by which the missing trie continues
    below [p], one for each existing child, in increasing order. *)
Definition trieChildBytes (keys : list Buffer) (p : Buffer) : list byte :=
  filter (fun b => (0 <? countUnder keys (p ++ [b]))%nat) allBytes.

(** Modelled from the spec: whether the missing trie has a node for
    [p]. *)
Definition trieExists (keys : list Buffer) (p : Buffer) : bool :=
  match p with
  | [] => true
  | _ :: _ => (0 <? countUnder keys p)%nat
  end.

(** Modelled from the spec: the metadata of the node for [p] in the
    missing trie, if there is one. *)
Definition trieNode (keys : list Buffer) (p : Buffer)
  : option TrieNodeMetadataResponse :=
  if trieExists keys p then
    Some (mkTrieNodeMetadataResponse p (Z.of_nat (countUnder keys p))
            (map (trieChild keys p) (trieChildBytes keys p)))
  else None.

(** Modelled from the spec: the answer of the missing metadata capability
    for [p], [Unavailable] when the node does not exist. *)
Definition trieMetadata (keys : list Buffer) (p : Buffer)
  : HubResult TrieNodeMetadataResponse :=
  match trieNode keys p with
  | Some node => ok node
  | None => err unavailable
  end.

(** Modelled from the spec: [SyncId] of network/sync/syncId is not among
    the sources. The spec encodes time as a prefix of the key, so that trie
    order is chronological order: a sync identifier begins with the time
    prefix of its message's timestamp; what follows is of no concern
    here. *)
Record SyncId := mkSyncId {
  timestamp : Z;
  suffix : Buffer
}.

(** The prefix of a protocol timestamp, as bytes. *)
Definition timePrefix (timestamp : Z) : Buffer :=
  Buffer_from (timestampToPaddedTimestampPrefix (Int timestamp)).

(** Modelled from the spec: the bytes of a sync identifier, the key of
    its message in the missing trie. *)
Definition syncIdBytes (id : SyncId) : Buffer :=
  timePrefix (timestamp id) ++ suffix id.

(** A hub that serves the trie of [keys] to [client], whatever happened
    before. *)
Definition servesTrie (env : Env) (client : HubRpcClient) (keys : list Buffer) : Prop :=
  forall t p, metadataByPrefix env t client p = trieMetadata keys p.

(** Modelled from the spec: the hub's [getAllSyncIdsByPrefix] is not among
    the sources; following the spec's [getIdentifiersByPrefix], it lists
    the identifiers that begin with the prefix. *)
Definition listsTrie (env : Env) (client : HubRpcClient) (keys : list Buffer) : Prop :=
  forall t p, syncIdsByPrefix env t client p = ok (filter (prefixOf p) keys).

(** Modelled from the spec: the local sync engine and its
    [getTrieNodeMetadata] are not among the sources; an engine that holds
    the trie of [keys] answers with the node of a prefix, or with nothing
    when the trie has no such node. *)
Definition holdsTrie (env : Env) (keys : list Buffer) : Prop :=
  forall t p, trieNodeMetadata env t p = trieNode keys p.

(* ================================================================= *)
(** ** A concrete world *)

(** Modelled from the spec: the protocol's epoch, of the hub library, is
    not among the sources; here 1 January 2021, in milliseconds. *)
Definition FARCASTER_EPOCH : Z := 1609459200000.

(** Modelled from the spec: [toFarcasterTime] of the hub library is not
    among the sources. This instance, used where a run is evaluated,
    follows the codec of the spec, which fails when the instant cannot be
    represented in the protocol's epoch: the timestamp is the number of
    seconds since the epoch, rounded, and has to fit 32 bits; comparisons
    with [NaN] being false, [NaN] passes through. *)
Definition toFarcasterTimeModel (time : number) : HubResult number :=
  match time with
  | NaN => ok NaN
  | Int ms =>
      if ms <? FARCASTER_EPOCH then
        err (mkHubError "bad_request.invalid_param" "time must be after Farcaster epoch")
      else
        let secondsSinceEpoch := (ms - FARCASTER_EPOCH + 500) / 1000 in
        if secondsSinceEpoch >? 2 ^ 32 - 1 then
          err (mkHubError "bad_request.invalid_param" "time too far in future")
        else ok (Int secondsSinceEpoch)
  end.

(** The wall-clock instant of a protocol timestamp. *)
Definition instant (seconds : Z) : number := Int (FARCASTER_EPOCH + 1000 * seconds).

(** The message of a sync identifier, without a user-data body. *)
Definition messageOf (id : SyncId) : Message := mkMessage (syncIdBytes id) None.

(** Modelled from the spec: the hub's [getAllMessagesBySyncIds] is not
    among the sources; following the spec's [getRecordsByIdentifiers], it
    hands out the messages it holds whose identifier is asked for. *)
Definition handsOut (env : Env) (client : HubRpcClient) (ids : list SyncId) : Prop :=
  forall t wanted,
    messagesBySyncIds env t client wanted
    = ok (map messageOf (filter (fun id => memBuffer (syncIdBytes id) wanted) ids)).

(** A world whose hubs are tries that do not change: the hub at an address
    holds the messages [store] gives for it, serves their trie, lists the
    identifiers below a prefix, hands out the messages asked for and
    accepts every submission. Clients are created without trouble and
    become ready. *)
Definition staticWorld (store : string -> list SyncId) : Env :=
  let keysOf (c : HubRpcClient) := map syncIdBytes (store (clientAddress c)) in
  {| metadataByPrefix := fun _ c p => trieMetadata (keysOf c) p;
     syncIdsByPrefix := fun _ c p => ok (filter (prefixOf p) (keysOf c));
     messagesBySyncIds := fun _ c wanted =>
       ok (map messageOf
             (filter (fun id => memBuffer (syncIdBytes id) wanted)
                     (store (clientAddress c))));
     submitResult := fun _ _ m => ok m;
     currentPeers := fun _ _ => ok [];
     trieNodeMetadata := fun _ _ => None;
     createRaises := fun _ _ => false;
     waitRaises := fun _ _ => false;
     readyError := fun _ _ => None;
     randomKeys := fun _ n => repeat 0 n;
     appendRejects := fun _ _ _ => false |}.

(* ----------------------------------------------------------------- *)
(** *** A primary with five messages and a peer with three *)

(** The primary holds three messages of second 2 and two of second 7;
    the peer holds the three of second 2. *)
Definition scenarioStore (address : string) : list SyncId :=
  if String.eqb address "primary" then
    [mkSyncId 2 [x01]; mkSyncId 2 [x02]; mkSyncId 2 [x03];
     mkSyncId 7 [x01]; mkSyncId 7 [x02]]
  else
    [mkSyncId 2 [x01]; mkSyncId 2 [x02]; mkSyncId 2 [x03]].

Definition primaryClient : HubRpcClient := mkHubRpcClient SSL "primary".

Definition peerClient : HubRpcClient := mkHubRpcClient Insecure "peer".

Definition scenarioRetriever (c : HubRpcClient) : MetadataRetriever :=
  RpcMetadataRetriever_getMetadata (staticWorld scenarioStore)
    (mkRpcMetadataRetriever c).

(** The counter on the primary, between two seconds of the epoch. *)
Definition scenarioCount (start stop : Z) : M (HubResult Z) :=
  getNumMessagesInSpanOptimized toFarcasterTimeModel (S TIMESTAMP_LENGTH)
    (scenarioRetriever primaryClient) (instant start) (instant stop).

(** The world of the scenario, in which the primary knows the peer. *)
Definition sessionWorld : Env :=
  let w := staticWorld scenarioStore in
  {| metadataByPrefix := metadataByPrefix w;
     syncIdsByPrefix := syncIdsByPrefix w;
     messagesBySyncIds := messagesBySyncIds w;
     submitResult := submitResult w;
     currentPeers := fun _ _ => ok [mkContactInfo (Some "gossip") (ok "peer")]%string;
     trieNodeMetadata := trieNodeMetadata w;
     createRaises := createRaises w;
     waitRaises := waitRaises w;
     readyError := readyError w;
     randomKeys := randomKeys w;
     appendRejects := appendRejects w |}.

(** The clock of a platform on universal time, on the day the epoch
    began. *)
Definition epochDay : LocalClock := mkLocalClock FARCASTER_EPOCH (fun t => t).

(** A session of today, the day the epoch began, for one peer at most. *)
Definition session (startTimeOfDay stopTimeOfDay : string) : M Completion :=
  printSyncHealth sessionWorld toFarcasterTimeModel (S TIMESTAMP_LENGTH)
    epochDay startTimeOfDay stopTimeOfDay (Int 1) "primary" "out.log".

(* ----------------------------------------------------------------- *)
(** *** Hubs that fail *)

(** A primary whose hub cannot list the identifiers of second 7. *)
Definition forgetfulWorld : Env :=
  let w := staticWorld scenarioStore in
  {| metadataByPrefix := metadataByPrefix w;
     syncIdsByPrefix := fun t c p =>
       if Buffer_compare p (timePrefix 7) =? 0
       then err (mkHubError "unavailable" "deadline exceeded")
       else syncIdsByPrefix w t c p;
     messagesBySyncIds := messagesBySyncIds w;
     submitResult := submitResult w;
     currentPeers := currentPeers w;
     trieNodeMetadata := trieNodeMetadata w;
     createRaises := createRaises w;
     waitRaises := waitRaises w;
     readyError := readyError w;
     randomKeys := randomKeys w;
     appendRejects := appendRejects w |}.

(** A world in which the primary cannot hand out messages. *)
Definition mutePrimaryWorld : Env :=
  let w := staticWorld scenarioStore in
  {| metadataByPrefix := metadataByPrefix w;
     syncIdsByPrefix := syncIdsByPrefix w;
     messagesBySyncIds := fun t c wanted =>
       if String.eqb (clientAddress c) "primary"
       then err (mkHubError "unavailable" "deadline exceeded")
       else messagesBySyncIds w t c wanted;
     submitResult := submitResult w;
     currentPeers := currentPeers w;
     trieNodeMetadata := trieNodeMetadata w;
     createRaises := createRaises w;
     waitRaises := waitRaises w;
     readyError := readyError w;
     randomKeys := randomKeys w;
     appendRejects := appendRejects w |}.

(** A primary whose hub fails to answer for the node of nine zeros, the
    node above the seconds 0 to 9. *)
Definition flakyWorld : Env :=
  let w := staticWorld scenarioStore in
  {| metadataByPrefix := fun t c p =>
       if Buffer_compare p (Buffer_from "000000000") =? 0
       then err (mkHubError "unavailable" "deadline exceeded")
       else metadataByPrefix w t c p;
     syncIdsByPrefix := syncIdsByPrefix w;
     messagesBySyncIds := messagesBySyncIds w;
     submitResult := submitResult w;
     currentPeers := currentPeers w;
     trieNodeMetadata := trieNodeMetadata w;
     createRaises := createRaises w;
     waitRaises := waitRaises w;
     readyError := readyError w;
     randomKeys := randomKeys w;
     appendRejects := appendRejects w |}.

(** A world whose local sync engine holds the messages of the primary. *)
Definition engineWorld : Env :=
  let w := staticWorld scenarioStore in
  {| metadataByPrefix := metadataByPrefix w;
     syncIdsByPrefix := syncIdsByPrefix w;
     messagesBySyncIds := messagesBySyncIds w;
     submitResult := submitResult w;
     currentPeers := currentPeers w;
     trieNodeMetadata := fun _ p =>
       trieNode (map syncIdBytes (scenarioStore "primary")) p;
     createRaises := createRaises w;
     waitRaises := waitRaises w;
     readyError := readyError w;
     randomKeys := randomKeys w;
     appendRejects := appendRejects w |}.

(** The world of the scenario with one more contact, listed first, that
    holds what the peer holds; no client can be created for the peer. *)
Definition unreachablePeerWorld : Env :=
  {| metadataByPrefix := metadataByPrefix sessionWorld;
     syncIdsByPrefix := syncIdsByPrefix sessionWorld;
     messagesBySyncIds := messagesBySyncIds sessionWorld;
     submitResult := submitResult sessionWorld;
     currentPeers := fun _ _ =>
       ok [mkContactInfo (Some "gossip") (ok "other");
           mkContactInfo (Some "gossip") (ok "peer")]%string;
     trieNodeMetadata := trieNodeMetadata sessionWorld;
     createRaises := fun _ c => String.eqb (clientAddress c) "peer";
     waitRaises := waitRaises sessionWorld;
     readyError := readyError sessionWorld;
     randomKeys := randomKeys sessionWorld;
     appendRejects := appendRejects sessionWorld |}.

(** The world of the scenario, except that every [appendFile] is
    rejected. *)
Definition fullDiskWorld : Env :=
  {| metadataByPrefix := metadataByPrefix sessionWorld;
     syncIdsByPrefix := syncIdsByPrefix sessionWorld;
     messagesBySyncIds := messagesBySyncIds sessionWorld;
     submitResult := submitResult sessionWorld;
     currentPeers := currentPeers sessionWorld;
     trieNodeMetadata := trieNodeMetadata sessionWorld;
     createRaises := createRaises sessionWorld;
     waitRaises := waitRaises sessionWorld;
     readyError := readyError sessionWorld;
     randomKeys := randomKeys sessionWorld;
     appendRejects := fun _ _ _ => true |}.

(* ################################################################# *)
(** * The vocabulary of the statements *)

(** The value of a field of a serialised object. *)
Fixpoint JSON_field (key : string) (o : list (string * JSON)) : option JSON :=
  match o with
  | [] => None
  | (k, v) :: o' => if String.eqb k key then Some v else JSON_field key o'
  end.

Definition isFiniteNumber (j : JSON) : bool :=
  match j with JNumber _ _ => true | _ => false end.

(** The timestamps that fit the fixed width. *)
Definition representable (t : Z) : Prop := 0 <= t < 10 ^ Z.of_nat TIMESTAMP_LENGTH.

(** The fixed-width encoding written out digit by digit: what
    [timePrefix] amounts to on a representable timestamp. *)
Fixpoint fixedWidth (w : nat) (n : Z) : Buffer :=
  match w with
  | O => []
  | S w' => fixedWidth w' (n / 10) ++ [byte_of_ascii (digitChar (n mod 10))]
  end.

(** The sign of a comparison of integers, as [Buffer.compare] reports it. *)
Definition compareZ (n m : Z) : Z :=
  match n ?= m with Lt => -1 | Eq => 0 | Gt => 1 end.

Definition isAscii (b : Buffer) : Prop := Forall (fun x => byteZ x < 128) b.

Definition Buffer_eq_dec : forall a b : Buffer, {a = b} + {a <> b} :=
  list_eq_dec Byte.byte_eq_dec.

(** The messages of a replica whose timestamp lies in [start, stop). *)
Definition inSpan (start stop : Z) (id : SyncId) : bool :=
  (start <=? timestamp id) && (timestamp id <? stop).

Definition messagesInSpan (ids : list SyncId) (start stop : Z) : list SyncId :=
  filter (inSpan start stop) ids.

(** The keys in the window of two boundary prefixes of equal length: the
    leading bytes of the key, as many as a boundary has, sort at or after
    [start] and strictly before [stop]. *)
Definition inWindow (start stop : Buffer) (k : Buffer) : bool :=
  let h := firstn (List.length start) k in
  negb (Buffer_compare h start =? -1) && (Buffer_compare h stop =? -1).

(** The number of nodes of [vis] that lie above the key [k]. *)
Definition cover (vis : list TrieNodeMetadataResponse) (k : Buffer) : nat :=
  List.length (filter (fun n => prefixOf (prefix n) k) vis).

(** The prefixes queried with [getSyncMetadataByPrefix], in order. *)
Fixpoint metadataQueries (t : Trace) : list Buffer :=
  match t with
  | [] => []
  | GetSyncMetadataByPrefix _ p :: t' => p :: metadataQueries t'
  | _ :: t' => metadataQueries t'
  end.

(** The body of the loop of [traverseRange] over the children. *)
Definition visitChild {A : Type} (fuel' : nat) (start stop : Buffer)
    (R : MetadataRetriever) (f : TrieNodeMetadataResponse -> A -> A)
    (acc : A) (child : TrieNodeMetadataResponse) : M A :=
  let childValue := prefix child in
  if Buffer_compare childValue start =? 0 then ret (f child acc)
  else if isPrefix start childValue || isPrefix stop childValue then
    r <- traverseRange fuel' child start stop R f acc ;; ret (snd r)
  else if (Buffer_compare childValue start =? 1)
          && (Buffer_compare childValue stop =? -1) then ret (f child acc)
  else ret acc.

(** What the visitor has done to its variable after the nodes [vis]. *)
Definition visitAll {A : Type} (f : TrieNodeMetadataResponse -> A -> A)
    (vis : list TrieNodeMetadataResponse) (acc : A) : A :=
  fold_left (fun a n => f n a) vis acc.

(** A traversal from [node] that visits [vis], in this order, and queries
    [calls], whatever the visitor and the trace it starts from. *)
Definition Runs (R : MetadataRetriever) (ev : Buffer -> Event)
    (start stop : Buffer) (fuel : nat) (node : TrieNodeMetadataResponse)
    (vis : list TrieNodeMetadataResponse) (calls : list Buffer) : Prop :=
  forall (A : Type) (f : TrieNodeMetadataResponse -> A -> A) (acc : A) (t : Trace),
    traverseRange fuel node start stop R f acc t
    = Some ((ok tt, visitAll f vis acc), t ++ map ev calls).

(** Every key of the window below [p] lies below exactly one of the nodes
    [vis], and no other key below any. *)
Definition Covers (keys : list Buffer) (start stop : Buffer) (p : Buffer)
    (vis : list TrieNodeMetadataResponse) : Prop :=
  forall k, In k keys ->
    cover vis k = if prefixOf p k && inWindow start stop k then 1%nat else 0%nat.

(** What is visited and queried below [p]: the visited nodes lie below
    [p] and carry their true counts; when [start] sorts before [stop], they
    cover the window below [p]; the queried prefixes lie below [p], and none
    is queried twice. *)
Definition Good (keys : list Buffer) (start stop : Buffer) (p : Buffer)
    (vis : list TrieNodeMetadataResponse) (calls : list Buffer) : Prop :=
  (forall n, In n vis ->
     prefixOf p (prefix n) = true /\
     numMessages n = Z.of_nat (countUnder keys (prefix n)) /\
     (0 < countUnder keys (prefix n))%nat) /\
  (Buffer_compare start stop = -1 -> Covers keys start stop p vis) /\
  (forall q, In q calls -> prefixOf p q = true) /\
  NoDup calls.

(** What a traversal with the fuel [fuel'] is known to do, from any
    existing node above a boundary or from the right boundary itself. *)
Definition Below (R : MetadataRetriever) (ev : Buffer -> Event)
    (keys : list Buffer) (start stop : Buffer) (fuel' : nat) : Prop :=
  forall (node : TrieNodeMetadataResponse),
    (List.length start - List.length (prefix node) < fuel')%nat ->
    (List.length (prefix node) < List.length start)%nat \/ prefix node = stop ->
    trieExists keys (prefix node) = true ->
    exists vis rest,
      Runs R ev start stop fuel' node vis (prefix node :: rest) /\
      Good keys start stop (prefix node) vis (prefix node :: rest).

(** What the fetches for [prefixes], issued from the trace [t] on, bring
    in: the identifiers of those that succeed, in order. *)
Fixpoint idsOfFetches (env : Env) (c : HubRpcClient) (prefixes : list Buffer)
    (t : Trace) : list Buffer :=
  match prefixes with
  | [] => []
  | p :: ps =>
      match syncIdsByPrefix env t c p with
      | ok value => value
      | err _ => []
      end ++ idsOfFetches env c ps (t ++ [GetAllSyncIdsByPrefix c p])
  end.

(** The outcomes of submitting [messages] one after the other from the
    trace [t] on, whatever each outcome is. *)
Fixpoint submissionOutcomes (env : Env) (c : HubRpcClient) (messages : list Message)
    (t : Trace) : list (HubResult Message) :=
  match messages with
  | [] => []
  | m :: ms =>
      submitResult env t c m :: submissionOutcomes env c ms (t ++ [SubmitMessage c m])
  end.

Definition isAppendFile (e : Event) : bool :=
  match e with AppendFile _ _ => true | _ => false end.

Definition isCreateClient (e : Event) : bool :=
  match e with CreateClient _ => true | _ => false end.

(** The messages of a replica whose timestamp is [ts]. *)
Definition messagesAt (ids : list SyncId) (ts : Z) : list SyncId :=
  filter (fun id => timestamp id =? ts) ids.

(** The [n] seconds from [s] on. *)
Definition secondsFrom (s : Z) (n : nat) : list Z :=
  map (fun k => s + Z.of_nat k) (seq 0 n).

(** The messages of the window that a replica holding [ids] has and a
    replica holding [others] lacks. *)
Definition missingInSpan (start stop : Z) (ids others : list SyncId) : list SyncId :=
  filter (fun id => inSpan start stop id
                    && negb (memBuffer (syncIdBytes id) (map syncIdBytes others)))
         ids.

(** What a collection asks of a hub: the metadata of a node, or the
    identifiers below a prefix. *)
Definition isCollection (e : Event) : bool :=
  match e with
  | GetSyncMetadataByPrefix _ _ | GetAllSyncIdsByPrefix _ _ => true
  | _ => false
  end.

(** A call to a hub. *)
Definition isHubCall (e : Event) : bool :=
  match e with
  | GetSyncMetadataByPrefix _ _ | GetAllSyncIdsByPrefix _ _
  | GetAllMessagesBySyncIds _ _ | SubmitMessage _ _ => true
  | _ => false
  end.

(** A string without a colon. *)
Fixpoint noColon (s : string) : bool :=
  match s with
  | EmptyString => true
  | String ch rest => negb (Ascii.eqb ch ":"%char) && noColon rest
  end.

(** A decimal digit. *)
Definition isDigit (ch : ascii) : bool :=
  let n := nat_of_ascii ch in ((48 <=? n) && (n <=? 57))%nat.

(** A string of decimal digits and nothing else. *)
Fixpoint allDigits (s : string) : bool :=
  match s with
  | EmptyString => true
  | String ch rest => isDigit ch && allDigits rest
  end.

(** A non-empty string of decimal digits. *)
Definition isDecimal (s : string) : bool :=
  match s with
  | EmptyString => false
  | String _ _ => allDigits s
  end.

(** The number that a string of decimal digits writes, after [acc]. *)
Fixpoint decimalValue_from (acc : Z) (s : string) : Z :=
  match s with
  | EmptyString => acc
  | String ch rest =>
      decimalValue_from (acc * 10 + (Z.of_nat (nat_of_ascii ch) - 48)) rest
  end.

Definition decimalValue (s : string) : Z := decimalValue_from 0 s.

(** The number of elements that [slice(0, count)] keeps of an array of
    [n]. *)
Definition sliceCount (count : number) (n : nat) : nat :=
  match count with
  | NaN => 0%nat
  | Int z => if z <? 0 then (n - Z.to_nat (- z))%nat else Nat.min (Z.to_nat z) n
  end.

(** A stretch of the trace with at most [n] appends to a file, all of them
    to [outfile]. *)
Definition appendsAtMost (outfile : string) (n : nat) (d : list Event) : Prop :=
  (List.length (filter isAppendFile d) <= n)%nat /\
  Forall (fun e => match e with
                   | AppendFile path _ => path = outfile
                   | _ => True
                   end) d.

(** A computation that, when it finishes, has extended the trace by such a
    stretch. *)
Definition Appends {A : Type} (outfile : string) (n : nat) (m : M A) : Prop :=
  forall t x t', m t = Some (x, t') ->
                 exists d, t' = t ++ d /\ appendsAtMost outfile n d.

(** What is visited below [p] when the window is the wrong way round: the
    visited nodes carry their true counts, and a key lies below one of them
    exactly when it lies below [p] and begins with the start prefix. *)
Definition GoodInverted (keys : list Buffer) (start : Buffer) (p : Buffer)
    (vis : list TrieNodeMetadataResponse) : Prop :=
  (forall n, In n vis -> numMessages n = Z.of_nat (countUnder keys (prefix n))) /\
  (forall k, In k keys ->
     cover vis k = if prefixOf p k && prefixOf start k then 1%nat else 0%nat).

(** What a traversal with the fuel [fuel'] is known to do then. *)
Definition BelowInverted (R : MetadataRetriever) (ev : Buffer -> Event)
    (keys : list Buffer) (start stop : Buffer) (fuel' : nat) : Prop :=
  forall (node : TrieNodeMetadataResponse),
    (List.length start - List.length (prefix node) < fuel')%nat ->
    (List.length (prefix node) < List.length start)%nat \/ prefix node = stop ->
    trieExists keys (prefix node) = true ->
    exists vis calls,
      Runs R ev start stop fuel' node vis calls /\
      GoodInverted keys start (prefix node) vis.

(* ################################################################# *)
(** * Properties *)

(* ================================================================= *)
(** ** The diff step *)

(* ----------------------------------------------------------------- *)
(** *** Facts about [Buffer.compare] *)

Lemma byteZ_inj (x y : byte) : byteZ x = byteZ y -> x = y.
Proof.
  unfold byteZ. intros H. apply N2Z.inj in H.
  assert (E : Some x = Some y)
    by (rewrite <- (Byte.of_to_N x), <- (Byte.of_to_N y); now rewrite H).
  now inversion E.
Qed.

Lemma byteZ_range (x : byte) : 0 <= byteZ x <= 255.
Proof. unfold byteZ. pose proof (Byte.to_N_bounded x). lia. Qed.

Lemma Buffer_compare_refl (a : Buffer) : Buffer_compare a a = 0.
Proof.
  induction a as [|x a IH]; simpl; [reflexivity|].
  rewrite Z.ltb_irrefl. exact IH.
Qed.

Lemma Buffer_compare_eq (a b : Buffer) : Buffer_compare a b = 0 <-> a = b.
Proof.
  split; [|intros ->; apply Buffer_compare_refl].
  revert b. induction a as [|x a IH]; intros [|y b]; simpl; try discriminate; auto.
  destruct (byteZ x <? byteZ y) eqn:E1; [discriminate|].
  destruct (byteZ y <? byteZ x) eqn:E2; [discriminate|].
  intros H. apply Z.ltb_ge in E1, E2.
  f_equal; [apply byteZ_inj; lia | now apply IH].
Qed.

Lemma Buffer_compare_range (a b : Buffer) :
  Buffer_compare a b = -1 \/ Buffer_compare a b = 0 \/ Buffer_compare a b = 1.
Proof.
  revert b. induction a as [|x a IH]; intros [|y b]; simpl; auto.
  destruct (byteZ x <? byteZ y); auto.
  destruct (byteZ y <? byteZ x); auto.
Qed.

Lemma Buffer_compare_antisym (a b : Buffer) :
  Buffer_compare b a = - Buffer_compare a b.
Proof.
  revert b. induction a as [|x a IH]; intros [|y b]; simpl; auto.
  destruct (byteZ x <? byteZ y) eqn:E1, (byteZ y <? byteZ x) eqn:E2; auto.
  apply Z.ltb_lt in E1, E2. lia.
Qed.

Lemma memBuffer_In (x : Buffer) (l : list Buffer) :
  memBuffer x l = true <-> In x l.
Proof.
  unfold memBuffer. rewrite existsb_exists. split.
  - intros (y & Hy & E). apply Z.eqb_eq, Buffer_compare_eq in E. now subst.
  - intros H. exists x. split; [assumption|].
    apply Z.eqb_eq, Buffer_compare_refl.
Qed.

Lemma Array_find_None {A : Type} (p : A -> bool) (l : list A) :
  Array_find p l = None <-> existsb p l = false.
Proof.
  induction l as [|x l IH]; simpl; [tauto|].
  destruct (p x); simpl; [split; discriminate | exact IH].
Qed.

(* ----------------------------------------------------------------- *)
(** *** [uniqueSyncIds] is a filter *)

Lemma uniqueSyncIds_step_filter (other acc : list Buffer) (x : Buffer) :
  uniqueSyncIds_step other acc x
  = acc ++ filter (fun s => negb (memBuffer s other)) [x].
Proof.
  unfold uniqueSyncIds_step. simpl.
  destruct (Array_find _ other) eqn:E.
  - assert (M : memBuffer x other = true).
    { unfold memBuffer. destruct (existsb _ other) eqn:X; [reflexivity|].
      apply Array_find_None in X. congruence. }
    rewrite M. simpl. now rewrite app_nil_r.
  - apply Array_find_None in E. unfold memBuffer. now rewrite E.
Qed.

Lemma uniqueSyncIds_fold (other : list Buffer) (my acc : list Buffer) :
  fold_left (uniqueSyncIds_step other) my acc
  = acc ++ filter (fun s => negb (memBuffer s other)) my.
Proof.
  revert acc. induction my as [|x my IH]; intros acc.
  - simpl. now rewrite app_nil_r.
  - cbn [fold_left]. rewrite IH, uniqueSyncIds_step_filter.
    rewrite <- app_assoc. f_equal.
    change (x :: my) with ([x] ++ my). now rewrite filter_app.
Qed.

(** The loop is a filter: it keeps, in order, the entries of the first
    argument that have no byte-equal entry in the second. *)
Lemma uniqueSyncIds_filter (my other : list Buffer) :
  uniqueSyncIds my other = filter (fun s => negb (memBuffer s other)) my.
Proof. unfold uniqueSyncIds. now rewrite uniqueSyncIds_fold. Qed.

Lemma In_uniqueSyncIds (my other : list Buffer) (x : Buffer) :
  In x (uniqueSyncIds my other) <-> In x my /\ ~ In x other.
Proof.
  rewrite uniqueSyncIds_filter, filter_In, negb_true_iff.
  rewrite <- (memBuffer_In x other).
  destruct (memBuffer x other); intuition congruence.
Qed.

(** C2. The diff step computes true set differences: an identifier held by
    both collections is in neither output, each output holds only
    identifiers of its first argument that are absent, byte for byte, from
    its second, and identical inputs give two empty outputs. *)
Theorem uniqueSyncIds_set_difference (primary peer : list Buffer) :
  (forall x, In x primary -> In x peer ->
             ~ In x (uniqueSyncIds primary peer) /\
             ~ In x (uniqueSyncIds peer primary)) /\
  (forall x, In x (uniqueSyncIds primary peer) <->
             In x primary /\ forall y, In y peer -> Buffer_compare x y <> 0) /\
  (forall x, In x (uniqueSyncIds peer primary) <->
             In x peer /\ forall y, In y primary -> Buffer_compare x y <> 0) /\
  uniqueSyncIds primary primary = [] /\
  uniqueSyncIds peer peer = [].
Proof.
  assert (absent : forall (x : Buffer) l,
            ~ In x l <-> forall y, In y l -> Buffer_compare x y <> 0).
  { intros x l. split.
    - intros N y Hy E. apply Buffer_compare_eq in E. now subst.
    - intros H Hx. apply (H x Hx), Buffer_compare_refl. }
  assert (self : forall l, uniqueSyncIds l l = []).
  { intros l. destruct (uniqueSyncIds l l) as [|x r] eqn:E; [reflexivity|].
    assert (Hx : In x (uniqueSyncIds l l)) by (rewrite E; now left).
    apply In_uniqueSyncIds in Hx. tauto. }
  repeat split; try apply self.
  - intros Hx. apply In_uniqueSyncIds in Hx. tauto.
  - intros Hx. apply In_uniqueSyncIds in Hx. tauto.
  - apply In_uniqueSyncIds in H. tauto.
  - apply In_uniqueSyncIds in H. now apply absent.
  - intros [H1 H2]. apply In_uniqueSyncIds. split; [assumption|]. now apply absent.
  - apply In_uniqueSyncIds in H. tauto.
  - apply In_uniqueSyncIds in H. now apply absent.
  - intros [H1 H2]. apply In_uniqueSyncIds. split; [assumption|]. now apply absent.
Qed.

(** C10. The output is an ordered list, not a set: it is the first
    argument with the entries that occur in the second removed, order and
    multiplicity kept; an identifier absent from the second argument occurs
    in the output as often as in the first, so twice when it is there
    twice. *)
Theorem uniqueSyncIds_keeps_order_and_duplicates (my other : list Buffer) :
  uniqueSyncIds my other = filter (fun s => negb (memBuffer s other)) my /\
  (forall x, ~ In x other ->
     count_occ (list_eq_dec Byte.byte_eq_dec) (uniqueSyncIds my other) x
     = count_occ (list_eq_dec Byte.byte_eq_dec) my x) /\
  (forall x pre mid post, ~ In x other ->
     my = pre ++ x :: mid ++ x :: post ->
     exists pre' mid' post',
       uniqueSyncIds my other = pre' ++ x :: mid' ++ x :: post').
Proof.
  split; [apply uniqueSyncIds_filter|]. split.
  - intros x Hx. rewrite uniqueSyncIds_filter.
    induction my as [|y my IH]; [reflexivity|]. simpl.
    destruct (memBuffer y other) eqn:M; simpl.
    + apply memBuffer_In in M.
      destruct (list_eq_dec Byte.byte_eq_dec y x); [subst; contradiction | exact IH].
    + destruct (list_eq_dec Byte.byte_eq_dec y x); now rewrite IH.
  - intros x pre mid post Hx ->.
    assert (K : negb (memBuffer x other) = true).
    { apply negb_true_iff. destruct (memBuffer x other) eqn:M; [|reflexivity].
      apply memBuffer_In in M. contradiction. }
    rewrite uniqueSyncIds_filter.
    rewrite filter_app. simpl. rewrite K, filter_app. simpl. rewrite K.
    eauto.
Qed.

(* ================================================================= *)
(** ** The percentage when the primary holds nothing *)

(** C3. With a primary count of zero, [computeDiffPercentage] divides by
    zero: its value is [NaN] or an infinity, never a finite number, and the
    serialised health record carries [null] in its [diffPercentage] field,
    whatever the rest of the record holds. *)
Theorem diffPercentage_zero_primary_not_finite
    (peerCount : Z) (start stop : number) (primaryNode peerNode : string)
    (toPeer toPrimary : list (HubResult Message)) :
  let stats := mkSyncHealthMessageStats 0 peerCount in
  let record := mkStats start stop primaryNode peerNode stats toPeer toPrimary in
  (computeDiffPercentage stats = QNaN \/
   computeDiffPercentage stats = QInfinity false) /\
  JSON_field "diffPercentage" (serializedSummary record) = Some JNull /\
  (forall j, JSON_field "diffPercentage" (serializedSummary record) = Some j ->
             isFiniteNumber j = false).
Proof.
  intros stats record.
  assert (V : computeDiffPercentage stats = QNaN \/
              computeDiffPercentage stats = QInfinity false).
  { unfold computeDiffPercentage, computeDiff, JSdiv, stats. simpl.
    destruct (Z.abs (- peerCount) =? 0) eqn:E; [now left | right].
    f_equal. apply Z.ltb_ge. lia. }
  assert (F : JSON_field "diffPercentage" (serializedSummary record) = Some JNull).
  { cbn -[computeDiffPercentage]. destruct V as [-> | ->]; reflexivity. }
  split; [exact V|]. split; [exact F|].
  intros j Hj. rewrite F in Hj. now inversion Hj.
Qed.

(* ================================================================= *)
(** ** The time-prefix codec *)

(* ----------------------------------------------------------------- *)
(** *** The prefix of a representable timestamp is its fixed-width form *)

Lemma fixedWidth_length (w : nat) (n : Z) : List.length (fixedWidth w n) = w.
Proof.
  revert n. induction w as [|w IH]; intros n; simpl; [reflexivity|].
  rewrite length_app, IH. simpl. lia.
Qed.

Lemma fixedWidth_zero (w : nat) :
  fixedWidth w 0 = map byte_of_ascii (repeat "0"%char w).
Proof.
  induction w as [|w IH]; [reflexivity|].
  cbn [fixedWidth]. rewrite Zdiv_0_l, IH.
  cbn [repeat]. rewrite repeat_cons, map_app. reflexivity.
Qed.

Lemma digits_aux_fixedWidth (fuel : nat) :
  forall (n : Z) (acc : list ascii) (w : nat),
    0 <= n < 2 ^ Z.of_nat fuel ->
    (List.length acc < w)%nat ->
    n < 10 ^ Z.of_nat (w - List.length acc) ->
    map byte_of_ascii
        (repeat "0"%char (w - List.length (digits_aux fuel n acc))
         ++ digits_aux fuel n acc)
    = fixedWidth (w - List.length acc) n ++ map byte_of_ascii acc.
Proof.
  induction fuel as [|fuel IH]; intros n acc w Hn Hacc Hw.
  - (* no fuel: then n = 0 *)
    simpl in Hn. assert (n = 0) by lia. subst n.
    simpl. rewrite fixedWidth_zero, map_app. reflexivity.
  - cbn [digits_aux].
    destruct (w - List.length acc)%nat as [|k] eqn:K; [lia|].
    destruct (n / 10 =? 0) eqn:E.
    + apply Z.eqb_eq in E.
      cbn [fixedWidth]. rewrite E, fixedWidth_zero.
      cbn [List.length]. replace (w - S (List.length acc))%nat with k by lia.
      rewrite map_app, <- app_assoc. reflexivity.
    + apply Z.eqb_neq in E.
      assert (Hn10 : 0 <= n / 10 < 2 ^ Z.of_nat fuel).
      { split; [apply Z.div_pos; lia|].
        apply Z.div_lt_upper_bound; [lia|].
        rewrite Nat2Z.inj_succ, Z.pow_succ_r in Hn by lia. lia. }
      assert (Hk : (1 <= k)%nat).
      { destruct k; [|lia]. simpl in Hw.
        assert (n / 10 = 0) by (apply Z.div_small; lia). contradiction. }
      rewrite (IH (n / 10) (digitChar (n mod 10) :: acc) w Hn10).
      * cbn [List.length]. replace (w - S (List.length acc))%nat with k by lia.
        cbn [fixedWidth map]. rewrite <- app_assoc. reflexivity.
      * cbn [List.length]. lia.
      * cbn [List.length]. replace (w - S (List.length acc))%nat with k by lia.
        apply Z.div_lt_upper_bound; [lia|].
        rewrite Nat2Z.inj_succ, Z.pow_succ_r in Hw by lia. lia.
Qed.

Lemma log2_fuel (n : Z) : 0 <= n -> n < 2 ^ Z.of_nat (S (Z.to_nat (Z.log2 n))).
Proof.
  intros Hn. rewrite Nat2Z.inj_succ, Z2Nat.id by apply Z.log2_nonneg.
  destruct (Z.eq_dec n 0) as [->|Hz]; [reflexivity|].
  apply Z.log2_spec. lia.
Qed.

Lemma timePrefix_fixedWidth (t : Z) :
  representable t -> timePrefix t = fixedWidth TIMESTAMP_LENGTH t.
Proof.
  intros [H0 H1].
  unfold timePrefix, timestampToPaddedTimestampPrefix, Buffer_from, padStart,
    Math_floor, Number_toString.
  replace (t <? 0) with false by (symmetry; apply Z.ltb_ge; lia).
  rewrite !list_ascii_of_string_of_list_ascii. unfold digits.
  rewrite (@digits_aux_fixedWidth _ t [] TIMESTAMP_LENGTH).
  - change (TIMESTAMP_LENGTH - List.length (@nil ascii))%nat with TIMESTAMP_LENGTH.
    cbn [map]. apply app_nil_r.
  - split; [assumption | now apply log2_fuel].
  - simpl. unfold TIMESTAMP_LENGTH. lia.
  - simpl. exact H1.
Qed.

Lemma timePrefix_length (t : Z) :
  representable t -> List.length (timePrefix t) = TIMESTAMP_LENGTH.
Proof. intros H. rewrite timePrefix_fixedWidth by assumption. apply fixedWidth_length. Qed.

(* ----------------------------------------------------------------- *)
(** *** Byte order of fixed-width prefixes is numeric order *)

Lemma byteZ_digitChar (d : Z) :
  0 <= d <= 9 -> byteZ (byte_of_ascii (digitChar d)) = 48 + d.
Proof.
  intros H.
  assert (C : d = 0 \/ d = 1 \/ d = 2 \/ d = 3 \/ d = 4 \/
              d = 5 \/ d = 6 \/ d = 7 \/ d = 8 \/ d = 9) by lia.
  repeat (destruct C as [-> | C]; [reflexivity|]). subst d. reflexivity.
Qed.

Lemma Buffer_compare_snoc (a b : Buffer) (x y : byte) :
  List.length a = List.length b ->
  Buffer_compare (a ++ [x]) (b ++ [y])
  = if Buffer_compare a b =? 0 then compareZ (byteZ x) (byteZ y)
    else Buffer_compare a b.
Proof.
  revert b. induction a as [|u a IH]; intros [|v b] L; try discriminate L.
  - simpl. unfold compareZ.
    destruct (byteZ x ?= byteZ y) eqn:C.
    + apply Z.compare_eq in C. rewrite C, Z.ltb_irrefl. reflexivity.
    + pose proof C as C'. rewrite Z.compare_lt_iff, <- Z.ltb_lt in C'. now rewrite C'.
    + rewrite Z.compare_gt_iff in C.
      replace (byteZ x <? byteZ y) with false by (symmetry; apply Z.ltb_ge; lia).
      replace (byteZ y <? byteZ x) with true by (symmetry; apply Z.ltb_lt; lia).
      reflexivity.
  - simpl. destruct (byteZ u <? byteZ v); [reflexivity|].
    destruct (byteZ v <? byteZ u); [reflexivity|].
    apply IH. now inversion L.
Qed.

Lemma fixedWidth_compare (w : nat) :
  forall n m : Z,
    0 <= n < 10 ^ Z.of_nat w -> 0 <= m < 10 ^ Z.of_nat w ->
    Buffer_compare (fixedWidth w n) (fixedWidth w m) = compareZ n m.
Proof.
  induction w as [|w IH]; intros n m Hn Hm.
  - simpl in *. assert (n = 0) by lia. assert (m = 0) by lia. now subst.
  - rewrite Nat2Z.inj_succ, Z.pow_succ_r in Hn, Hm by lia.
    cbn [fixedWidth].
    rewrite Buffer_compare_snoc by now rewrite !fixedWidth_length.
    assert (Bn : 0 <= n / 10 < 10 ^ Z.of_nat w)
      by (split; [apply Z.div_pos; lia | apply Z.div_lt_upper_bound; lia]).
    assert (Bm : 0 <= m / 10 < 10 ^ Z.of_nat w)
      by (split; [apply Z.div_pos; lia | apply Z.div_lt_upper_bound; lia]).
    rewrite (IH _ _ Bn Bm).
    pose proof (Z.mod_pos_bound n 10 ltac:(lia)) as Rn.
    pose proof (Z.mod_pos_bound m 10 ltac:(lia)) as Rm.
    rewrite !byteZ_digitChar by lia.
    pose proof (Z.div_mod n 10 ltac:(lia)) as Dn.
    pose proof (Z.div_mod m 10 ltac:(lia)) as Dm.
    unfold compareZ.
    destruct (n / 10 ?= m / 10) eqn:Q; cbn [Z.eqb].
    + apply Z.compare_eq in Q.
      destruct (48 + n mod 10 ?= 48 + m mod 10) eqn:R.
      * apply Z.compare_eq in R.
        replace (n ?= m) with Eq; [reflexivity|].
        symmetry. apply Z.compare_eq_iff. lia.
      * rewrite Z.compare_lt_iff in R.
        replace (n ?= m) with Lt; [reflexivity|].
        symmetry. apply Z.compare_lt_iff. lia.
      * rewrite Z.compare_gt_iff in R.
        replace (n ?= m) with Gt; [reflexivity|].
        symmetry. apply Z.compare_gt_iff. lia.
    + rewrite Z.compare_lt_iff in Q.
      replace (n ?= m) with Lt; [reflexivity|].
      symmetry. apply Z.compare_lt_iff. lia.
    + rewrite Z.compare_gt_iff in Q.
      replace (n ?= m) with Gt; [reflexivity|].
      symmetry. apply Z.compare_gt_iff. lia.
Qed.

Lemma timePrefix_compare (t1 t2 : Z) :
  representable t1 -> representable t2 ->
  Buffer_compare (timePrefix t1) (timePrefix t2) = compareZ t1 t2.
Proof.
  intros H1 H2. rewrite !timePrefix_fixedWidth by assumption.
  now apply fixedWidth_compare.
Qed.

Lemma compareZ_lt (n m : Z) : compareZ n m = -1 <-> n < m.
Proof.
  unfold compareZ. destruct (n ?= m) eqn:C.
  - apply Z.compare_eq in C. split; [discriminate | lia].
  - rewrite Z.compare_lt_iff in C. tauto.
  - rewrite Z.compare_gt_iff in C. split; [discriminate | lia].
Qed.

Lemma compareZ_eq (n m : Z) : compareZ n m = 0 <-> n = m.
Proof.
  unfold compareZ. destruct (n ?= m) eqn:C.
  - apply Z.compare_eq in C. tauto.
  - rewrite Z.compare_lt_iff in C. split; [discriminate | lia].
  - rewrite Z.compare_gt_iff in C. split; [discriminate | lia].
Qed.

Lemma compareZ_gt (n m : Z) : compareZ n m = 1 <-> m < n.
Proof.
  unfold compareZ. destruct (n ?= m) eqn:C.
  - apply Z.compare_eq in C. split; [discriminate | lia].
  - rewrite Z.compare_lt_iff in C. split; [discriminate | lia].
  - rewrite Z.compare_gt_iff in C. split; [lia | reflexivity].
Qed.

(** C8. The encoding preserves order: when two instants convert to the
    representable timestamps [t1] and [t2], [getTimePrefix] yields two
    prefixes, and the first sorts strictly before the second under
    [Buffer.compare] exactly when [t1 < t2]. *)
Theorem getTimePrefix_order_preserving
    (toFarcasterTime : number -> HubResult number)
    (time1 time2 : number) (t1 t2 : Z) :
  toFarcasterTime time1 = ok (Int t1) ->
  toFarcasterTime time2 = ok (Int t2) ->
  representable t1 -> representable t2 ->
  getTimePrefix toFarcasterTime time1 = ok (timePrefix t1) /\
  getTimePrefix toFarcasterTime time2 = ok (timePrefix t2) /\
  (Buffer_compare (timePrefix t1) (timePrefix t2) = -1 <-> t1 < t2).
Proof.
  intros E1 E2 R1 R2. unfold getTimePrefix. rewrite E1, E2.
  repeat split.
  - rewrite timePrefix_compare by assumption. apply compareZ_lt.
  - intros L. rewrite timePrefix_compare by assumption. now apply compareZ_lt.
Qed.

(* ================================================================= *)
(** ** The range traversal over a trie *)

(* ----------------------------------------------------------------- *)
(** *** Prefixes and comparison *)

Lemma byte_eqb_eq (x y : byte) : Byte.eqb x y = true <-> x = y.
Proof. split; [apply Byte.byte_dec_bl | apply Byte.byte_dec_lb]. Qed.

Lemma byte_eqb_refl (x : byte) : Byte.eqb x x = true.
Proof. now apply byte_eqb_eq. Qed.

Lemma prefixOf_spec (p k : Buffer) :
  prefixOf p k = true <-> exists r, k = p ++ r.
Proof.
  revert k. induction p as [|x p IH]; intros k; simpl.
  - split; [intros _; now exists k | reflexivity].
  - destruct k as [|y k].
    + split; [discriminate | intros [r E]; discriminate E].
    + rewrite andb_true_iff, byte_eqb_eq, IH. split.
      * intros [-> [r ->]]. now exists r.
      * intros [r E]. inversion E; subst. split; [reflexivity | now exists r].
Qed.

Lemma prefixOf_app (p r : Buffer) : prefixOf p (p ++ r) = true.
Proof. apply prefixOf_spec. now exists r. Qed.

Lemma prefixOf_refl (p : Buffer) : prefixOf p p = true.
Proof. apply prefixOf_spec. exists []. now rewrite app_nil_r. Qed.

Lemma prefixOf_length (p k : Buffer) :
  prefixOf p k = true -> (List.length p <= List.length k)%nat.
Proof.
  intros H. apply prefixOf_spec in H as [r ->]. rewrite length_app. lia.
Qed.

Lemma prefixOf_trans (p q k : Buffer) :
  prefixOf p q = true -> prefixOf q k = true -> prefixOf p k = true.
Proof.
  intros H1 H2. apply prefixOf_spec in H1 as [r1 ->], H2 as [r2 ->].
  rewrite <- app_assoc. apply prefixOf_app.
Qed.

Lemma prefixOf_same_length (p k : Buffer) :
  prefixOf p k = true -> List.length p = List.length k -> p = k.
Proof.
  intros H L. apply prefixOf_spec in H as [r ->].
  rewrite length_app in L. destruct r; [now rewrite app_nil_r | simpl in L; lia].
Qed.

Lemma prefixOf_firstn (n : nat) (p k : Buffer) :
  (List.length p <= n)%nat -> prefixOf p (firstn n k) = prefixOf p k.
Proof.
  revert n k. induction p as [|x p IH]; intros n k L; [reflexivity|].
  destruct n as [|n]; [simpl in L; lia|].
  destruct k as [|y k]; [reflexivity|].
  simpl. rewrite IH by (simpl in L; lia). reflexivity.
Qed.

Lemma prefixOf_snoc_inv (p k : Buffer) (b : byte) :
  prefixOf (p ++ [b]) k = true -> prefixOf p k = true.
Proof. intros H. apply prefixOf_trans with (q := p ++ [b]); [apply prefixOf_app | exact H]. Qed.

(** Two one-byte extensions of [p] above the same buffer are the same. *)
Lemma prefixOf_snoc_unique (p k : Buffer) (b b' : byte) :
  prefixOf (p ++ [b]) k = true -> prefixOf (p ++ [b']) k = true -> b = b'.
Proof.
  intros H1 H2. apply prefixOf_spec in H1 as [r1 E1], H2 as [r2 E2].
  rewrite E1 in E2. rewrite <- !app_assoc in E2. apply app_inv_head in E2.
  now inversion E2.
Qed.

(** A key longer than [p] and below it is below exactly one extension. *)
Lemma prefixOf_next (p k : Buffer) :
  prefixOf p k = true -> (List.length p < List.length k)%nat ->
  exists b, prefixOf (p ++ [b]) k = true.
Proof.
  intros H L. apply prefixOf_spec in H as [r ->].
  destruct r as [|b r]; [rewrite app_nil_r in L; lia|].
  exists b. apply prefixOf_spec. exists r. now rewrite <- app_assoc.
Qed.

Lemma Buffer_compare_longer (s c : Buffer) :
  prefixOf s c = true -> (List.length s < List.length c)%nat ->
  Buffer_compare c s = 1.
Proof.
  intros H L. apply prefixOf_spec in H as [r ->].
  destruct r as [|b r]; [rewrite app_nil_r in L; lia|]. clear L.
  induction s as [|x s IH]; simpl; [reflexivity|].
  now rewrite Z.ltb_irrefl.
Qed.

(** Below a node that is not above the boundary [s], every buffer compares
    with [s] as the node does. *)
Lemma Buffer_compare_below (c h s : Buffer) :
  prefixOf c h = true -> prefixOf c s = false ->
  (List.length c <= List.length s)%nat ->
  Buffer_compare h s = Buffer_compare c s.
Proof.
  revert h s. induction c as [|x c IH]; intros h s Hh Hs L; [discriminate Hs|].
  destruct h as [|u h]; [discriminate Hh|].
  destruct s as [|y s]; [simpl in L; lia|].
  simpl in Hh, Hs. apply andb_true_iff in Hh as [E Hh].
  apply byte_eqb_eq in E. subst u. simpl.
  destruct (byteZ x <? byteZ y) eqn:E1; [reflexivity|].
  destruct (byteZ y <? byteZ x) eqn:E2; [reflexivity|].
  apply Z.ltb_ge in E1, E2.
  assert (x = y) by (apply byteZ_inj; lia). subst y.
  rewrite byte_eqb_refl in Hs. simpl in Hs.
  apply IH; [assumption | assumption | simpl in L; lia].
Qed.

(** A node that is not above [s] and no longer than [s] differs from it. *)
Lemma Buffer_compare_not_above (c s : Buffer) :
  prefixOf c s = false -> Buffer_compare c s <> 0.
Proof.
  intros H E. apply Buffer_compare_eq in E. subst. now rewrite prefixOf_refl in H.
Qed.

Lemma isPrefix_prefixOf (s c : Buffer) :
  isAscii s -> isPrefix s c = prefixOf c s.
Proof.
  unfold isPrefix, Buffer_toString. intros A. revert s A.
  induction c as [|y c IH]; intros s A; [reflexivity|].
  destruct s as [|x s]; [reflexivity|].
  inversion A as [|? ? Hx A']; subst. simpl. rewrite IH by assumption. f_equal.
  unfold utf8Unit.
  replace (byteZ x <? 128) with true by (symmetry; apply Z.ltb_lt; lia).
  destruct (Byte.eqb y x) eqn:E.
  - apply byte_eqb_eq in E. subst y.
    replace (byteZ x <? 128) with true by (symmetry; apply Z.ltb_lt; lia).
    apply Z.eqb_refl.
  - apply Z.eqb_neq. intros C.
    destruct (byteZ y <? 128) eqn:Y.
    + apply byteZ_inj in C. subst. now rewrite byte_eqb_refl in E.
    + lia.
Qed.

(* ----------------------------------------------------------------- *)
(** *** The bytes and the children of a node *)

Lemma allBytes_complete (b : byte) : In b allBytes.
Proof.
  unfold allBytes.
  replace b with (byteOfNat (Byte.to_nat b))
    by (unfold byteOfNat; now rewrite Byte.of_to_nat).
  apply in_map, in_seq. pose proof (Byte.to_nat_bounded b). lia.
Qed.

Lemma allBytes_NoDup : NoDup allBytes.
Proof.
  assert (E : map Byte.to_nat allBytes = seq 0 256) by (vm_compute; reflexivity).
  apply (NoDup_map_inv Byte.to_nat). rewrite E. apply seq_NoDup.
Qed.

Lemma NoDup_filter_one (l : list byte) (x : byte) :
  NoDup l -> In x l -> List.length (filter (fun y => Byte.eqb y x) l) = 1%nat.
Proof.
  induction 1 as [|y l Hy ND IH]; intros Hx; [contradiction|].
  simpl. destruct (Byte.eqb y x) eqn:E.
  - apply byte_eqb_eq in E. subst y. simpl. f_equal.
    clear IH Hx ND. induction l as [|z l IH]; [reflexivity|].
    simpl. destruct (Byte.eqb z x) eqn:E.
    + apply byte_eqb_eq in E. subst. exfalso. apply Hy. now left.
    + apply IH. intros H. apply Hy. now right.
  - destruct Hx as [->|Hx]; [now rewrite byte_eqb_refl in E | now apply IH].
Qed.

Lemma filter_length_ext {A} (f g : A -> bool) (l : list A) :
  (forall x, In x l -> f x = g x) ->
  List.length (filter f l) = List.length (filter g l).
Proof.
  intros H. induction l as [|x l IH]; [reflexivity|].
  simpl. rewrite (H x) by now left.
  destruct (g x); simpl; rewrite IH; auto; intros y Hy; apply H; now right.
Qed.

Lemma filter_length_none {A} (f : A -> bool) (l : list A) :
  (forall x, In x l -> f x = false) -> List.length (filter f l) = 0%nat.
Proof.
  intros H. rewrite (filter_length_ext f (fun _ => false) l H).
  clear H. induction l as [|x l IH]; [reflexivity | exact IH].
Qed.

Lemma countUnder_pos (keys : list Buffer) (p k : Buffer) :
  In k keys -> prefixOf p k = true -> (0 < countUnder keys p)%nat.
Proof.
  intros Hk Hp. unfold countUnder.
  assert (In k (filter (prefixOf p) keys)) by (apply filter_In; tauto).
  destruct (filter (prefixOf p) keys); [contradiction | simpl; lia].
Qed.

Lemma trieChildBytes_NoDup (keys : list Buffer) (p : Buffer) :
  NoDup (trieChildBytes keys p).
Proof. unfold trieChildBytes. apply NoDup_filter. exact allBytes_NoDup. Qed.

Lemma trieChildBytes_pos (keys : list Buffer) (p : Buffer) (b : byte) :
  In b (trieChildBytes keys p) -> (0 < countUnder keys (p ++ [b]))%nat.
Proof.
  unfold trieChildBytes. intros H.
  apply (proj1 (filter_In _ _ _)) in H. destruct H as [_ H].
  now apply Nat.ltb_lt in H.
Qed.

(** A key longer than [p] lies below exactly one child of the node [p],
    and only if it lies below [p]. *)
Lemma children_partition (keys : list Buffer) (p k : Buffer) (w : bool) :
  In k keys -> (List.length p < List.length k)%nat ->
  List.length (filter (fun b => prefixOf (p ++ [b]) k && w) (trieChildBytes keys p))
  = if prefixOf p k && w then 1%nat else 0%nat.
Proof.
  intros Hk L. destruct w.
  2:{ rewrite andb_false_r. apply filter_length_none. intros. apply andb_false_r. }
  rewrite andb_true_r.
  destruct (prefixOf p k) eqn:P.
  - destruct (prefixOf_next p k P L) as [b0 Hb0].
    rewrite (filter_length_ext _ (fun y => Byte.eqb y b0)).
    + apply NoDup_filter_one; [apply trieChildBytes_NoDup|].
      unfold trieChildBytes. apply (proj2 (filter_In _ _ _)).
      split; [apply allBytes_complete|].
      apply Nat.ltb_lt. now apply countUnder_pos with (k := k).
    + intros b _. rewrite andb_true_r. destruct (Byte.eqb b b0) eqn:E.
      * apply byte_eqb_eq in E. now subst.
      * destruct (prefixOf (p ++ [b]) k) eqn:Q; [|reflexivity].
        rewrite (prefixOf_snoc_unique p k b b0 Q Hb0), byte_eqb_refl in E.
        discriminate.
  - apply filter_length_none. intros b _. rewrite andb_true_r.
    destruct (prefixOf (p ++ [b]) k) eqn:Q; [|reflexivity].
    apply prefixOf_snoc_inv in Q. congruence.
Qed.

Lemma cover_app (v1 v2 : list TrieNodeMetadataResponse) (k : Buffer) :
  cover (v1 ++ v2) k = (cover v1 k + cover v2 k)%nat.
Proof. unfold cover. now rewrite filter_app, length_app. Qed.

(* ----------------------------------------------------------------- *)
(** *** Running the monad *)

Lemma bind_Some {A B} (m : M A) (k : A -> M B) (t t' : Trace) (a : A) :
  m t = Some (a, t') -> bind m k t = k a t'.
Proof. unfold bind. now intros ->. Qed.
Arguments bind_Some {A B m} k {t t' a} _.

Lemma forEach_app {A S} (l1 l2 : list A) (body : S -> A -> M S) (s s1 : S)
    (t t1 : Trace) :
  forEach l1 body s t = Some (s1, t1) ->
  forEach (l1 ++ l2) body s t = forEach l2 body s1 t1.
Proof.
  revert s t. induction l1 as [|x l1 IH]; intros s t H.
  - simpl in H. now inversion H.
  - simpl in *. unfold bind in *.
    destruct (body s x t) as [[s' t']|]; [|discriminate]. now apply IH.
Qed.

Lemma forEach_unchanged {A S} (l : list A) (body : S -> A -> M S) (s : S) (t : Trace) :
  (forall x, In x l -> body s x t = Some (s, t)) ->
  forEach l body s t = Some (s, t).
Proof.
  induction l as [|x l IH]; intros H; [reflexivity|].
  simpl. rewrite (bind_Some _ (H x (or_introl eq_refl))).
  apply IH. intros y Hy. apply H. now right.
Qed.

(* ----------------------------------------------------------------- *)
(** *** The traversal, node by node *)

Lemma traverseRange_S {A : Type} (fuel' : nat) (node : TrieNodeMetadataResponse)
    (start stop : Buffer) (R : MetadataRetriever)
    (f : TrieNodeMetadataResponse -> A -> A) (acc : A) :
  traverseRange (S fuel') node start stop R f acc
  = (metadata <- getMetadata R (prefix node) ;;
     match metadata with
     | err e => ret (err e, acc)
     | ok value =>
         acc' <- forEach (children value) (visitChild fuel' start stop R f) acc ;;
         ret (ok tt, acc')
     end).
Proof. reflexivity. Qed.

Lemma firstn_prefixOf (s k : Buffer) :
  prefixOf s k = true -> firstn (List.length s) k = s.
Proof.
  intros H. apply prefixOf_spec in H as [r ->].
  rewrite firstn_app, Nat.sub_diag, firstn_all. simpl. apply app_nil_r.
Qed.

Section TrieTraversal.

Variable R : MetadataRetriever.
Variable ev : Buffer -> Event.
Variable keys : list Buffer.
Variables start stop : Buffer.

(** The retriever serves the trie of [keys], one event per query. *)
Hypothesis R_serves :
  forall p t, getMetadata R p t = Some (trieMetadata keys p, t ++ [ev p]).
Hypothesis same_length : List.length stop = List.length start.
Hypothesis keys_long :
  forall k, In k keys -> (List.length start <= List.length k)%nat.
Hypothesis start_ascii : isAscii start.
Hypothesis stop_ascii : isAscii stop.

Lemma inWindow_at_start (k : Buffer) :
  Buffer_compare start stop = -1 -> prefixOf start k = true ->
  inWindow start stop k = true.
Proof.
  intros Hlt H. unfold inWindow. rewrite (firstn_prefixOf _ _ H).
  now rewrite Buffer_compare_refl, Hlt.
Qed.

Lemma inWindow_at_stop (k : Buffer) :
  prefixOf stop k = true -> inWindow start stop k = false.
Proof.
  intros H. unfold inWindow. rewrite <- same_length, (firstn_prefixOf _ _ H).
  rewrite Buffer_compare_refl. apply andb_false_r.
Qed.

Lemma inWindow_below (c k : Buffer) :
  prefixOf c k = true -> prefixOf c start = false -> prefixOf c stop = false ->
  (List.length c <= List.length start)%nat ->
  inWindow start stop k
  = negb (Buffer_compare c start =? -1) && (Buffer_compare c stop =? -1).
Proof.
  intros Hk Hs Hp L. unfold inWindow.
  assert (Hh : prefixOf c (firstn (List.length start) k) = true)
    by now rewrite prefixOf_firstn.
  rewrite (Buffer_compare_below c _ start Hh Hs L).
  rewrite (Buffer_compare_below c _ stop Hh Hp) by lia.
  reflexivity.
Qed.

Lemma trieExists_child (p : Buffer) (b : byte) :
  (0 < countUnder keys (p ++ [b]))%nat -> trieExists keys (p ++ [b]) = true.
Proof.
  intros H. unfold trieExists.
  destruct (p ++ [b]) eqn:E; [now destruct p | now apply Nat.ltb_lt].
Qed.

(** The node of the right boundary: none of its children is visited. *)
Lemma traverse_stop (fuel : nat) (node : TrieNodeMetadataResponse) :
  prefix node = stop -> trieExists keys stop = true ->
  Runs R ev start stop (S fuel) node [] [stop] /\ Good keys start stop stop [] [stop].
Proof.
  intros Hn Hex. split.
  - intros A f acc t. rewrite traverseRange_S, Hn.
    rewrite (bind_Some _ (R_serves stop t)).
    unfold trieMetadata, trieNode. rewrite Hex. cbn [children].
    rewrite (bind_Some (a := acc) (t' := t ++ [ev stop]) _); [reflexivity|].
    apply forEach_unchanged. intros c Hc.
    apply in_map_iff in Hc as (b & <- & _).
    unfold visitChild. cbn [prefix trieChild].
    assert (Lc : (List.length start < List.length (stop ++ [b]))%nat)
      by (rewrite length_app, same_length; simpl; lia).
    replace (Buffer_compare (stop ++ [b]) start =? 0) with false.
    2:{ symmetry. apply Z.eqb_neq. intros E. apply Buffer_compare_eq in E.
        rewrite E in Lc. lia. }
    rewrite !isPrefix_prefixOf by assumption.
    replace (prefixOf (stop ++ [b]) start) with false.
    2:{ symmetry. destruct (prefixOf (stop ++ [b]) start) eqn:P; [|reflexivity].
        apply prefixOf_length in P. lia. }
    replace (prefixOf (stop ++ [b]) stop) with false.
    2:{ symmetry. destruct (prefixOf (stop ++ [b]) stop) eqn:P; [|reflexivity].
        apply prefixOf_length in P. rewrite length_app in P. simpl in P. lia. }
    rewrite (Buffer_compare_longer stop (stop ++ [b])).
    + cbn [orb Z.eqb]. rewrite andb_false_r. reflexivity.
    + apply prefixOf_app.
    + rewrite length_app. simpl. lia.
  - unfold Good. split; [|split; [|split]].
    + intros n [].
    + intros _ k Hk. unfold cover. simpl.
      destruct (prefixOf stop k) eqn:P; [|reflexivity].
      now rewrite inWindow_at_stop.
    + intros q [<- | []]. apply prefixOf_refl.
    + repeat constructor. intros [].
Qed.

(** One child of a node above the boundaries. *)
Lemma visit_child (fuel' : nat) (p : Buffer) (b : byte) :
  Below R ev keys start stop fuel' ->
  (List.length p < List.length start)%nat ->
  (List.length start - List.length p < S fuel')%nat ->
  (0 < countUnder keys (p ++ [b]))%nat ->
  exists v cl,
    (forall (A : Type) (f : TrieNodeMetadataResponse -> A -> A) (acc : A) (t : Trace),
       visitChild fuel' start stop R f acc (trieChild keys p b) t
       = Some (visitAll f v acc, t ++ map ev cl)) /\
    Good keys start stop (p ++ [b]) v cl.
Proof.
  intros IH Lp Lf Hpos.
  set (c := p ++ [b]).
  assert (Lc : List.length c = S (List.length p))
    by (unfold c; rewrite length_app; simpl; lia).
  unfold visitChild. cbn [prefix trieChild]. fold c.
  rewrite !isPrefix_prefixOf by assumption.
  destruct (Buffer_compare c start =? 0) eqn:E0.
  - (* the left boundary itself *)
    apply Z.eqb_eq, Buffer_compare_eq in E0.
    exists [trieChild keys p b], []. split.
    + intros A f acc t. cbn. now rewrite app_nil_r.
    + unfold Good. split; [|split; [|split]].
      * intros n [<- | []]. cbn [prefix trieChild numMessages]. fold c.
        repeat split; [apply prefixOf_refl | assumption].
      * intros Hlt k Hk. unfold cover. cbn [filter prefix trieChild]. fold c.
        destruct (prefixOf c k) eqn:P; [|reflexivity].
        rewrite inWindow_at_start; [reflexivity | assumption | now rewrite <- E0].
      * intros q [].
      * constructor.
  - apply Z.eqb_neq in E0.
    destruct (prefixOf c start || prefixOf c stop) eqn:E1.
    + (* a node above a boundary: descend *)
      destruct (IH (trieChild keys p b)) as (vis & rest & HR & HG).
      * cbn [prefix trieChild]. fold c. lia.
      * cbn [prefix trieChild]. fold c.
        destruct (Nat.eq_dec (List.length c) (List.length start)) as [E|E];
          [right | left; lia].
        apply orb_true_iff in E1 as [P | P].
        -- exfalso. apply E0. apply Buffer_compare_eq.
           now apply prefixOf_same_length.
        -- apply prefixOf_same_length; [assumption | lia].
      * cbn [prefix trieChild]. now apply trieExists_child.
      * cbn [prefix trieChild] in HR, HG. fold c in HR, HG.
        exists vis, (c :: rest). split; [|exact HG].
        intros A f acc t. now rewrite (bind_Some _ (HR A f acc t)).
    + apply orb_false_iff in E1 as [P1 P2].
      assert (W : forall k, prefixOf c k = true ->
                inWindow start stop k
                = negb (Buffer_compare c start =? -1)
                  && (Buffer_compare c stop =? -1))
        by (intros k Hk; apply inWindow_below; auto; lia).
      destruct ((Buffer_compare c start =? 1) && (Buffer_compare c stop =? -1)) eqn:E2.
      * (* strictly between the boundaries *)
        apply andb_true_iff in E2 as [C1 C2]. apply Z.eqb_eq in C1.
        exists [trieChild keys p b], []. split.
        -- intros A f acc t. cbn. now rewrite app_nil_r.
        -- unfold Good. split; [|split; [|split]].
           ++ intros n [<- | []]. cbn [prefix trieChild numMessages]. fold c.
              repeat split; [apply prefixOf_refl | assumption].
           ++ intros Hlt k Hk. unfold cover. cbn [filter prefix trieChild]. fold c.
              destruct (prefixOf c k) eqn:P; [|reflexivity].
              rewrite (W k P), C1, C2. reflexivity.
           ++ intros q [].
           ++ constructor.
      * (* outside the window *)
        exists [], []. split.
        -- intros A f acc t. cbn. now rewrite app_nil_r.
        -- unfold Good. split; [|split; [|split]].
           ++ intros n [].
           ++ intros Hlt k Hk. unfold cover. cbn [filter List.length].
              destruct (prefixOf c k) eqn:P; [|reflexivity].
              rewrite (W k P).
              destruct (Buffer_compare_range c start) as [C | [C | C]];
                rewrite C in *; [reflexivity | contradiction |].
              cbn [Z.eqb Pos.eqb andb negb] in E2 |- *. now rewrite E2.
           ++ intros q [].
           ++ constructor.
Qed.

(** The loop over the children of a node above the boundaries. *)
Lemma visit_children (fuel' : nat) (p : Buffer) :
  Below R ev keys start stop fuel' ->
  (List.length p < List.length start)%nat ->
  (List.length start - List.length p < S fuel')%nat ->
  forall bs : list byte,
    NoDup bs ->
    (forall b, In b bs -> (0 < countUnder keys (p ++ [b]))%nat) ->
    exists vis calls,
      (forall (A : Type) (f : TrieNodeMetadataResponse -> A -> A) (acc : A) (t : Trace),
         forEach (map (trieChild keys p) bs) (visitChild fuel' start stop R f) acc t
         = Some (visitAll f vis acc, t ++ map ev calls)) /\
      (forall n, In n vis ->
         (exists b, prefixOf (p ++ [b]) (prefix n) = true) /\
         numMessages n = Z.of_nat (countUnder keys (prefix n)) /\
         (0 < countUnder keys (prefix n))%nat) /\
      (Buffer_compare start stop = -1 ->
       forall k, In k keys ->
         cover vis k
         = List.length (filter (fun b => prefixOf (p ++ [b]) k && inWindow start stop k) bs)) /\
      (forall q, In q calls -> exists b, In b bs /\ prefixOf (p ++ [b]) q = true) /\
      NoDup calls.
Proof.
  intros IH Lp Lf. induction bs as [|b bs IHbs]; intros ND Hpos.
  - exists [], []. split; [|split; [|split; [|split]]].
    + intros A f acc t. cbn. now rewrite app_nil_r.
    + intros n [].
    + intros _ k _. reflexivity.
    + intros q [].
    + constructor.
  - inversion ND as [|? ? Hb ND']; subst.
    destruct (@visit_child fuel' p b IH Lp Lf (Hpos b (or_introl eq_refl)))
      as (v & cl & Hrun & Hv & Hcov & Hcl & NDcl).
    destruct (IHbs ND' (fun b' H => Hpos b' (or_intror H)))
      as (vis & calls & Hruns & Hvis & Hcovs & Hcalls & NDcalls).
    exists (v ++ vis), (cl ++ calls). split; [|split; [|split; [|split]]].
    + intros A f acc t. cbn [map forEach].
      rewrite (bind_Some _ (Hrun A f acc t)), Hruns.
      unfold visitAll. now rewrite fold_left_app, map_app, app_assoc.
    + intros n Hn. apply in_app_or in Hn as [Hn | Hn].
      * destruct (Hv n Hn) as (P & N & C). split; [now exists b | tauto].
      * now apply Hvis.
    + intros Hlt k Hk. rewrite cover_app, (Hcov Hlt k Hk), (Hcovs Hlt k Hk).
      cbn [filter]. destruct (prefixOf (p ++ [b]) k && inWindow start stop k);
        reflexivity.
    + intros q Hq. apply in_app_or in Hq as [Hq | Hq].
      * exists b. split; [now left | now apply Hcl].
      * destruct (Hcalls q Hq) as (b' & Hb' & P). exists b'. split; [now right | exact P].
    + apply NoDup_app; [assumption | assumption |].
      intros q Hq Hq'. destruct (Hcalls q Hq') as (b' & Hb' & P).
      pose proof (prefixOf_snoc_unique p q b b' (Hcl q Hq) P). subst b'.
      contradiction.
Qed.

(** Every traversal that starts from an existing node above a boundary,
    or from the right boundary itself, finishes within a fuel of one more
    than the bytes left, and does the right thing. *)
Lemma traverse_node (fuel : nat) : Below R ev keys start stop fuel.
Proof.
  induction fuel as [|fuel' IH]; intros node Hf Hp Hex; [lia|].
  destruct (list_eq_dec Byte.byte_eq_dec (prefix node) stop) as [E | NE].
  { exists [], []. rewrite E in Hex |- *. now apply traverse_stop. }
  assert (Lp : (List.length (prefix node) < List.length start)%nat)
    by (destruct Hp; [assumption | contradiction]).
  set (p := prefix node) in *.
  destruct (@visit_children fuel' p IH Lp Hf _ (trieChildBytes_NoDup keys p)
              (trieChildBytes_pos keys p))
    as (vis & calls & Hruns & Hvis & Hcov & Hcalls & ND).
  exists vis, calls. split.
  - intros A f acc t. rewrite traverseRange_S. fold p.
    rewrite (bind_Some _ (R_serves p t)).
    unfold trieMetadata, trieNode. rewrite Hex. cbn [children].
    rewrite (bind_Some _ (Hruns A f acc (t ++ [ev p]))).
    cbn [map ret]. now rewrite <- app_assoc.
  - unfold Good. split; [|split; [|split]].
    + intros n Hn. destruct (Hvis n Hn) as ((b & P) & N & C).
      split; [|tauto]. now apply prefixOf_snoc_inv in P.
    + intros Hlt k Hk. rewrite (Hcov Hlt k Hk).
      apply children_partition; [assumption|].
      pose proof (keys_long k Hk). lia.
    + intros q [<- | Hq]; [apply prefixOf_refl|].
      destruct (Hcalls q Hq) as (b & _ & P). now apply prefixOf_snoc_inv in P.
    + constructor; [|assumption].
      intros Hq. destruct (Hcalls p Hq) as (b & _ & P).
      apply prefixOf_length in P. rewrite length_app in P. simpl in P. lia.
Qed.

End TrieTraversal.

(* ----------------------------------------------------------------- *)
(** *** The common prefix of the two boundaries *)

Lemma getCommonPrefix_left (a b : Buffer) : prefixOf (getCommonPrefix a b) a = true.
Proof.
  revert b. induction a as [|x a IH]; intros [|y b]; try reflexivity.
  simpl. destruct (Byte.eqb x y); [|reflexivity].
  simpl. now rewrite byte_eqb_refl, IH.
Qed.

Lemma getCommonPrefix_right (a b : Buffer) : prefixOf (getCommonPrefix a b) b = true.
Proof.
  revert b. induction a as [|x a IH]; intros [|y b]; try reflexivity.
  simpl. destruct (Byte.eqb x y) eqn:E; [|reflexivity].
  simpl. now rewrite E, IH.
Qed.

Lemma getCommonPrefix_same (a : Buffer) : getCommonPrefix a a = a.
Proof.
  induction a as [|x a IH]; [reflexivity|].
  simpl. now rewrite byte_eqb_refl, IH.
Qed.

Lemma getCommonPrefix_shorter (a b : Buffer) :
  List.length b = List.length a -> a <> b ->
  (List.length (getCommonPrefix a b) < List.length a)%nat.
Proof.
  revert b. induction a as [|x a IH]; intros [|y b] L N; try discriminate L.
  - contradiction.
  - simpl. destruct (Byte.eqb x y) eqn:E; [|simpl; lia].
    apply byte_eqb_eq in E. subst y. simpl.
    apply -> Nat.succ_lt_mono. apply IH; [now inversion L | congruence].
Qed.

(** A buffer that sorts at or after [a] and before [b] begins with what
    [a] and [b] have in common. *)
Lemma between_common (h a b : Buffer) :
  Buffer_compare h a <> -1 -> Buffer_compare h b = -1 ->
  prefixOf (getCommonPrefix a b) h = true.
Proof.
  revert h b. induction a as [|x a IH]; intros h [|y b] Ha Hb; try reflexivity.
  simpl. destruct (Byte.eqb x y) eqn:E; [|reflexivity].
  apply byte_eqb_eq in E. subst y.
  destruct h as [|u h]; [simpl in Ha; congruence|].
  simpl in Ha, Hb |- *.
  destruct (byteZ u <? byteZ x) eqn:E1; [congruence|].
  destruct (byteZ x <? byteZ u) eqn:E2; [discriminate|].
  apply Z.ltb_ge in E1, E2.
  assert (u = x) by (apply byteZ_inj; lia). subst u.
  rewrite byte_eqb_refl. simpl. now apply IH.
Qed.

Lemma inWindow_common (start stop k : Buffer) :
  inWindow start stop k = true ->
  prefixOf (getCommonPrefix start stop) k = true.
Proof.
  unfold inWindow. intros H. apply andb_true_iff in H as [H1 H2].
  apply negb_true_iff, Z.eqb_neq in H1. apply Z.eqb_eq in H2.
  rewrite <- prefixOf_firstn with (n := List.length start).
  - now apply between_common.
  - apply prefixOf_length, getCommonPrefix_left.
Qed.

(* ----------------------------------------------------------------- *)
(** *** Counting twice *)

Lemma filter_length_sum {A} (f : A -> bool) (l : list A) :
  List.length (filter f l) = list_sum (map (fun x => if f x then 1%nat else 0%nat) l).
Proof.
  induction l as [|x l IH]; [reflexivity|].
  simpl. destruct (f x); simpl; now rewrite IH.
Qed.

Lemma list_sum_map_add {A} (f g : A -> nat) (l : list A) :
  list_sum (map (fun x => (f x + g x)%nat) l)
  = (list_sum (map f l) + list_sum (map g l))%nat.
Proof. induction l as [|x l IH]; [reflexivity|]. simpl. rewrite IH. lia. Qed.

Lemma list_sum_map_ext {A} (f g : A -> nat) (l : list A) :
  (forall x, In x l -> f x = g x) -> list_sum (map f l) = list_sum (map g l).
Proof.
  intros H. induction l as [|x l IH]; [reflexivity|].
  simpl. rewrite (H x) by now left. rewrite IH; [reflexivity|].
  intros y Hy. apply H. now right.
Qed.

(** The counts of the visited nodes add up to the number of pairs of a
    visited node and a key below it. *)
Lemma visitAll_sum (keys : list Buffer) (vis : list TrieNodeMetadataResponse) :
  (forall n, In n vis -> numMessages n = Z.of_nat (countUnder keys (prefix n))) ->
  forall a0 : Z,
    visitAll (fun node count => count + numMessages node) vis a0
    = a0 + Z.of_nat (list_sum (map (cover vis) keys)).
Proof.
  unfold visitAll. induction vis as [|n vis IH]; intros H a0.
  - simpl. replace (list_sum (map (cover []) keys)) with 0%nat; [lia|].
    clear H. induction keys as [|k keys IHk]; [reflexivity | exact IHk].
  - cbn [fold_left]. rewrite IH by (intros m Hm; apply H; now right).
    rewrite (H n) by now left.
    replace (list_sum (map (cover (n :: vis)) keys))
      with (countUnder keys (prefix n) + list_sum (map (cover vis) keys))%nat; [lia|].
    unfold countUnder. rewrite filter_length_sum, <- list_sum_map_add.
    apply list_sum_map_ext. intros k _. unfold cover. cbn [filter].
    destruct (prefixOf (prefix n) k); reflexivity.
Qed.

Lemma countUnder_witness (keys : list Buffer) (p : Buffer) :
  (0 < countUnder keys p)%nat -> exists k, In k keys /\ prefixOf p k = true.
Proof.
  unfold countUnder. intros H.
  destruct (filter (prefixOf p) keys) as [|k l] eqn:E; [simpl in H; lia|].
  assert (In k (filter (prefixOf p) keys)) by (rewrite E; now left).
  exists k. now apply filter_In.
Qed.

(** When no key lies below two visited nodes and every visited node has a
    key below it, no prefix was visited twice. *)
Lemma cover_NoDup (keys : list Buffer) (vis : list TrieNodeMetadataResponse) :
  (forall k, In k keys -> (cover vis k <= 1)%nat) ->
  (forall n, In n vis -> (0 < countUnder keys (prefix n))%nat) ->
  NoDup (map prefix vis).
Proof.
  induction vis as [|n vis IH]; intros Hc Hp; [constructor|].
  cbn [map]. constructor.
  - intros Hin. apply in_map_iff in Hin as (m & E & Hm).
    destruct (countUnder_witness keys (prefix n) (Hp n (or_introl eq_refl)))
      as (k & Hk & P).
    specialize (Hc k Hk). unfold cover in Hc. cbn [filter] in Hc.
    rewrite P in Hc. cbn [List.length] in Hc.
    assert (In m (filter (fun n0 => prefixOf (prefix n0) k) vis))
      by (apply filter_In; split; [assumption | now rewrite E]).
    destruct (filter (fun n0 => prefixOf (prefix n0) k) vis);
      [contradiction | simpl in Hc; lia].
  - apply IH.
    + intros k Hk. specialize (Hc k Hk). unfold cover in *. cbn [filter] in Hc.
      destruct (prefixOf (prefix n) k); simpl in Hc; lia.
    + intros m Hm. apply Hp. now right.
Qed.

(* ----------------------------------------------------------------- *)
(** *** Sync identifiers, their keys and the window of two timestamps *)

Lemma fixedWidth_ascii (w : nat) (n : Z) : isAscii (fixedWidth w n).
Proof.
  revert n. induction w as [|w IH]; intros n; [constructor|].
  cbn [fixedWidth]. apply Forall_app. split; [apply IH|].
  constructor; [|constructor].
  pose proof (Z.mod_pos_bound n 10 ltac:(lia)).
  rewrite byteZ_digitChar by lia. lia.
Qed.

Lemma timePrefix_ascii (t : Z) : representable t -> isAscii (timePrefix t).
Proof. intros H. rewrite timePrefix_fixedWidth by assumption. apply fixedWidth_ascii. Qed.

Lemma timePrefix_inj (t1 t2 : Z) :
  representable t1 -> representable t2 -> timePrefix t1 = timePrefix t2 -> t1 = t2.
Proof.
  intros R1 R2 E. apply compareZ_eq. rewrite <- timePrefix_compare by assumption.
  now apply Buffer_compare_eq.
Qed.

Lemma inWindow_inSpan (s e : Z) (id : SyncId) :
  representable s -> representable e -> representable (timestamp id) ->
  inWindow (timePrefix s) (timePrefix e) (syncIdBytes id) = inSpan s e id.
Proof.
  intros Rs Re Ri. unfold inWindow, syncIdBytes, inSpan.
  rewrite (timePrefix_length Rs), <- (timePrefix_length Ri).
  rewrite firstn_app, Nat.sub_diag, firstn_all. cbn [firstn]. rewrite app_nil_r.
  rewrite !timePrefix_compare by assumption. f_equal.
  - destruct (s <=? timestamp id) eqn:L.
    + apply Z.leb_le in L. apply negb_true_iff, Z.eqb_neq.
      intros C. apply compareZ_lt in C. lia.
    + apply Z.leb_gt in L. apply negb_false_iff, Z.eqb_eq, compareZ_lt. lia.
  - destruct (timestamp id <? e) eqn:L.
    + apply Z.ltb_lt in L. now apply Z.eqb_eq, compareZ_lt.
    + apply Z.ltb_ge in L. apply Z.eqb_neq. intros C. apply compareZ_lt in C. lia.
Qed.

Lemma filter_map_length {A B} (g : A -> B) (f : B -> bool) (l : list A) :
  List.length (filter f (map g l)) = List.length (filter (fun x => f (g x)) l).
Proof.
  induction l as [|x l IH]; [reflexivity|].
  simpl. destruct (f (g x)); simpl; now rewrite IH.
Qed.

Section SpanOverTrie.

Variable env : Env.
Variable client : HubRpcClient.
Variable ids : list SyncId.
Variables s e : Z.
Hypothesis serves : servesTrie env client (map syncIdBytes ids).
Hypothesis ids_representable : forall id, In id ids -> representable (timestamp id).
Hypothesis s_representable : representable s.
Hypothesis e_representable : representable e.
Local Abbreviation keys := (map syncIdBytes ids).
Local Abbreviation R :=
  (RpcMetadataRetriever_getMetadata env (mkRpcMetadataRetriever client)).
Local Abbreviation ev := (GetSyncMetadataByPrefix client).
Local Abbreviation c := (getCommonPrefix (timePrefix s) (timePrefix e)).

Lemma rpc_serves (p : Buffer) (t : Trace) :
  getMetadata R p t = Some (trieMetadata keys p, t ++ [ev p]).
Proof.
  unfold RpcMetadataRetriever_getMetadata, getSyncMetadataByPrefix, call.
  cbn. now rewrite serves.
Qed.

Lemma keys_long_enough (k : Buffer) :
  In k keys -> (List.length (timePrefix s) <= List.length k)%nat.
Proof.
  intros Hk. apply in_map_iff in Hk as (id & <- & Hid).
  unfold syncIdBytes. rewrite length_app.
  rewrite (timePrefix_length s_representable),
    (timePrefix_length (ids_representable id Hid)). lia.
Qed.

(** The traversal from the node of the common prefix, whichever way round
    the two boundaries are; when the start is not after the stop, what it
    visits covers the window. *)
Lemma span_traversal (fuel : nat) (node : TrieNodeMetadataResponse) :
  (TIMESTAMP_LENGTH < fuel)%nat ->
  prefix node = c -> trieExists keys c = true ->
  exists vis rest,
    Runs R ev (timePrefix s) (timePrefix e) fuel node vis (c :: rest) /\
    Good keys (timePrefix s) (timePrefix e) c vis (c :: rest) /\
    (s <= e -> Covers keys (timePrefix s) (timePrefix e) c vis).
Proof.
  intros enough_fuel Hn Hex.
  assert (SL : List.length (timePrefix e) = List.length (timePrefix s))
    by now rewrite !timePrefix_length.
  destruct (Z.eq_dec s e) as [E | NE].
  - (* an empty window: the root is the boundary itself *)
    exists [], []. rewrite <- E in *.
    rewrite getCommonPrefix_same in *.
    assert (F : fuel = S (pred fuel)) by lia. rewrite F.
    destruct (@traverse_stop R ev keys (timePrefix s) (timePrefix s)
                rpc_serves eq_refl (timePrefix_ascii s_representable)
                (timePrefix_ascii s_representable) (pred fuel) node Hn Hex)
      as [HR HG].
    split; [exact HR | split; [exact HG|]].
    intros _ k Hk. unfold cover. cbn [filter List.length].
    destruct (prefixOf (timePrefix s) k) eqn:P; [|reflexivity].
    now rewrite (@inWindow_at_stop (timePrefix s) (timePrefix s) eq_refl k P).
  - assert (Lc : (List.length c < List.length (timePrefix s))%nat).
    { apply getCommonPrefix_shorter; [assumption|].
      intros C. apply NE. now apply timePrefix_inj. }
    pose proof (@traverse_node R ev keys (timePrefix s) (timePrefix e)
                  rpc_serves SL keys_long_enough
                  (timePrefix_ascii s_representable)
                  (timePrefix_ascii e_representable)
                  fuel node) as T.
    rewrite Hn in T. destruct T as (vis & rest & HR & HG).
    + rewrite (timePrefix_length s_representable). lia.
    + now left.
    + assumption.
    + exists vis, rest. split; [exact HR | split; [exact HG|]].
      intros Hle. apply HG.
      rewrite timePrefix_compare by assumption. apply compareZ_lt. lia.
Qed.

Variable toFarcasterTime : number -> HubResult number.
Variables startTime stopTime : number.
Hypothesis start_converts : toFarcasterTime startTime = ok (Int s).
Hypothesis stop_converts : toFarcasterTime stopTime = ok (Int e).

Lemma getPrefixInfo_trie (t : Trace) :
  getPrefixInfo toFarcasterTime R startTime stopTime t
  = Some (match trieNode keys c with
          | Some node => ok (mkPrefixInfo (timePrefix s) (timePrefix e) node)
          | None => err unavailable
          end, t ++ [ev c]).
Proof.
  unfold getPrefixInfo, getTimePrefix. rewrite start_converts, stop_converts.
  cbn [HubResult_map]. fold (timePrefix s) (timePrefix e).
  rewrite (bind_Some _ (rpc_serves c t)). unfold trieMetadata.
  destruct (trieNode keys c); reflexivity.
Qed.

(** Without a node for the common prefix the counter fails, after one
    query. *)
Lemma span_unavailable (fuel : nat) (t : Trace) :
  trieExists keys c = false ->
  getNumMessagesInSpanOptimized toFarcasterTime fuel R
    startTime stopTime t
  = Some (err unavailable, t ++ [ev c]).
Proof.
  intros Hex. unfold getNumMessagesInSpanOptimized.
  rewrite (bind_Some _ (getPrefixInfo_trie t)).
  unfold trieNode. now rewrite Hex.
Qed.

(** With one, it queries the common prefix a second time and then
    traverses. *)
Lemma span_run (fuel : nat) (t : Trace) :
  (TIMESTAMP_LENGTH < fuel)%nat ->
  trieExists keys c = true ->
  exists node vis rest,
    trieNode keys c = Some node /\
    getNumMessagesInSpanOptimized toFarcasterTime fuel R
      startTime stopTime t
    = Some (ok (visitAll (fun node count => count + numMessages node) vis 0),
            t ++ map ev (c :: c :: rest)) /\
    Runs R ev (timePrefix s) (timePrefix e) fuel node vis (c :: rest) /\
    Good keys (timePrefix s) (timePrefix e) c vis (c :: rest) /\
    (s <= e -> Covers keys (timePrefix s) (timePrefix e) c vis).
Proof.
  intros enough_fuel Hex.
  destruct (trieNode keys c) as [node|] eqn:N;
    [|unfold trieNode in N; rewrite Hex in N; discriminate].
  assert (Hn : prefix node = c).
  { unfold trieNode in N. rewrite Hex in N. inversion N. reflexivity. }
  destruct (span_traversal node enough_fuel Hn Hex) as (vis & rest & HR & HG & HC).
  exists node, vis, rest. split; [reflexivity|].
  split; [|split; [|split]; assumption].
  unfold getNumMessagesInSpanOptimized.
  rewrite (bind_Some _ (getPrefixInfo_trie t)), N.
  cbn [commonPrefixMetadata startTimePrefix stopTimePrefix].
  rewrite (bind_Some _ (HR _ _ _ _)). cbn [ret map].
  now rewrite <- app_assoc.
Qed.

(** The sum over the visited nodes is the number of messages of the
    span. *)
Lemma span_sum (vis : list TrieNodeMetadataResponse) (calls : list Buffer) :
  Good keys (timePrefix s) (timePrefix e) c vis calls ->
  Covers keys (timePrefix s) (timePrefix e) c vis ->
  visitAll (fun node count => count + numMessages node) vis 0
  = Z.of_nat (List.length (messagesInSpan ids s e)).
Proof.
  intros (Hv & _ & _ & _) Hc.
  rewrite (visitAll_sum keys) by (intros n Hn; apply (Hv n Hn)).
  rewrite Z.add_0_l. f_equal.
  rewrite (list_sum_map_ext (cover vis)
             (fun k => if inWindow (timePrefix s) (timePrefix e) k
                       then 1%nat else 0%nat)).
  - rewrite <- filter_length_sum. unfold messagesInSpan.
    rewrite filter_map_length. apply filter_length_ext.
    intros id Hid. apply inWindow_inSpan; auto.
  - intros k Hk. rewrite (Hc k Hk).
    destruct (inWindow (timePrefix s) (timePrefix e) k) eqn:W;
      [|now rewrite andb_false_r].
    now rewrite (inWindow_common _ _ _ W).
Qed.

(** Each message of the span lies below exactly one visited node, and a
    message outside it below none. *)
Lemma span_cover (vis : list TrieNodeMetadataResponse) (id : SyncId) :
  Covers keys (timePrefix s) (timePrefix e) c vis ->
  In id ids ->
  cover vis (syncIdBytes id) = if inSpan s e id then 1%nat else 0%nat.
Proof.
  intros Hc Hid.
  rewrite (Hc (syncIdBytes id)) by (now apply in_map).
  rewrite inWindow_inSpan by auto.
  destruct (inSpan s e id) eqn:W; [|now rewrite andb_false_r].
  rewrite <- (inWindow_inSpan id s_representable e_representable
                (ids_representable id Hid)) in W.
  now rewrite (inWindow_common _ _ _ W).
Qed.

Lemma span_visited_once (vis : list TrieNodeMetadataResponse) (calls : list Buffer) :
  Good keys (timePrefix s) (timePrefix e) c vis calls ->
  Covers keys (timePrefix s) (timePrefix e) c vis ->
  NoDup (map prefix vis).
Proof.
  intros (Hv & _ & _ & _) Hc. apply (cover_NoDup keys).
  - intros k Hk. rewrite (Hc k Hk).
    destruct (prefixOf c k && inWindow (timePrefix s) (timePrefix e) k); lia.
  - intros n Hn. apply (Hv n Hn).
Qed.

(** Without a node for the common prefix the span holds no message. *)
Lemma span_empty_without_root :
  trieExists keys c = false -> messagesInSpan ids s e = [].
Proof.
  intros Hex. unfold messagesInSpan.
  destruct (filter (inSpan s e) ids) as [|id l] eqn:F; [reflexivity|].
  assert (Hin : In id (filter (inSpan s e) ids)) by (rewrite F; now left).
  apply filter_In in Hin as [Hid W].
  rewrite <- (inWindow_inSpan id s_representable e_representable
                (ids_representable id Hid)) in W.
  apply inWindow_common in W.
  assert (P : (0 < countUnder keys c)%nat)
    by (apply countUnder_pos with (k := syncIdBytes id);
        [now apply in_map | assumption]).
  unfold trieExists in Hex. destruct c; [discriminate|].
  apply Nat.ltb_ge in Hex. lia.
Qed.

End SpanOverTrie.

(* ================================================================= *)
(** ** The span counter on a trie *)

Lemma staticWorld_serves (store : string -> list SyncId) (c : HubRpcClient) :
  servesTrie (staticWorld store) c (map syncIdBytes (store (clientAddress c))).
Proof. intros t p. reflexivity. Qed.

(** C1 (as amended). On a hub that serves the trie of its messages, and for
    a window whose start is not after its stop: when the trie has a node for
    the common prefix of the two boundary prefixes, the optimized counter
    returns the number of messages whose timestamp lies in the window; the
    traversal visits nodes of pairwise different prefixes, each message of
    the window lies below exactly one of them and every other message below
    none, and the counts of the visited nodes add up to the result. When the
    trie has no such node the counter fails as unavailable, and the window
    then holds no message. *)
Theorem getNumMessagesInSpanOptimized_counts_span
    (env : Env) (toFarcasterTime : number -> HubResult number)
    (client : HubRpcClient) (ids : list SyncId)
    (startTime stopTime : number) (s e : Z) (fuel : nat) (t : Trace) :
  servesTrie env client (map syncIdBytes ids) ->
  (forall id, In id ids -> representable (timestamp id)) ->
  toFarcasterTime startTime = ok (Int s) ->
  toFarcasterTime stopTime = ok (Int e) ->
  representable s -> representable e ->
  s <= e ->
  (TIMESTAMP_LENGTH < fuel)%nat ->
  let keys := map syncIdBytes ids in
  let R := RpcMetadataRetriever_getMetadata env (mkRpcMetadataRetriever client) in
  let c := getCommonPrefix (timePrefix s) (timePrefix e) in
  let run := getNumMessagesInSpanOptimized toFarcasterTime fuel R
               startTime stopTime t in
  (trieExists keys c = false ->
     (exists t', run = Some (err unavailable, t')) /\
     messagesInSpan ids s e = []) /\
  (trieExists keys c = true ->
     exists node vis calls t',
       run = Some (ok (Z.of_nat (List.length (messagesInSpan ids s e))), t') /\
       trieNode keys c = Some node /\
       Runs R (GetSyncMetadataByPrefix client) (timePrefix s) (timePrefix e)
         fuel node vis calls /\
       NoDup (map prefix vis) /\
       (forall id, In id ids ->
          cover vis (syncIdBytes id) = if inSpan s e id then 1%nat else 0%nat) /\
       visitAll (fun node count => count + numMessages node) vis 0
       = Z.of_nat (List.length (messagesInSpan ids s e))).
Proof.
  intros Hserve Hids Hs He Rs Re Hle Hfuel keys R c run. split.
  - intros Hex. split.
    + eexists. unfold run, R.
      exact (span_unavailable ids Hserve toFarcasterTime startTime stopTime
               Hs He fuel t Hex).
    + exact (span_empty_without_root ids Hids Rs Re Hex).
  - intros Hex.
    destruct (span_run ids Hserve Hids Rs Re toFarcasterTime startTime stopTime
                Hs He t Hfuel Hex) as (node & vis & rest & N & E & HR & HG & HC).
    specialize (HC Hle).
    pose proof (span_sum ids Hids Rs Re HG HC) as S.
    exists node, vis, (c :: rest). eexists.
    split; [|split; [exact N | split; [exact HR | split; [|split]]]].
    + unfold run, R. rewrite E. now rewrite S.
    + exact (span_visited_once ids s e HG HC).
    + intros id Hid. exact (span_cover ids Hids Rs Re id HC Hid).
    + exact S.
Qed.

(** C7 (as amended). In one run of the optimized counter on such a hub,
    whichever way round the window is, the common prefix is queried twice
    when its node exists, once by [getPrefixInfo] and once more at the root
    of [traverseRange], and once when it does not; every other prefix is
    queried at most once. *)
Theorem getNumMessagesInSpanOptimized_queries
    (env : Env) (toFarcasterTime : number -> HubResult number)
    (client : HubRpcClient) (ids : list SyncId)
    (startTime stopTime : number) (s e : Z) (fuel : nat) (t : Trace) :
  servesTrie env client (map syncIdBytes ids) ->
  (forall id, In id ids -> representable (timestamp id)) ->
  toFarcasterTime startTime = ok (Int s) ->
  toFarcasterTime stopTime = ok (Int e) ->
  representable s -> representable e ->
  (TIMESTAMP_LENGTH < fuel)%nat ->
  let keys := map syncIdBytes ids in
  let R := RpcMetadataRetriever_getMetadata env (mkRpcMetadataRetriever client) in
  let c := getCommonPrefix (timePrefix s) (timePrefix e) in
  exists r queries,
    getNumMessagesInSpanOptimized toFarcasterTime fuel R
      startTime stopTime t
    = Some (r, t ++ map (GetSyncMetadataByPrefix client) queries) /\
    count_occ Buffer_eq_dec queries c
    = (if trieExists keys c then 2%nat else 1%nat) /\
    (forall p, p <> c -> (count_occ Buffer_eq_dec queries p <= 1)%nat).
Proof.
  intros Hserve Hids Hs He Rs Re Hfuel keys R c.
  destruct (trieExists keys c) eqn:Hex.
  - destruct (span_run ids Hserve Hids Rs Re toFarcasterTime startTime stopTime
                Hs He t Hfuel Hex) as (node & vis & rest & N & E & HR & HG & _).
    destruct HG as (_ & _ & _ & ND). inversion ND as [|? ? Hc NDr]; subst.
    exists (ok (visitAll (fun node count => count + numMessages node) vis 0)),
      (c :: c :: rest).
    split; [exact E | split].
    + rewrite !count_occ_cons_eq by reflexivity.
      now rewrite (proj1 (count_occ_not_In Buffer_eq_dec rest c) Hc).
    + intros p Hp. rewrite !count_occ_cons_neq by congruence.
      now apply NoDup_count_occ.
  - exists (err unavailable), [c]. split; [|split].
    + exact (span_unavailable ids Hserve toFarcasterTime startTime stopTime
               Hs He fuel t Hex).
    + now rewrite count_occ_cons_eq.
    + intros p Hp. rewrite count_occ_cons_neq by congruence. simpl. lia.
Qed.

Lemma representable_small (t : Z) : 0 <= t < 1000 -> representable t.
Proof. unfold representable, TIMESTAMP_LENGTH. simpl. lia. Qed.

Lemma scenario_representable (address : string) (id : SyncId) :
  In id (scenarioStore address) -> representable (timestamp id).
Proof.
  unfold scenarioStore. destruct (String.eqb address "primary"); simpl;
    intros H; repeat (destruct H as [<- | H]; [apply representable_small; simpl; lia|]);
    contradiction.
Qed.

Lemma getNumMessagesInSpanOptimized_counts_span_witness :
  exists t', scenarioCount 0 10 [] = Some (ok 5, t').
Proof.
  destruct (@getNumMessagesInSpanOptimized_counts_span
              (staticWorld scenarioStore) toFarcasterTimeModel primaryClient
              (scenarioStore "primary") (instant 0) (instant 10) 0 10
              (S TIMESTAMP_LENGTH) []
              (staticWorld_serves scenarioStore primaryClient)
              (scenario_representable "primary")
              eq_refl eq_refl
              (@representable_small 0 ltac:(lia)) (@representable_small 10 ltac:(lia))
              ltac:(lia) (Nat.lt_succ_diag_r TIMESTAMP_LENGTH)) as [_ H].
  destruct (H eq_refl) as (node & vis & calls & t' & E & _).
  exists t'. exact E.
Defined.

(** C1, as stated, fails twice. With the window turned round, from second
    7 back to second 2, no timestamp lies in it, yet the counter returns the
    two messages of second 7. And between seconds 20 and 29 the trie has no
    node for the common prefix: the counter returns an error, not the sum
    zero. *)
Lemma getNumMessagesInSpanOptimized_counterexample :
  (option_map fst (scenarioCount 7 2 []) = Some (ok 2) /\
   List.length (messagesInSpan (scenarioStore "primary") 7 2) = 0%nat) /\
  (option_map fst (scenarioCount 20 29 []) = Some (err unavailable) /\
   List.length (messagesInSpan (scenarioStore "primary") 20 29) = 0%nat).
Proof. repeat split; vm_compute; reflexivity. Qed.

Lemma getNumMessagesInSpanOptimized_queries_witness :
  exists r queries,
    scenarioCount 0 10 []
    = Some (r, [] ++ map (GetSyncMetadataByPrefix primaryClient) queries) /\
    count_occ Buffer_eq_dec queries (getCommonPrefix (timePrefix 0) (timePrefix 10))
    = 2%nat /\
    (forall p, p <> getCommonPrefix (timePrefix 0) (timePrefix 10) ->
               (count_occ Buffer_eq_dec queries p <= 1)%nat).
Proof.
  exact (@getNumMessagesInSpanOptimized_queries
           (staticWorld scenarioStore) toFarcasterTimeModel primaryClient
           (scenarioStore "primary") (instant 0) (instant 10) 0 10
           (S TIMESTAMP_LENGTH) []
           (staticWorld_serves scenarioStore primaryClient)
           (scenario_representable "primary")
           eq_refl eq_refl
           (@representable_small 0 ltac:(lia)) (@representable_small 10 ltac:(lia))
           (Nat.lt_succ_diag_r TIMESTAMP_LENGTH)).
Defined.

(** C7, as stated, fails: in the run over seconds 0 to 10 the common
    prefix, eight zeros, is queried twice. *)
Lemma getNumMessagesInSpanOptimized_queries_counterexample :
  option_map (fun rt => count_occ Buffer_eq_dec (metadataQueries (snd rt))
                          (getCommonPrefix (timePrefix 0) (timePrefix 10)))
             (scenarioCount 0 10 [])
  = Some 2%nat /\
  getCommonPrefix (timePrefix 0) (timePrefix 10) = Buffer_from "00000000".
Proof. split; vm_compute; reflexivity. Qed.

Lemma getTimePrefix_order_preserving_witness :
  getTimePrefix toFarcasterTimeModel (instant 2) = ok (timePrefix 2) /\
  getTimePrefix toFarcasterTimeModel (instant 7) = ok (timePrefix 7) /\
  (Buffer_compare (timePrefix 2) (timePrefix 7) = -1 <-> 2 < 7).
Proof.
  exact (@getTimePrefix_order_preserving toFarcasterTimeModel
           (instant 2) (instant 7) 2 7 eq_refl eq_refl
           (@representable_small 2 ltac:(lia)) (@representable_small 7 ltac:(lia))).
Defined.

(* ================================================================= *)
(** ** The identifier collector *)

Lemma collectSyncIds_loop (env : Env) (c : HubRpcClient) (prefixes : list Buffer) :
  forall (acc : list Buffer) (t : Trace),
    forEach prefixes
      (fun syncIds prefix =>
         prefixSyncIds <- getAllSyncIdsByPrefix env c prefix ;;
         match prefixSyncIds with
         | ok value => ret (syncIds ++ value)
         | err _ => ret syncIds
         end)
      acc t
    = Some (acc ++ idsOfFetches env c prefixes t,
            t ++ map (GetAllSyncIdsByPrefix c) prefixes).
Proof.
  induction prefixes as [|p ps IH]; intros acc t.
  - cbn. now rewrite !app_nil_r.
  - cbn [forEach idsOfFetches map].
    unfold bind at 1. unfold getAllSyncIdsByPrefix at 1. unfold call, bind.
    destruct (syncIdsByPrefix env t c p) as [value | e]; cbn [ret];
      rewrite IH, <- !app_assoc; reflexivity.
Qed.

Lemma collectSyncIds_run (env : Env) (c : HubRpcClient) (prefixes : list Buffer)
    (t : Trace) :
  collectSyncIds env c prefixes t
  = Some (idsOfFetches env c prefixes t,
          t ++ map (GetAllSyncIdsByPrefix c) prefixes).
Proof. unfold collectSyncIds. now rewrite collectSyncIds_loop. Qed.

(** The collector, run: it fails only when [getPrefixInfo] fails or when
    [traverseRange] returns an error; otherwise every recorded prefix is
    fetched, and the fetches that succeed make up the result. *)
Lemma computeSyncIdsInSpan_run
    (env : Env) (toFarcasterTime : number -> HubResult number) (fuel : nat)
    (client : HubRpcClient) (startTime stopTime : number) (t : Trace) :
  let retriever := RpcMetadataRetriever_getMetadata env (mkRpcMetadataRetriever client) in
  computeSyncIdsInSpan env toFarcasterTime fuel (mkRpcMetadataRetriever client)
    startTime stopTime t
  = match getPrefixInfo toFarcasterTime retriever startTime stopTime t with
    | None => None
    | Some (err e, t1) => Some (err e, t1)
    | Some (ok info, t1) =>
        match traverseRange fuel (commonPrefixMetadata info)
                (startTimePrefix info) (stopTimePrefix info) retriever
                (fun node prefixes => prefixes ++ [prefix node]) [] t1 with
        | None => None
        | Some ((err e, _), t2) => Some (err e, t2)
        | Some ((ok _, prefixes), t2) =>
            Some (ok (idsOfFetches env client prefixes t2),
                  t2 ++ map (GetAllSyncIdsByPrefix client) prefixes)
        end
    end.
Proof.
  intros retriever. unfold computeSyncIdsInSpan. fold retriever.
  unfold bind at 1.
  destruct (getPrefixInfo toFarcasterTime retriever startTime stopTime t)
    as [[[info | e] t1]|]; [|reflexivity|reflexivity].
  unfold bind at 1.
  destruct (traverseRange fuel (commonPrefixMetadata info) (startTimePrefix info)
              (stopTimePrefix info) retriever
              (fun node prefixes => prefixes ++ [prefix node]) [] t1)
    as [[[[u | e] prefixes] t2]|]; [|reflexivity|reflexivity].
  cbn [_rpcClient]. unfold bind. now rewrite collectSyncIds_run.
Qed.

(** C5, as stated, fails: the fetch for the node of second 7 is issued and
    fails, and the collector still returns successfully, with the three
    identifiers of second 2 only, although the window holds five. *)
Lemma computeSyncIdsInSpan_counterexample :
  let run := computeSyncIdsInSpan forgetfulWorld toFarcasterTimeModel
               (S TIMESTAMP_LENGTH) (mkRpcMetadataRetriever primaryClient)
               (instant 0) (instant 10) [] in
  option_map fst run
  = Some (ok (map syncIdBytes [mkSyncId 2 [x01]; mkSyncId 2 [x02]; mkSyncId 2 [x03]])) /\
  option_map (fun rt => existsb (fun ev =>
                match ev with
                | GetAllSyncIdsByPrefix _ p => Buffer_compare p (timePrefix 7) =? 0
                | _ => false
                end) (snd rt)) run = Some true /\
  List.length (messagesInSpan (scenarioStore "primary") 0 10) = 5%nat.
Proof. repeat split; vm_compute; reflexivity. Qed.

(** A window the wrong way round: the collector returns the two
    identifiers of the start second, although no timestamp lies between
    7 and 2. *)
Example computeSyncIdsInSpan_inverted_window :
  option_map fst
    (computeSyncIdsInSpan (staticWorld scenarioStore) toFarcasterTimeModel
       (S TIMESTAMP_LENGTH) (mkRpcMetadataRetriever primaryClient)
       (instant 7) (instant 2) [])
  = Some (ok (map syncIdBytes [mkSyncId 7 [x01]; mkSyncId 7 [x02]])) /\
  messagesInSpan (scenarioStore "primary") 7 2 = [].
Proof. split; vm_compute; reflexivity. Qed.

(* ----------------------------------------------------------------- *)
(** *** The collector on a hub that answers every fetch *)

Lemma idsOfFetches_listed (env : Env) (c : HubRpcClient) (keys : list Buffer)
    (prefixes : list Buffer) :
  listsTrie env c keys ->
  forall t, idsOfFetches env c prefixes t
            = flat_map (fun p => filter (prefixOf p) keys) prefixes.
Proof.
  intros H. induction prefixes as [|p ps IH]; intros t; [reflexivity|].
  cbn [idsOfFetches flat_map]. now rewrite H, IH.
Qed.

Lemma visitAll_prefixes (vis : list TrieNodeMetadataResponse) (acc : list Buffer) :
  visitAll (fun node prefixes => prefixes ++ [prefix node]) vis acc
  = acc ++ map prefix vis.
Proof.
  unfold visitAll. revert acc. induction vis as [|n vis IH]; intros acc.
  - simpl. now rewrite app_nil_r.
  - cbn [fold_left map]. rewrite IH, <- app_assoc. reflexivity.
Qed.

Lemma count_occ_filter (f : Buffer -> bool) (l : list Buffer) (x : Buffer) :
  count_occ Buffer_eq_dec (filter f l) x
  = if f x then count_occ Buffer_eq_dec l x else 0%nat.
Proof.
  induction l as [|y l IH]; [now destruct (f x)|].
  cbn [filter]. destruct (f y) eqn:Fy.
  - cbn [count_occ]. destruct (Buffer_eq_dec y x) as [->|N].
    + rewrite IH, Fy. reflexivity.
    + rewrite IH. reflexivity.
  - rewrite IH. cbn [count_occ].
    destruct (Buffer_eq_dec y x) as [->|N]; [now rewrite Fy | reflexivity].
Qed.

Lemma count_occ_fetched (keys : list Buffer) (vis : list TrieNodeMetadataResponse)
    (k : Buffer) :
  count_occ Buffer_eq_dec
    (flat_map (fun p => filter (prefixOf p) keys) (map prefix vis)) k
  = (cover vis k * count_occ Buffer_eq_dec keys k)%nat.
Proof.
  induction vis as [|n vis IH]; [reflexivity|].
  cbn [map flat_map]. rewrite count_occ_app, IH, count_occ_filter.
  unfold cover. cbn [filter].
  destruct (prefixOf (prefix n) k); cbn [List.length]; lia.
Qed.

(** On a hub that serves and lists the trie of its messages, and for a
    window whose start is not after its stop and whose common prefix has a
    node, the collector returns the identifiers of the messages of the
    window, each as often as the hub holds it. *)
Lemma computeSyncIdsInSpan_complete
    (env : Env) (toFarcasterTime : number -> HubResult number)
    (client : HubRpcClient) (ids : list SyncId)
    (startTime stopTime : number) (s e : Z) (fuel : nat) (t : Trace) :
  servesTrie env client (map syncIdBytes ids) ->
  listsTrie env client (map syncIdBytes ids) ->
  (forall id, In id ids -> representable (timestamp id)) ->
  toFarcasterTime startTime = ok (Int s) ->
  toFarcasterTime stopTime = ok (Int e) ->
  representable s -> representable e ->
  s <= e ->
  (TIMESTAMP_LENGTH < fuel)%nat ->
  trieExists (map syncIdBytes ids) (getCommonPrefix (timePrefix s) (timePrefix e)) = true ->
  exists result t',
    computeSyncIdsInSpan env toFarcasterTime fuel
      (mkRpcMetadataRetriever client) startTime stopTime t
    = Some (ok result, t') /\
    Permutation result (map syncIdBytes (messagesInSpan ids s e)).
Proof.
  intros Hserve Hlist Hids Hs He Rs Re Hle Hfuel Hex.
  destruct (span_run ids Hserve Hids Rs Re toFarcasterTime startTime stopTime
              Hs He t Hfuel Hex) as (node & vis & rest & N & _ & HR & HG & HC).
  specialize (HC Hle).
  rewrite computeSyncIdsInSpan_run.
  rewrite (getPrefixInfo_trie ids Hserve toFarcasterTime startTime stopTime Hs He t), N.
  cbn [commonPrefixMetadata startTimePrefix stopTimePrefix].
  rewrite (HR _ (fun node prefixes => prefixes ++ [prefix node]) [] _).
  rewrite visitAll_prefixes. cbn [app].
  eexists. eexists. split; [reflexivity|].
  rewrite (idsOfFetches_listed _ Hlist).
  apply (Permutation_count_occ Buffer_eq_dec). intros k.
  rewrite count_occ_fetched.
  assert (F : map syncIdBytes (messagesInSpan ids s e)
              = filter (inWindow (timePrefix s) (timePrefix e)) (map syncIdBytes ids)).
  { unfold messagesInSpan. rewrite filter_map_swap. f_equal.
    apply filter_ext_in. intros id Hid. symmetry. apply inWindow_inSpan; auto. }
  rewrite F, count_occ_filter.
  destruct (in_dec Buffer_eq_dec k (map syncIdBytes ids)) as [Hk | Hk].
  - rewrite (HC k Hk).
    destruct (inWindow (timePrefix s) (timePrefix e) k) eqn:W.
    + rewrite (inWindow_common _ _ _ W). simpl. lia.
    + rewrite andb_false_r. reflexivity.
  - rewrite (proj1 (count_occ_not_In Buffer_eq_dec _ k) Hk).
    destruct (inWindow (timePrefix s) (timePrefix e) k); lia.
Qed.

(** C5 (as amended). The collector fails only when [getPrefixInfo] fails or
    when [traverseRange] returns an error. Otherwise it issues one
    fetch-by-prefix for every prefix the traversal recorded, in the order of
    the visits, and returns the identifiers of the fetches that succeeded,
    in that order: a fetch that fails adds nothing and does not fail the
    collector. On a hub that serves and lists the trie of its messages every
    fetch succeeds; for a window whose start is not after its stop and whose
    common prefix has a node in the trie, the result is then the complete
    collection of the identifiers of the window. *)
Theorem computeSyncIdsInSpan_skips_failed_fetches
    (env : Env) (toFarcasterTime : number -> HubResult number) (fuel : nat)
    (client : HubRpcClient) (startTime stopTime : number) (t : Trace) :
  let retriever := RpcMetadataRetriever_getMetadata env (mkRpcMetadataRetriever client) in
  computeSyncIdsInSpan env toFarcasterTime fuel (mkRpcMetadataRetriever client)
    startTime stopTime t
  = match getPrefixInfo toFarcasterTime retriever startTime stopTime t with
    | None => None
    | Some (err e, t1) => Some (err e, t1)
    | Some (ok info, t1) =>
        match traverseRange fuel (commonPrefixMetadata info)
                (startTimePrefix info) (stopTimePrefix info) retriever
                (fun node prefixes => prefixes ++ [prefix node]) [] t1 with
        | None => None
        | Some ((err e, _), t2) => Some (err e, t2)
        | Some ((ok _, prefixes), t2) =>
            Some (ok (idsOfFetches env client prefixes t2),
                  t2 ++ map (GetAllSyncIdsByPrefix client) prefixes)
        end
    end /\
  (forall (ids : list SyncId) (s e : Z),
     servesTrie env client (map syncIdBytes ids) ->
     listsTrie env client (map syncIdBytes ids) ->
     (forall id, In id ids -> representable (timestamp id)) ->
     toFarcasterTime startTime = ok (Int s) ->
     toFarcasterTime stopTime = ok (Int e) ->
     representable s -> representable e ->
     s <= e ->
     (TIMESTAMP_LENGTH < fuel)%nat ->
     trieExists (map syncIdBytes ids)
       (getCommonPrefix (timePrefix s) (timePrefix e)) = true ->
     exists result t',
       computeSyncIdsInSpan env toFarcasterTime fuel
         (mkRpcMetadataRetriever client) startTime stopTime t
       = Some (ok result, t') /\
       Permutation result (map syncIdBytes (messagesInSpan ids s e))).
Proof.
  intros retriever. split.
  - apply computeSyncIdsInSpan_run.
  - intros ids s e. apply computeSyncIdsInSpan_complete.
Qed.

(* ================================================================= *)
(** ** The transfer step *)

Lemma submissionOutcomes_length (env : Env) (c : HubRpcClient)
    (messages : list Message) (t : Trace) :
  List.length (submissionOutcomes env c messages t) = List.length messages.
Proof.
  revert t. induction messages as [|m ms IH]; intros t; [reflexivity|].
  simpl. now rewrite IH.
Qed.

Lemma submit_loop (env : Env) (c : HubRpcClient) (messages : list Message) :
  forall (acc : list (HubResult Message)) (t : Trace),
    forEach messages
      (fun results message =>
         result <- submitMessage env c message ;; ret (results ++ [result]))
      acc t
    = Some (acc ++ submissionOutcomes env c messages t,
            t ++ map (SubmitMessage c) messages).
Proof.
  induction messages as [|m ms IH]; intros acc t.
  - cbn. now rewrite !app_nil_r.
  - cbn [forEach submissionOutcomes map].
    unfold bind at 1. unfold submitMessage at 1. unfold call, bind. cbn [ret].
    rewrite IH, <- !app_assoc. reflexivity.
Qed.

(** C6 (as amended). An empty missing set gives an empty outcome list and
    no call. For a non-empty one the payloads are fetched with one call;
    when that call fails, the step returns its error and submits nothing;
    otherwise every message the call returned is submitted, in order and
    whatever the outcome of the submissions before it, and the step returns
    exactly one outcome per returned message. *)
Theorem tryPushingMissingMessages_outcomes
    (env : Env) (withMessages missingMessages : HubRpcClient)
    (missingSyncIds : list Buffer) (t : Trace) :
  let run := tryPushingMissingMessages env
               (mkRpcMetadataRetriever withMessages)
               (mkRpcMetadataRetriever missingMessages) missingSyncIds t in
  let fetch := GetAllMessagesBySyncIds withMessages missingSyncIds in
  match missingSyncIds with
  | [] => run = Some (ok [], t)
  | _ :: _ =>
      match messagesBySyncIds env t withMessages missingSyncIds with
      | err e => run = Some (err e, t ++ [fetch])
      | ok messages =>
          exists outcomes,
            run = Some (ok outcomes,
                        (t ++ [fetch]) ++ map (SubmitMessage missingMessages) messages) /\
            outcomes = submissionOutcomes env missingMessages messages (t ++ [fetch]) /\
            List.length outcomes = List.length messages
      end
  end.
Proof.
  intros run fetch. subst run. unfold tryPushingMissingMessages.
  destruct missingSyncIds as [|i l]; [reflexivity|].
  cbn [List.length Nat.eqb _rpcClient].
  assert (E : getAllMessagesBySyncIds env withMessages (i :: l) t
              = Some (messagesBySyncIds env t withMessages (i :: l), t ++ [fetch]))
    by reflexivity.
  rewrite (bind_Some _ E).
  destruct (messagesBySyncIds env t withMessages (i :: l)) as [messages | e];
    [|reflexivity].
  exists (submissionOutcomes env missingMessages messages (t ++ [fetch])).
  split; [|split; [reflexivity | apply submissionOutcomes_length]].
  now rewrite (bind_Some _ (submit_loop env missingMessages messages [] (t ++ [fetch]))).
Qed.

(** C6, as stated, fails twice. Asked for two identifiers of which the
    primary holds one, the step records one outcome, not two. And when the
    fetch of the payloads fails, the step records no outcome for the two
    identifiers and returns the error. *)
Lemma tryPushingMissingMessages_counterexample :
  let missing := [syncIdBytes (mkSyncId 7 [x01]); syncIdBytes (mkSyncId 9 [x01])] in
  option_map fst
    (tryPushingMissingMessages (staticWorld scenarioStore)
       (mkRpcMetadataRetriever primaryClient) (mkRpcMetadataRetriever peerClient)
       missing [])
  = Some (ok [ok (messageOf (mkSyncId 7 [x01]))]) /\
  option_map fst
    (tryPushingMissingMessages mutePrimaryWorld
       (mkRpcMetadataRetriever primaryClient) (mkRpcMetadataRetriever peerClient)
       missing [])
  = Some (err (mkHubError "unavailable" "deadline exceeded")) /\
  List.length missing = 2%nat.
Proof. repeat split; vm_compute; reflexivity. Qed.

(* ================================================================= *)
(** ** The session driver *)

(** The scenario of the spec: five messages against three, a difference of
    two, two messages pushed to the peer, one record appended. *)
Example session_scenario :
  option_map (fun r => (fst r, filter isAppendFile (snd r)))
             (session "00:00:00" "00:00:10" [])
  = Some (Returned,
          [AppendFile "out.log"
             [("startTime", JDate 1609459200000);
              ("stopTime", JDate 1609459210000);
              ("primary", JString "primary"); ("peer", JString "peer");
              ("primaryMessageCount", JNumber 5 1);
              ("peerMessageCount", JNumber 3 1);
              ("diff", JNumber 2 1); ("diffPercentage", JNumber 2 5);
              ("numSuccessToPeer", JNumber 2 1);
              ("numErrorToPeer", JNumber 0 1);
              ("successTypesToPeer", JArray [JNull]);
              ("errorMessagesToPeer", JArray []);
              ("numSuccessToPrimary", JNumber 0 1);
              ("numErrorToPrimary", JNumber 0 1);
              ("successTypesToPrimary", JArray []);
              ("errorMessagesToPrimary", JArray [])]%string]).
Proof. vm_compute. reflexivity. Qed.

(* ----------------------------------------------------------------- *)
(** *** The gate on the two times of day *)

(** When either time of day has no three non-empty parts, nothing is
    attempted. *)
Lemma printSyncHealth_gate (env : Env) (toFarcasterTime : number -> HubResult number)
    (fuel : nat) (clock : LocalClock) (startTimeOfDay stopTimeOfDay : string)
    (maxNumPeers : number) (primaryNode outfile : string) (t : Trace) :
  parseTime clock startTimeOfDay = None \/ parseTime clock stopTimeOfDay = None ->
  printSyncHealth env toFarcasterTime fuel clock startTimeOfDay stopTimeOfDay
    maxNumPeers primaryNode outfile t
  = Some (Returned, t).
Proof.
  unfold printSyncHealth. intros [-> | ->]; [reflexivity|].
  now destruct (parseTime clock startTimeOfDay).
Qed.

(** The gate lets through whatever has three non-empty parts, numbers or
    not. *)
Lemma parseTime_not_a_number (clock : LocalClock) :
  parseTime clock "aa:bb:cc" = Some NaN.
Proof. reflexivity. Qed.

(** C9 fails on the code. The start time [aa:bb:cc] is not a time of day,
    yet [parseTime] returns [NaN] for it, not [undefined]: the run is not
    stopped, it connects to the primary, selects the peer, connects to it,
    queries both hubs and appends a record to the log. *)
Theorem printSyncHealth_unparseable_time_not_fatal :
  parseTime epochDay "aa:bb:cc" = Some NaN /\
  option_map (fun r => firstn 6 (snd r)) (session "aa:bb:cc" "00:00:10" [])
  = Some [CreateClient primaryClient; WaitForReady primaryClient;
          GetCurrentPeers primaryClient;
          CreateClient peerClient; WaitForReady peerClient;
          GetSyncMetadataByPrefix primaryClient (Buffer_from "0000000")] /\
  option_map (fun r => List.length (filter isAppendFile (snd r)))
             (session "aa:bb:cc" "00:00:10" [])
  = Some 1%nat.
Proof. repeat split; vm_compute; reflexivity. Qed.

(* ----------------------------------------------------------------- *)
(** *** The connection step *)

(** C4 (as amended). The connection step of a peer's pass creates an
    insecure client first. It creates a secure one in that step only when
    creating the insecure client, or registering the wait for its
    readiness, raises; and the readiness callback creates a secure one
    exactly when it is handed an error. *)
Theorem connectPeer_insecure_first (env : Env) (peer : string) (t : Trace) :
  let insecure := mkHubRpcClient Insecure peer in
  let secure := mkHubRpcClient SSL peer in
  (exists connection rest,
     connectPeer env peer t
     = Some (connection, t ++ CreateClient insecure :: rest) /\
     (In (CreateClient secure) rest <->
      createRaises env t insecure = true \/
      (createRaises env t insecure = false /\
       waitRaises env (t ++ [CreateClient insecure]) insecure = true))) /\
  (forall (readyErr : option HubError) (current : HubRpcClient) (t' : Trace),
     exists after rest,
       onPeerReady env peer readyErr current t' = Some (after, t' ++ rest) /\
       (In (CreateClient secure) rest <-> readyErr <> None)).
Proof.
  intros insecure secure. split.
  - unfold connectPeer, getInsecureHubRpcClient, getSSLHubRpcClient, createClient,
      waitForReady, call, bind, ret. fold insecure secure.
    destruct (createRaises env t insecure) eqn:C.
    + eexists. exists [CreateClient secure].
      split; [rewrite <- app_assoc; reflexivity|].
      split; [intros _; now left | intros _; now left].
    + destruct (waitRaises env (t ++ [CreateClient insecure]) insecure) eqn:W.
      * eexists. exists [WaitForReady insecure; CreateClient secure].
        split; [rewrite <- !app_assoc; reflexivity|].
        split; [intros _; right; now split | intros _; right; now left].
      * eexists. exists [WaitForReady insecure].
        split; [rewrite <- !app_assoc; reflexivity|].
        split.
        -- intros [H | []]. discriminate H.
        -- intros [H | [_ H]]; discriminate H.
  - intros readyErr current t'.
    unfold onPeerReady, getSSLHubRpcClient, createClient, call, bind, ret.
    fold secure. destruct readyErr as [e|].
    + eexists. exists [CreateClient secure]. split; [reflexivity|].
      split; [intros _; discriminate | intros _; now left].
    + eexists. exists []. split; [now rewrite app_nil_r|].
      split; [intros [] | intros H; now contradiction H].
Qed.

(** C4, as stated, fails: for the peer of the scenario, whose clients are
    created without trouble and become ready, the one client created for
    the peer in the connection step, and in the whole session, is the
    insecure one; no secure connection to the peer is attempted. *)
Lemma connectPeer_counterexample :
  connectPeer sessionWorld "peer" []
  = Some (Some (peerClient, None), [CreateClient peerClient; WaitForReady peerClient]) /\
  clientTransport peerClient = Insecure /\
  option_map (fun r => filter isCreateClient (snd r))
             (session "00:00:00" "00:00:10" [])
  = Some [CreateClient primaryClient; CreateClient peerClient].
Proof. repeat split; vm_compute; reflexivity. Qed.

(** Whatever [toFarcasterTime] makes of [NaN]: when it rejects it, the run
    with the start time [aa:bb:cc] still connects to the primary, selects
    the peer and connects to it, before the measurement fails. *)
Lemma printSyncHealth_unparseable_time_rejected
    (toFarcasterTime : number -> HubResult number) (e : HubError) (fuel : nat) :
  toFarcasterTime NaN = err e ->
  printSyncHealth sessionWorld toFarcasterTime fuel epochDay
    "aa:bb:cc" "00:00:10" (Int 1) "primary" "out.log" []
  = Some (Returned,
          [CreateClient primaryClient; WaitForReady primaryClient;
           GetCurrentPeers primaryClient;
           CreateClient peerClient; WaitForReady peerClient;
           CloseClient peerClient; CloseClient primaryClient]).
Proof.
  intros H.
  unfold printSyncHealth. rewrite parseTime_not_a_number.
  change (parseTime epochDay "00:00:10") with (Some (Int 1609459210000)).
  unfold reconcilePeers, forEach, reconcilePeer, computeSyncHealthMessageStats,
    getNumMessagesInSpanOptimized, getPrefixInfo, getTimePrefix.
  rewrite H. reflexivity.
Qed.

(* ----------------------------------------------------------------- *)
(** *** A failure below the root *)

(** The recursive call of [traverseRange] is awaited and its result is not
    looked at: the failed fetch below the root is passed over, and the
    counter returns a sum, zero, that leaves out the five messages of the
    subtree. *)
Example traverseRange_passes_over_failure_below_root :
  option_map fst
    (getNumMessagesInSpanOptimized toFarcasterTimeModel (S TIMESTAMP_LENGTH)
       (RpcMetadataRetriever_getMetadata flakyWorld
          (mkRpcMetadataRetriever primaryClient))
       (instant 0) (instant 10) [])
  = Some (ok 0) /\
  List.length (messagesInSpan (scenarioStore "primary") 0 10) = 5%nat.
Proof. split; vm_compute; reflexivity. Qed.

(* ################################################################# *)
(** * Further properties *)

(* ================================================================= *)
(** ** The common prefix and the prefix test *)

Lemma prefixOf_getCommonPrefix (a b p : Buffer) :
  prefixOf p (getCommonPrefix a b) = prefixOf p a && prefixOf p b.
Proof.
  revert b p. induction a as [|x a IH]; intros b p.
  - cbn [getCommonPrefix]. destruct p; [reflexivity|]. reflexivity.
  - destruct b as [|y b].
    + cbn [getCommonPrefix]. destruct p; [reflexivity|].
      cbn [prefixOf]. now rewrite andb_false_r.
    + cbn [getCommonPrefix]. destruct (Byte.eqb x y) eqn:E.
      * apply byte_eqb_eq in E. subst y. destruct p as [|z p]; [reflexivity|].
        cbn [prefixOf]. rewrite IH.
        destruct (Byte.eqb z x); reflexivity.
      * destruct p as [|z p]; [reflexivity|]. cbn [prefixOf].
        destruct (Byte.eqb z x) eqn:Ezx; [|reflexivity].
        destruct (Byte.eqb z y) eqn:Ezy; [|now rewrite andb_false_r].
        apply byte_eqb_eq in Ezx, Ezy. subst.
        now rewrite byte_eqb_refl in E.
Qed.

(** X1. [getCommonPrefix] returns the longest common leading part of its
    two arguments: a buffer is a leading part of the result exactly when it
    is a leading part of both arguments; so the result is a leading part of
    both, and the order of the arguments does not matter. *)
Theorem getCommonPrefix_longest (a b : Buffer) :
  (forall p, prefixOf p (getCommonPrefix a b) = prefixOf p a && prefixOf p b) /\
  prefixOf (getCommonPrefix a b) a = true /\
  prefixOf (getCommonPrefix a b) b = true /\
  getCommonPrefix a b = getCommonPrefix b a.
Proof.
  split; [intros p; apply prefixOf_getCommonPrefix|].
  split; [apply getCommonPrefix_left|].
  split; [apply getCommonPrefix_right|].
  apply prefixOf_same_length.
  - rewrite prefixOf_getCommonPrefix.
    now rewrite getCommonPrefix_left, getCommonPrefix_right.
  - apply Nat.le_antisymm; apply prefixOf_length;
      rewrite prefixOf_getCommonPrefix;
      now rewrite getCommonPrefix_left, getCommonPrefix_right.
Qed.

(** X2. On a buffer of ASCII bytes, such as a time prefix,
    [isPrefix prefix1 prefix2] tells whether the second argument is a
    leading part of the first, byte for byte. *)
Theorem isPrefix_second_leads_first (prefix1 prefix2 : Buffer) :
  isAscii prefix1 ->
  (isPrefix prefix1 prefix2 = true <-> exists rest, prefix1 = prefix2 ++ rest).
Proof.
  intros H. rewrite (isPrefix_prefixOf prefix2 H). apply prefixOf_spec.
Qed.

Lemma isPrefix_second_leads_first_witness :
  isPrefix (timePrefix 27) (Buffer_from "00000000") = true
  <-> exists rest, timePrefix 27 = Buffer_from "00000000" ++ rest.
Proof.
  apply isPrefix_second_leads_first.
  apply timePrefix_ascii. apply representable_small. lia.
Defined.

(* ================================================================= *)
(** ** The summary of the outcomes *)

Lemma filter_isOk_isErr {A} (l : list (HubResult A)) :
  (List.length (filter isOk l) + List.length (filter isErr l))%nat = List.length l.
Proof.
  induction l as [|[v|e] l IH]; [reflexivity| |]; cbn; lia.
Qed.

(** X3. Each outcome of a direction is counted once in the summary: the
    number of successes and the number of errors add up to the number of
    outcomes. *)
Theorem Stats_successes_and_errors (s : Stats) (who : Who) :
  (List.length (successResults s who) + List.length (errorResults s who))%nat
  = List.length (results s who) /\
  (forall r, In r (successResults s who) <-> In r (results s who) /\ isOk r = true) /\
  (forall r, In r (errorResults s who) <-> In r (results s who) /\ isOk r = false).
Proof.
  split; [apply filter_isOk_isErr|]. split; intros r.
  - unfold successResults. apply filter_In.
  - unfold errorResults. rewrite filter_In. unfold isErr.
    now rewrite negb_true_iff.
Qed.

Section SetOfKeys.

Variables (A K : Type) (eqb : K -> K -> bool) (key : A -> option K).
Hypothesis eqb_spec : forall x y, eqb x y = true <-> x = y.

(** Collecting the keys of a list into a [Set], as the loops of
    [errorReasons] and [successTypes] do. *)
Local Abbreviation collect :=
  (fold_left (fun set x => match key x with
                           | Some k => Set_add eqb set k
                           | None => set
                           end)).

Lemma Set_add_In (set : list K) (k x : K) :
  In x (Set_add eqb set k) <-> In x set \/ x = k.
Proof.
  unfold Set_add. destruct (existsb (eqb k) set) eqn:E.
  - split; [now left|]. intros [H | ->]; [assumption|].
    apply existsb_exists in E as (y & Hy & Ey).
    apply eqb_spec in Ey. now subst.
  - rewrite in_app_iff. cbn. intuition.
Qed.

Lemma Set_add_NoDup (set : list K) (k : K) :
  NoDup set -> NoDup (Set_add eqb set k).
Proof.
  intros ND. unfold Set_add. destruct (existsb (eqb k) set) eqn:E; [assumption|].
  apply NoDup_app; [assumption | repeat constructor; intros [] |].
  intros x Hx [Ex | []]. subst x.
  assert (T : existsb (eqb k) set = true)
    by (apply existsb_exists; exists k; split; [assumption | now apply eqb_spec]).
  congruence.
Qed.

Lemma Set_add_length (set : list K) (k : K) :
  (List.length (Set_add eqb set k) <= S (List.length set))%nat.
Proof.
  unfold Set_add. destruct (existsb (eqb k) set); [lia|].
  rewrite length_app. cbn. lia.
Qed.

Lemma collect_spec (l : list A) :
  forall set : list K,
    NoDup set ->
    NoDup (collect l set) /\
    (forall k, In k (collect l set)
               <-> In k set \/ exists x, In x l /\ key x = Some k) /\
    (List.length (collect l set) <= List.length set + List.length l)%nat.
Proof.
  induction l as [|x l IH]; intros set ND.
  - cbn. split; [assumption|]. split; [|lia].
    intros k. split; [now left | intros [H | (x & [] & _)]; assumption].
  - cbn [fold_left].
    destruct (key x) as [k0|] eqn:Kx.
    + destruct (IH (Set_add eqb set k0) (Set_add_NoDup k0 ND)) as (N & I & L).
      split; [exact N|]. split.
      * intros k. rewrite I, Set_add_In. split.
        -- intros [[H | ->] | (y & Hy & Ky)].
           ++ now left.
           ++ right. exists x. split; [now left | assumption].
           ++ right. exists y. split; [now right | assumption].
        -- intros [H | (y & [<- | Hy] & Ky)].
           ++ left. now left.
           ++ left. right. congruence.
           ++ right. now exists y.
      * pose proof (Set_add_length set k0). cbn [List.length]. lia.
    + destruct (IH set ND) as (N & I & L).
      split; [exact N|]. split.
      * intros k. rewrite I. split.
        -- intros [H | (y & Hy & Ky)]; [now left|].
           right. exists y. split; [now right | assumption].
        -- intros [H | (y & [<- | Hy] & Ky)]; [now left | congruence |].
           right. now exists y.
      * cbn [List.length]. lia.
Qed.

End SetOfKeys.

Lemma fold_left_ext {A B} (f g : A -> B -> A) (l : list B) :
  (forall a x, f a x = g a x) -> forall a, fold_left f l a = fold_left g l a.
Proof.
  intros H. induction l as [|x l IH]; intros a; [reflexivity|].
  cbn. now rewrite H, IH.
Qed.

Lemma option_Z_eqb_spec (a b : option Z) : option_Z_eqb a b = true <-> a = b.
Proof.
  destruct a as [x|], b as [y|]; cbn; try (split; congruence).
  rewrite Z.eqb_eq. split; congruence.
Qed.

(** X4. [errorReasons] lists the messages of the errors of a direction,
    each message once however many outcomes carry it, and nothing else;
    there are no more reasons than errors. *)
Theorem errorReasons_distinct_messages (s : Stats) (who : Who) :
  NoDup (errorReasons s who) /\
  (forall reason, In reason (errorReasons s who)
                  <-> exists e, In (err e) (results s who) /\ message e = reason) /\
  (List.length (errorReasons s who) <= List.length (errorResults s who))%nat.
Proof.
  pose proof (@collect_spec (HubResult Message) string String.eqb
                (fun r => match r with err e => Some (message e) | ok _ => None end)
                String.eqb_eq (errorResults s who) [] (NoDup_nil _))
    as (N & I & L).
  assert (E : errorReasons s who
              = fold_left (fun set x =>
                             match match x with
                                   | err e => Some (message e)
                                   | ok _ => None
                                   end with
                             | Some k => Set_add String.eqb set k
                             | None => set
                             end) (errorResults s who) []).
  { unfold errorReasons. apply fold_left_ext. now intros set [m|e]. }
  rewrite E. split; [exact N|]. split; [|exact L].
  intros reason. rewrite I. split.
  - intros [[] | (r & Hr & Kr)]. destruct r as [m|e]; [discriminate|].
    exists e. split; [|congruence].
    unfold errorResults in Hr. now apply filter_In in Hr.
  - intros (e & He & <-). right. exists (err e). split; [|reflexivity].
    unfold errorResults. apply filter_In. now split.
Qed.

(** X5. [successTypes] lists the user-data types of the messages that were
    accepted in a direction, [undefined] for a message without a user-data
    body, each once, and nothing else. *)
Theorem successTypes_distinct_types (s : Stats) (who : Who) :
  NoDup (successTypes s who) /\
  (forall type, In type (successTypes s who)
                <-> exists m, In (ok m) (results s who) /\ userDataBodyType m = type) /\
  (List.length (successTypes s who) <= List.length (successResults s who))%nat.
Proof.
  pose proof (@collect_spec (HubResult Message) (option Z) option_Z_eqb
                (fun r => match r with ok m => Some (userDataBodyType m) | err _ => None end)
                option_Z_eqb_spec (successResults s who) [] (NoDup_nil _))
    as (N & I & L).
  assert (E : successTypes s who
              = fold_left (fun set x =>
                             match match x with
                                   | ok m => Some (userDataBodyType m)
                                   | err _ => None
                                   end with
                             | Some k => Set_add option_Z_eqb set k
                             | None => set
                             end) (successResults s who) []).
  { unfold successTypes. apply fold_left_ext. now intros set [m|e]. }
  rewrite E. split; [exact N|]. split; [|exact L].
  intros type. rewrite I. split.
  - intros [[] | (r & Hr & Kr)]. destruct r as [m|e]; [|discriminate].
    exists m. split; [|congruence].
    unfold successResults in Hr. now apply filter_In in Hr.
  - intros (m & Hm & <-). right. exists (ok m). split; [|reflexivity].
    unfold successResults. apply filter_In. now split.
Qed.

(* ================================================================= *)
(** ** The diff step, once more *)

(** X6. What [uniqueSyncIds] finds missing is all that is missing: once
    the other side holds it as well, nothing is left to find; looking again
    at what was found changes nothing; against an empty collection
    everything is missing, and an empty collection misses nothing. *)
Theorem uniqueSyncIds_repair_converges (mySyncIds otherSyncIds : list Buffer) :
  uniqueSyncIds mySyncIds (otherSyncIds ++ uniqueSyncIds mySyncIds otherSyncIds) = [] /\
  uniqueSyncIds (uniqueSyncIds mySyncIds otherSyncIds) otherSyncIds
  = uniqueSyncIds mySyncIds otherSyncIds /\
  uniqueSyncIds mySyncIds [] = mySyncIds /\
  uniqueSyncIds [] otherSyncIds = [] /\
  (List.length (uniqueSyncIds mySyncIds otherSyncIds) <= List.length mySyncIds)%nat.
Proof.
  split; [|split; [|split; [|split]]].
  - destruct (uniqueSyncIds mySyncIds (otherSyncIds ++ uniqueSyncIds mySyncIds otherSyncIds))
      as [|x l] eqn:E; [reflexivity|].
    assert (H : In x (x :: l)) by now left.
    rewrite <- E in H. apply In_uniqueSyncIds in H as [Hm Hn].
    exfalso. apply Hn. apply in_or_app.
    destruct (in_dec Buffer_eq_dec x otherSyncIds) as [Ho | Ho]; [now left|].
    right. apply In_uniqueSyncIds. now split.
  - rewrite !uniqueSyncIds_filter. rewrite <- uniqueSyncIds_filter at 1.
    rewrite uniqueSyncIds_filter.
    induction mySyncIds as [|x l IH]; [reflexivity|].
    cbn [filter]. destruct (negb (memBuffer x otherSyncIds)) eqn:M.
    + cbn [filter]. now rewrite M, IH.
    + exact IH.
  - rewrite uniqueSyncIds_filter. cbn.
    induction mySyncIds as [|x l IH]; [reflexivity|]. cbn. now rewrite IH.
  - reflexivity.
  - rewrite uniqueSyncIds_filter. apply filter_length_le.
Qed.

(* ================================================================= *)
(** ** The range traversal against any hub *)

Section AnyHub.

Variable env : Env.
Variable client : HubRpcClient.
Variables start stop : Buffer.
Local Abbreviation R :=
  (RpcMetadataRetriever_getMetadata env (mkRpcMetadataRetriever client)).
Local Abbreviation ev := (GetSyncMetadataByPrefix client).

(** A prefix on the way to a boundary: a leading part of the start or of
    the stop prefix that is not the start prefix itself. *)
Local Abbreviation onTheWay :=
  (fun q : Buffer =>
     (isPrefix start q || isPrefix stop q) = true /\ Buffer_compare q start <> 0).

Lemma traverseRange_queries {A : Type} (f : TrieNodeMetadataResponse -> A -> A)
    (fuel : nat) :
  forall (node : TrieNodeMetadataResponse) (acc : A) (t : Trace)
         (r : HubResult unit * A) (t' : Trace),
    traverseRange fuel node start stop R f acc t = Some (r, t') ->
    exists below,
      t' = t ++ map ev (prefix node :: below) /\ Forall onTheWay below.
Proof.
  induction fuel as [|fuel' IH]; intros node acc t r t' H; [discriminate|].
  rewrite traverseRange_S in H.
  unfold bind at 1 in H. cbn [getMetadata RpcMetadataRetriever_getMetadata] in H.
  unfold getSyncMetadataByPrefix, call in H. cbn [_rpcClient] in H.
  destruct (metadataByPrefix env t client (prefix node)) as [value | e].
  2:{ inversion H; subst. exists []. now split. }
  unfold bind in H.
  destruct (forEach (children value) (visitChild fuel' start stop R f) acc
              (t ++ [ev (prefix node)])) as [[acc' t1]|] eqn:L; [|discriminate].
  inversion H; subst; clear H.
  assert (G : forall (l : list TrieNodeMetadataResponse) (a : A) (u : Trace)
                     (a' : A) (u' : Trace),
             forEach l (visitChild fuel' start stop R f) a u = Some (a', u') ->
             exists below, u' = u ++ map ev below /\ Forall onTheWay below).
  { clear L. induction l as [|child l IHl]; intros a u a' u' H.
    - inversion H; subst. exists []. split; [now rewrite app_nil_r | constructor].
    - cbn [forEach] in H. unfold bind at 1 in H.
      destruct (visitChild fuel' start stop R f a child u) as [[a1 u1]|] eqn:V;
        [|discriminate].
      destruct (IHl _ _ _ _ H) as (below2 & -> & F2).
      unfold visitChild in V.
      destruct (Buffer_compare (prefix child) start =? 0) eqn:C.
      { inversion V; subst. now exists below2. }
      destruct (isPrefix start (prefix child) || isPrefix stop (prefix child)) eqn:P.
      2:{ destruct ((Buffer_compare (prefix child) start =? 1)
                    && (Buffer_compare (prefix child) stop =? -1));
          inversion V; subst; now exists below2. }
      unfold bind in V.
      destruct (traverseRange fuel' child start stop R f a u) as [[r1 u2]|] eqn:T;
        [|discriminate].
      inversion V; subst.
      destruct (IH _ _ _ _ _ T) as (below1 & -> & F1).
      exists ((prefix child :: below1) ++ below2). split.
      + now rewrite map_app, app_assoc.
      + apply Forall_app. split; [|assumption].
        constructor; [|assumption]. split; [assumption|].
        now apply Z.eqb_neq. }
  destruct (G _ _ _ _ _ L) as (below & -> & F).
  exists below. split; [|assumption].
  cbn [map]. now rewrite <- app_assoc.
Qed.

End AnyHub.

(** X7. Whatever the hub answers, a traversal that finishes has queried
    the node it was given and, besides, only prefixes on the way to a
    boundary: leading parts of the start or of the stop prefix, other than
    the start prefix itself. *)
Theorem traverseRange_descends_along_boundaries
    (env : Env) (client : HubRpcClient) (A : Type)
    (f : TrieNodeMetadataResponse -> A -> A) (fuel : nat)
    (node : TrieNodeMetadataResponse) (start stop : Buffer) (acc : A)
    (t : Trace) (r : HubResult unit * A) (t' : Trace) :
  traverseRange fuel node start stop
    (RpcMetadataRetriever_getMetadata env (mkRpcMetadataRetriever client)) f acc t
  = Some (r, t') ->
  exists below,
    t' = t ++ map (GetSyncMetadataByPrefix client) (prefix node :: below) /\
    Forall (fun q => (isPrefix start q || isPrefix stop q) = true /\
                     Buffer_compare q start <> 0) below.
Proof. apply traverseRange_queries. Qed.

Lemma traverseRange_descends_along_boundaries_witness :
  exists below,
    [GetSyncMetadataByPrefix primaryClient (Buffer_from "00000000");
     GetSyncMetadataByPrefix primaryClient (Buffer_from "000000000")]
    = [] ++ map (GetSyncMetadataByPrefix primaryClient)
              (Buffer_from "00000000" :: below) /\
    Forall (fun q => (isPrefix (timePrefix 0) q || isPrefix (timePrefix 10) q) = true /\
                     Buffer_compare q (timePrefix 0) <> 0) below.
Proof.
  eapply (@traverseRange_descends_along_boundaries
            (staticWorld scenarioStore) primaryClient Z
            (fun node count => count + numMessages node) (S TIMESTAMP_LENGTH)
            (mkTrieNodeMetadataResponse (Buffer_from "00000000") 5 [])
            (timePrefix 0) (timePrefix 10) 0 []).
  vm_compute. reflexivity.
Defined.

(** X8. When the fetch for the node it was given fails, [traverseRange]
    returns that error after this one query, and it has not called the
    visitor. When that fetch succeeds, a traversal that finishes returns
    [ok], whatever the fetches below have come to: it returns an error only
    for a failure at the node it was given. *)
Theorem traverseRange_fails_only_at_its_node
    (env : Env) (client : HubRpcClient) (A : Type)
    (f : TrieNodeMetadataResponse -> A -> A) (fuel : nat)
    (node : TrieNodeMetadataResponse) (start stop : Buffer) (acc : A) (t : Trace) :
  let R := RpcMetadataRetriever_getMetadata env (mkRpcMetadataRetriever client) in
  match metadataByPrefix env t client (prefix node) with
  | err e =>
      traverseRange (S fuel) node start stop R f acc t
      = Some ((err e, acc), t ++ [GetSyncMetadataByPrefix client (prefix node)])
  | ok _ =>
      forall r acc' t',
        traverseRange (S fuel) node start stop R f acc t = Some ((r, acc'), t') ->
        r = ok tt
  end.
Proof.
  intros R. rewrite traverseRange_S.
  assert (E : getMetadata R (prefix node) t
              = Some (metadataByPrefix env t client (prefix node),
                      t ++ [GetSyncMetadataByPrefix client (prefix node)]))
    by reflexivity.
  rewrite (bind_Some _ E).
  destruct (metadataByPrefix env t client (prefix node)) as [value | e];
    [|reflexivity].
  intros r acc' t' H. unfold bind in H.
  destruct (forEach _ _ _ _) as [[a u]|]; [|discriminate].
  now inversion H.
Qed.

(* ================================================================= *)
(** ** What the traversal visits, against any hub *)

Section AnyHubVisits.

Variable R : MetadataRetriever.
Variables start stop : Buffer.

(** A node of the window, as [traverseRange] tests it: the node of the
    start prefix, or a node off the way to either boundary that sorts
    after the start prefix and before the stop prefix. *)
Local Abbreviation ofTheWindow :=
  (fun n : TrieNodeMetadataResponse =>
     Buffer_compare (prefix n) start = 0 \/
     (isPrefix start (prefix n) = false /\ isPrefix stop (prefix n) = false /\
      Buffer_compare (prefix n) start = 1 /\ Buffer_compare (prefix n) stop = -1)).

Lemma traverseRange_visited {A : Type} (f : TrieNodeMetadataResponse -> A -> A)
    (fuel : nat) :
  forall (node : TrieNodeMetadataResponse) (acc : A) (t : Trace)
         (r : HubResult unit) (acc' : A) (t' : Trace),
    traverseRange fuel node start stop R f acc t = Some ((r, acc'), t') ->
    exists visited, acc' = visitAll f visited acc /\ Forall ofTheWindow visited.
Proof.
  induction fuel as [|fuel' IH]; intros node acc t r acc' t' H; [discriminate|].
  rewrite traverseRange_S in H. unfold bind at 1 in H.
  destruct (getMetadata R (prefix node) t) as [[[value | e] t1]|]; [| |discriminate].
  2:{ inversion H; subst. exists []. now split. }
  unfold bind in H.
  destruct (forEach (children value) (visitChild fuel' start stop R f) acc t1)
    as [[a u]|] eqn:L; [|discriminate].
  inversion H; subst; clear H.
  revert acc t1 L. induction (children value) as [|child l IHl]; intros acc t1 L.
  - inversion L; subst. exists []. now split.
  - cbn [forEach] in L. unfold bind at 1 in L.
    destruct (visitChild fuel' start stop R f acc child t1) as [[a1 u1]|] eqn:V;
      [|discriminate].
    destruct (IHl _ _ L) as (rest & -> & F).
    assert (S : exists v, a1 = visitAll f v acc /\ Forall ofTheWindow v).
    { unfold visitChild in V.
      destruct (Buffer_compare (prefix child) start =? 0) eqn:C0.
      - inversion V; subst. exists [child]. split; [reflexivity|].
        constructor; [|constructor]. left. now apply Z.eqb_eq.
      - destruct (isPrefix start (prefix child)) eqn:P1;
          [|destruct (isPrefix stop (prefix child)) eqn:P2].
        + cbn [orb] in V. unfold bind in V.
          destruct (traverseRange fuel' child start stop R f acc t1)
            as [[[r1 a2] u2]|] eqn:T; [|discriminate].
          inversion V; subst. exact (IH _ _ _ _ _ _ T).
        + cbn [orb] in V. unfold bind in V.
          destruct (traverseRange fuel' child start stop R f acc t1)
            as [[[r1 a2] u2]|] eqn:T; [|discriminate].
          inversion V; subst. exact (IH _ _ _ _ _ _ T).
        + cbn [orb] in V.
          destruct (Buffer_compare (prefix child) start =? 1) eqn:C1;
            [destruct (Buffer_compare (prefix child) stop =? -1) eqn:C2|];
            cbn [andb] in V; inversion V; subst.
          * exists [child]. split; [reflexivity|].
            constructor; [|constructor]. right.
            apply Z.eqb_eq in C1, C2. auto.
          * exists []. now split.
          * exists []. now split. }
    destruct S as (v & -> & Fv).
    exists (v ++ rest). split.
    + unfold visitAll. now rewrite fold_left_app.
    + apply Forall_app. now split.
Qed.

End AnyHubVisits.

(** X9. Whatever the hub answers and whatever the visitor does, a
    traversal that finishes has called the visitor only on nodes of the
    window as the code tests it: on a node whose prefix is the start prefix,
    or on a node that is on the way to neither boundary and whose prefix
    sorts after the start prefix and before the stop prefix. *)
Theorem traverseRange_visits_only_the_window
    (R : MetadataRetriever) (A : Type) (f : TrieNodeMetadataResponse -> A -> A)
    (fuel : nat) (node : TrieNodeMetadataResponse) (start stop : Buffer)
    (acc : A) (t : Trace) (r : HubResult unit) (acc' : A) (t' : Trace) :
  traverseRange fuel node start stop R f acc t = Some ((r, acc'), t') ->
  exists visited,
    acc' = visitAll f visited acc /\
    Forall (fun n =>
              Buffer_compare (prefix n) start = 0 \/
              (isPrefix start (prefix n) = false /\
               isPrefix stop (prefix n) = false /\
               Buffer_compare (prefix n) start = 1 /\
               Buffer_compare (prefix n) stop = -1))
           visited.
Proof. apply traverseRange_visited. Qed.

Lemma traverseRange_visits_only_the_window_witness :
  exists visited,
    5 = visitAll (fun node count => count + numMessages node) visited 0 /\
    Forall (fun n =>
              Buffer_compare (prefix n) (timePrefix 0) = 0 \/
              (isPrefix (timePrefix 0) (prefix n) = false /\
               isPrefix (timePrefix 10) (prefix n) = false /\
               Buffer_compare (prefix n) (timePrefix 0) = 1 /\
               Buffer_compare (prefix n) (timePrefix 10) = -1))
           visited.
Proof.
  eapply (@traverseRange_visits_only_the_window
            (scenarioRetriever primaryClient) Z
            (fun node count => count + numMessages node) (S TIMESTAMP_LENGTH)
            (mkTrieNodeMetadataResponse (Buffer_from "00000000") 5 [])
            (timePrefix 0) (timePrefix 10) 0 []).
  vm_compute. reflexivity.
Defined.

(* ================================================================= *)
(** ** Times that do not convert *)

Lemma getPrefixInfo_conversion_error
    (toFarcasterTime : number -> HubResult number) (R : MetadataRetriever)
    (startTime stopTime : number) (e : HubError) (t : Trace) :
  toFarcasterTime startTime = err e \/
  (isOk (toFarcasterTime startTime) = true /\ toFarcasterTime stopTime = err e) ->
  getPrefixInfo toFarcasterTime R startTime stopTime t = Some (err e, t).
Proof.
  unfold getPrefixInfo, getTimePrefix. intros [H | [H1 H2]].
  - now rewrite H.
  - destruct (toFarcasterTime startTime); [|discriminate]. now rewrite H2.
Qed.

(** X10. When the start time does not convert to a protocol timestamp, or
    else the stop time does not, nothing is asked of any hub: the prefix
    information, the counter, the measurement of the two hubs, the
    collector and the investigation all return the error of the conversion,
    the start time's first. *)
Theorem conversion_error_before_any_query
    (env : Env) (toFarcasterTime : number -> HubResult number) (fuel : nat)
    (R R' : MetadataRetriever) (client client' : RpcMetadataRetriever)
    (startTime stopTime : number) (e : HubError) (t : Trace) :
  toFarcasterTime startTime = err e \/
  (isOk (toFarcasterTime startTime) = true /\ toFarcasterTime stopTime = err e) ->
  getPrefixInfo toFarcasterTime R startTime stopTime t = Some (err e, t) /\
  getNumMessagesInSpanOptimized toFarcasterTime fuel R startTime stopTime t
  = Some (err e, t) /\
  computeSyncHealthMessageStats toFarcasterTime fuel startTime stopTime R R' t
  = Some (err e, t) /\
  computeSyncIdsInSpan env toFarcasterTime fuel client startTime stopTime t
  = Some (err e, t) /\
  investigateDiff env toFarcasterTime fuel client client' startTime stopTime t
  = Some (err e, t).
Proof.
  intros H.
  assert (P : forall R0 u, getPrefixInfo toFarcasterTime R0 startTime stopTime u
                           = Some (err e, u))
    by (intros; now apply getPrefixInfo_conversion_error).
  assert (N : forall R0 u,
             getNumMessagesInSpanOptimized toFarcasterTime fuel R0 startTime stopTime u
             = Some (err e, u)).
  { intros. unfold getNumMessagesInSpanOptimized. now rewrite (bind_Some _ (P R0 u)). }
  assert (C : forall c u,
             computeSyncIdsInSpan env toFarcasterTime fuel c startTime stopTime u
             = Some (err e, u)).
  { intros. unfold computeSyncIdsInSpan. now rewrite (bind_Some _ (P _ u)). }
  split; [apply P | split; [apply N | split; [|split; [apply C|]]]].
  - unfold computeSyncHealthMessageStats.
    now rewrite (bind_Some _ (N R t)), (bind_Some _ (N R' t)).
  - unfold investigateDiff. now rewrite (bind_Some _ (C client t)).
Qed.

Lemma conversion_error_before_any_query_witness :
  let e := mkHubError "bad_request.invalid_param" "time must be after Farcaster epoch" in
  let R := scenarioRetriever primaryClient in
  let R' := scenarioRetriever peerClient in
  let P := mkRpcMetadataRetriever primaryClient in
  let Q := mkRpcMetadataRetriever peerClient in
  let w := staticWorld scenarioStore in
  let fuel := S TIMESTAMP_LENGTH in
  getPrefixInfo toFarcasterTimeModel R (Int 0) (instant 10) [] = Some (err e, []) /\
  getNumMessagesInSpanOptimized toFarcasterTimeModel fuel R (Int 0) (instant 10) []
  = Some (err e, []) /\
  computeSyncHealthMessageStats toFarcasterTimeModel fuel (Int 0) (instant 10) R R' []
  = Some (err e, []) /\
  computeSyncIdsInSpan w toFarcasterTimeModel fuel P (Int 0) (instant 10) []
  = Some (err e, []) /\
  investigateDiff w toFarcasterTimeModel fuel P Q (Int 0) (instant 10) []
  = Some (err e, []).
Proof.
  intros e R R' P Q w fuel.
  apply conversion_error_before_any_query. left. reflexivity.
Defined.

(* ================================================================= *)
(** ** The measurement of two hubs *)

Lemma optimized_counter_on_trie
    (env : Env) (toFarcasterTime : number -> HubResult number)
    (client : HubRpcClient) (ids : list SyncId)
    (startTime stopTime : number) (s e : Z) (fuel : nat) (t : Trace) :
  servesTrie env client (map syncIdBytes ids) ->
  (forall id, In id ids -> representable (timestamp id)) ->
  toFarcasterTime startTime = ok (Int s) ->
  toFarcasterTime stopTime = ok (Int e) ->
  representable s -> representable e ->
  s <= e ->
  (TIMESTAMP_LENGTH < fuel)%nat ->
  let c := getCommonPrefix (timePrefix s) (timePrefix e) in
  exists below,
    getNumMessagesInSpanOptimized toFarcasterTime fuel
      (RpcMetadataRetriever_getMetadata env (mkRpcMetadataRetriever client))
      startTime stopTime t
    = Some (if trieExists (map syncIdBytes ids) c
            then ok (Z.of_nat (List.length (messagesInSpan ids s e)))
            else err unavailable,
            t ++ map (GetSyncMetadataByPrefix client) (c :: below)).
Proof.
  intros Hserve Hids Hs He Rs Re Hle Hfuel c.
  destruct (trieExists (map syncIdBytes ids) c) eqn:Hex.
  - destruct (span_run ids Hserve Hids Rs Re toFarcasterTime startTime stopTime
                Hs He t Hfuel Hex) as (node & vis & rest & N & E & HR & HG & HC).
    exists (c :: rest). rewrite E.
    now rewrite (span_sum ids Hids Rs Re HG (HC Hle)).
  - exists []. exact (span_unavailable ids Hserve toFarcasterTime startTime stopTime
                        Hs He fuel t Hex).
Qed.

Lemma measurement_on_tries
    (env : Env) (toFarcasterTime : number -> HubResult number)
    (primaryClient peerClient : HubRpcClient) (primaryIds peerIds : list SyncId)
    (startTime stopTime : number) (s e : Z) (fuel : nat) (t : Trace) :
  servesTrie env primaryClient (map syncIdBytes primaryIds) ->
  servesTrie env peerClient (map syncIdBytes peerIds) ->
  (forall id, In id primaryIds -> representable (timestamp id)) ->
  (forall id, In id peerIds -> representable (timestamp id)) ->
  toFarcasterTime startTime = ok (Int s) ->
  toFarcasterTime stopTime = ok (Int e) ->
  representable s -> representable e ->
  s <= e ->
  (TIMESTAMP_LENGTH < fuel)%nat ->
  let c := getCommonPrefix (timePrefix s) (timePrefix e) in
  exists belowPrimary belowPeer,
    computeSyncHealthMessageStats toFarcasterTime fuel startTime stopTime
      (RpcMetadataRetriever_getMetadata env (mkRpcMetadataRetriever primaryClient))
      (RpcMetadataRetriever_getMetadata env (mkRpcMetadataRetriever peerClient)) t
    = Some (if trieExists (map syncIdBytes primaryIds) c
               && trieExists (map syncIdBytes peerIds) c
            then ok (mkSyncHealthMessageStats
                       (Z.of_nat (List.length (messagesInSpan primaryIds s e)))
                       (Z.of_nat (List.length (messagesInSpan peerIds s e))))
            else err unavailable,
            (t ++ map (GetSyncMetadataByPrefix primaryClient) (c :: belowPrimary))
              ++ map (GetSyncMetadataByPrefix peerClient) (c :: belowPeer)).
Proof.
  intros HP HQ IP IQ Hs He Rs Re Hle Hfuel c.
  destruct (optimized_counter_on_trie toFarcasterTime primaryIds startTime stopTime
              t HP IP Hs He Rs Re Hle Hfuel) as (bp & EP).
  destruct (optimized_counter_on_trie toFarcasterTime peerIds startTime stopTime
              (t ++ map (GetSyncMetadataByPrefix primaryClient) (c :: bp))
              HQ IQ Hs He Rs Re Hle Hfuel) as (bq & EQ).
  exists bp, bq. unfold computeSyncHealthMessageStats.
  rewrite (bind_Some _ EP), (bind_Some _ EQ). fold c.
  destruct (trieExists (map syncIdBytes primaryIds) c),
    (trieExists (map syncIdBytes peerIds) c); reflexivity.
Qed.

(** X11. On two hubs that serve the tries of their messages, and for a
    window whose start is not after its stop, [computeSyncHealthMessageStats]
    measures the primary and then the peer, the peer also when the
    measurement of the primary has failed; it returns the two true counts of
    the window when both tries have a node for the common prefix, and fails
    as unavailable otherwise. *)
Theorem computeSyncHealthMessageStats_on_tries
    (env : Env) (toFarcasterTime : number -> HubResult number)
    (primaryClient peerClient : HubRpcClient) (primaryIds peerIds : list SyncId)
    (startTime stopTime : number) (s e : Z) (fuel : nat) (t : Trace) :
  servesTrie env primaryClient (map syncIdBytes primaryIds) ->
  servesTrie env peerClient (map syncIdBytes peerIds) ->
  (forall id, In id primaryIds -> representable (timestamp id)) ->
  (forall id, In id peerIds -> representable (timestamp id)) ->
  toFarcasterTime startTime = ok (Int s) ->
  toFarcasterTime stopTime = ok (Int e) ->
  representable s -> representable e ->
  s <= e ->
  (TIMESTAMP_LENGTH < fuel)%nat ->
  let c := getCommonPrefix (timePrefix s) (timePrefix e) in
  exists belowPrimary belowPeer,
    computeSyncHealthMessageStats toFarcasterTime fuel startTime stopTime
      (RpcMetadataRetriever_getMetadata env (mkRpcMetadataRetriever primaryClient))
      (RpcMetadataRetriever_getMetadata env (mkRpcMetadataRetriever peerClient)) t
    = Some (if trieExists (map syncIdBytes primaryIds) c
               && trieExists (map syncIdBytes peerIds) c
            then ok (mkSyncHealthMessageStats
                       (Z.of_nat (List.length (messagesInSpan primaryIds s e)))
                       (Z.of_nat (List.length (messagesInSpan peerIds s e))))
            else err unavailable,
            (t ++ map (GetSyncMetadataByPrefix primaryClient) (c :: belowPrimary))
              ++ map (GetSyncMetadataByPrefix peerClient) (c :: belowPeer)).
Proof. apply measurement_on_tries. Qed.

Lemma computeSyncHealthMessageStats_on_tries_witness :
  exists belowPrimary belowPeer,
    computeSyncHealthMessageStats toFarcasterTimeModel (S TIMESTAMP_LENGTH)
      (instant 0) (instant 10)
      (scenarioRetriever primaryClient) (scenarioRetriever peerClient) []
    = Some (ok (mkSyncHealthMessageStats 5 3),
            ([] ++ map (GetSyncMetadataByPrefix primaryClient)
                     (Buffer_from "00000000" :: belowPrimary))
              ++ map (GetSyncMetadataByPrefix peerClient)
                   (Buffer_from "00000000" :: belowPeer)).
Proof.
  exact (@computeSyncHealthMessageStats_on_tries
           (staticWorld scenarioStore) toFarcasterTimeModel primaryClient peerClient
           (scenarioStore "primary") (scenarioStore "peer")
           (instant 0) (instant 10) 0 10 (S TIMESTAMP_LENGTH) []
           (staticWorld_serves scenarioStore primaryClient)
           (staticWorld_serves scenarioStore peerClient)
           (scenario_representable "primary") (scenario_representable "peer")
           eq_refl eq_refl
           (@representable_small 0 ltac:(lia)) (@representable_small 10 ltac:(lia))
           ltac:(lia) (Nat.lt_succ_diag_r TIMESTAMP_LENGTH)).
Defined.

(* ================================================================= *)
(** ** The counter that asks second by second *)

Lemma spanInstants_empty (startTime stopTime : number) :
  match startTime, stopTime with
  | Int a, Int b => b <= a
  | _, _ => True
  end ->
  spanInstants startTime stopTime = [].
Proof.
  destruct startTime as [|a], stopTime as [|b]; try reflexivity.
  intros H. unfold spanInstants.
  replace (Z.to_nat ((b - a + 999) / 1000)) with 0%nat; [reflexivity|].
  assert ((b - a + 999) / 1000 <= 0); [|lia].
  apply Z.lt_succ_r. apply Z.div_lt_upper_bound; lia.
Qed.

(** X12. For a span that is empty or the wrong way round, and for a bound
    that is not a number, the simple counter returns zero and asks
    nothing. *)
Theorem getNumMessagesInSpan_empty_span
    (toFarcasterTime : number -> HubResult number) (R : MetadataRetriever)
    (startTime stopTime : number) (t : Trace) :
  match startTime, stopTime with
  | Int a, Int b => b <= a
  | _, _ => True
  end ->
  getNumMessagesInSpan toFarcasterTime R startTime stopTime t = Some (ok 0, t).
Proof.
  intros H. unfold getNumMessagesInSpan. now rewrite (spanInstants_empty _ _ H).
Qed.

Lemma getNumMessagesInSpan_empty_span_witness :
  getNumMessagesInSpan toFarcasterTimeModel (scenarioRetriever primaryClient)
    (instant 7) (instant 2) []
  = Some (ok 0, []).
Proof.
  apply getNumMessagesInSpan_empty_span. unfold instant, FARCASTER_EPOCH. lia.
Defined.

Lemma prefixOf_timePrefix (ts : Z) (id : SyncId) :
  representable ts -> representable (timestamp id) ->
  prefixOf (timePrefix ts) (syncIdBytes id) = (timestamp id =? ts).
Proof.
  intros Rt Ri.
  rewrite <- (@prefixOf_firstn TIMESTAMP_LENGTH)
    by (rewrite timePrefix_length by assumption; lia).
  unfold syncIdBytes.
  rewrite <- (timePrefix_length Ri) at 1.
  rewrite firstn_app, Nat.sub_diag, firstn_all. cbn [firstn]. rewrite app_nil_r.
  destruct (timestamp id =? ts) eqn:E.
  - apply Z.eqb_eq in E. rewrite E. apply prefixOf_refl.
  - apply not_true_is_false. intros P.
    apply prefixOf_same_length in P; [|now rewrite !timePrefix_length].
    apply timePrefix_inj in P; try assumption.
    apply Z.eqb_neq in E. congruence.
Qed.

Lemma countUnder_timePrefix (ids : list SyncId) (ts : Z) :
  (forall id, In id ids -> representable (timestamp id)) ->
  representable ts ->
  countUnder (map syncIdBytes ids) (timePrefix ts) = List.length (messagesAt ids ts).
Proof.
  intros Hids Rt. unfold countUnder, messagesAt. rewrite filter_map_length.
  apply filter_length_ext. intros id Hid. apply prefixOf_timePrefix; auto.
Qed.

Lemma trieMetadata_timePrefix (ids : list SyncId) (ts : Z) :
  (forall id, In id ids -> representable (timestamp id)) ->
  representable ts ->
  match messagesAt ids ts with
  | [] => trieMetadata (map syncIdBytes ids) (timePrefix ts) = err unavailable
  | _ :: _ =>
      exists node,
        trieMetadata (map syncIdBytes ids) (timePrefix ts) = ok node /\
        numMessages node = Z.of_nat (List.length (messagesAt ids ts))
  end.
Proof.
  intros Hids Rt. unfold trieMetadata, trieNode, trieExists.
  pose proof (timePrefix_length Rt) as L.
  destruct (timePrefix ts) as [|x p] eqn:E; [discriminate|]. rewrite <- E.
  rewrite (countUnder_timePrefix ids Hids Rt).
  destruct (messagesAt ids ts) as [|id l]; [reflexivity|].
  cbn [List.length Nat.ltb Nat.leb]. eexists. split; reflexivity.
Qed.

Lemma messagesInSpan_next (ids : list SyncId) (s : Z) (n : nat) :
  List.length (messagesInSpan ids s (s + Z.of_nat (S n)))
  = (List.length (messagesAt ids s)
     + List.length (messagesInSpan ids (s + 1) (s + 1 + Z.of_nat n)))%nat.
Proof.
  unfold messagesInSpan, messagesAt, inSpan.
  induction ids as [|id ids IH]; [reflexivity|].
  cbn [filter]. 
  destruct (timestamp id =? s) eqn:E1;
    destruct ((s <=? timestamp id) && (timestamp id <? s + Z.of_nat (S n))) eqn:E2;
    destruct ((s + 1 <=? timestamp id) && (timestamp id <? s + 1 + Z.of_nat n)) eqn:E3;
    cbn [List.length]; rewrite ?IH; try lia; exfalso;
    rewrite ?andb_true_iff, ?andb_false_iff, ?Z.leb_le, ?Z.ltb_lt,
      ?Z.leb_gt, ?Z.ltb_ge, ?Z.eqb_eq, ?Z.eqb_neq in *; lia.
Qed.

Section SecondBySecond.

Variable env : Env.
Variable toFarcasterTime : number -> HubResult number.
Variable client : HubRpcClient.
Variable ids : list SyncId.
Hypothesis serves : servesTrie env client (map syncIdBytes ids).
Hypothesis ids_representable : forall id, In id ids -> representable (timestamp id).
Local Abbreviation R :=
  (RpcMetadataRetriever_getMetadata env (mkRpcMetadataRetriever client)).
Local Abbreviation ev := (GetSyncMetadataByPrefix client).

(** The body of the loop of [getNumMessagesInSpan]. *)
Local Abbreviation body :=
  (fun (acc : HubResult Z) (i : number) =>
     match acc with
     | err e => ret (err e)
     | ok count =>
         match getTimePrefix toFarcasterTime i with
         | err e => ret (err e)
         | ok timePrefixValue =>
             metadata <- getMetadata R timePrefixValue ;;
             match metadata with
             | err e => ret (err e)
             | ok value => ret (ok (count + numMessages value))
             end
         end
     end).

Lemma simple_loop_failed (l : list number) (e : HubError) (t : Trace) :
  forEach l body (err e) t = Some (err e, t).
Proof. apply forEach_unchanged. reflexivity. Qed.

Lemma simple_loop_step (i : number) (ts : Z) (count : Z) (t : Trace) :
  toFarcasterTime i = ok (Int ts) -> representable ts ->
  body (ok count) i t
  = Some (match messagesAt ids ts with
          | [] => err unavailable
          | _ :: _ => ok (count + Z.of_nat (List.length (messagesAt ids ts)))
          end, t ++ [ev (timePrefix ts)]).
Proof.
  intros Hi Rt. cbn beta iota. unfold getTimePrefix. rewrite Hi.
  cbn [HubResult_map]. fold (timePrefix ts).
  rewrite (bind_Some _ (rpc_serves ids serves (timePrefix ts) t)).
  pose proof (@trieMetadata_timePrefix ids ts ids_representable Rt) as M.
  destruct (messagesAt ids ts) as [|id l].
  - now rewrite M.
  - destruct M as (node & -> & ->). reflexivity.
Qed.

Variables a s : Z.

(** Every second of the run holds a message: the loop goes through. *)
Lemma simple_loop_full (n : nat) :
  forall (j : nat) (count : Z) (t : Trace),
    (forall k, (j <= k < j + n)%nat ->
       toFarcasterTime (Int (a + 1000 * Z.of_nat k)) = ok (Int (s + Z.of_nat k)) /\
       representable (s + Z.of_nat k) /\
       messagesAt ids (s + Z.of_nat k) <> []) ->
    forEach (map (fun k => Int (a + 1000 * Z.of_nat k)) (seq j n)) body (ok count) t
    = Some (ok (count + Z.of_nat (List.length
                                    (messagesInSpan ids (s + Z.of_nat j)
                                       (s + Z.of_nat j + Z.of_nat n)))),
            t ++ map ev (map (fun k => timePrefix (s + Z.of_nat k)) (seq j n))).
Proof.
  induction n as [|n IH]; intros j count t H.
  - cbn [seq map forEach ret]. rewrite app_nil_r.
    assert (E0 : List.length (messagesInSpan ids (s + Z.of_nat j)
                                (s + Z.of_nat j + Z.of_nat 0)) = 0%nat).
    { unfold messagesInSpan. apply filter_length_none.
      intros id _. unfold inSpan. apply andb_false_iff.
      destruct (s + Z.of_nat j <=? timestamp id) eqn:E; [right | now left].
      apply Z.leb_le in E. apply Z.ltb_ge. lia. }
    rewrite E0. cbn [Z.of_nat]. now rewrite Z.add_0_r.
  - cbn [seq map forEach].
    destruct (H j ltac:(lia)) as (Hc & Hr & Hm).
    rewrite (bind_Some _ (simple_loop_step count t Hc Hr)).
    destruct (messagesAt ids (s + Z.of_nat j)) as [|id l] eqn:M; [contradiction|].
    rewrite IH by (intros k Hk; apply H; lia).
    rewrite <- M, messagesInSpan_next, <- app_assoc. cbn [app].
    replace (s + Z.of_nat (S j)) with (s + Z.of_nat j + 1) by lia.
    do 3 f_equal. lia.
Qed.

End SecondBySecond.

Lemma simple_counter_on_trie
    (env : Env) (toFarcasterTime : number -> HubResult number)
    (client : HubRpcClient) (ids : list SyncId) (a b s : Z) (t : Trace) :
  servesTrie env client (map syncIdBytes ids) ->
  (forall id, In id ids -> representable (timestamp id)) ->
  let n := Z.to_nat ((b - a + 999) / 1000) in
  (forall k, (k < n)%nat ->
     toFarcasterTime (Int (a + 1000 * Z.of_nat k)) = ok (Int (s + Z.of_nat k))) ->
  0 <= s -> s + Z.of_nat n <= 10 ^ Z.of_nat TIMESTAMP_LENGTH ->
  let run := getNumMessagesInSpan toFarcasterTime
               (RpcMetadataRetriever_getMetadata env (mkRpcMetadataRetriever client))
               (Int a) (Int b) t in
  let queries := fun m => map (GetSyncMetadataByPrefix client)
                            (map timePrefix (secondsFrom s m)) in
  ((forall k, (k < n)%nat -> messagesAt ids (s + Z.of_nat k) <> []) ->
   run = Some (ok (Z.of_nat (List.length (messagesInSpan ids s (s + Z.of_nat n)))),
               t ++ queries n)) /\
  (forall j, (j < n)%nat ->
     (forall k, (k < j)%nat -> messagesAt ids (s + Z.of_nat k) <> []) ->
     messagesAt ids (s + Z.of_nat j) = [] ->
     run = Some (err unavailable, t ++ queries (S j))).
Proof.
  intros Hserve Hids n Hc Hs Hn run queries.
  assert (Q : forall m, queries m
                        = map (GetSyncMetadataByPrefix client)
                            (map (fun k => timePrefix (s + Z.of_nat k)) (seq 0 m))).
  { intros m. unfold queries, secondsFrom. f_equal. apply map_map. }
  assert (Rk : forall k, (k < n)%nat -> representable (s + Z.of_nat k))
    by (intros k Hk; unfold representable; lia).
  subst run. unfold getNumMessagesInSpan, spanInstants. fold n. split.
  - intros Hfull.
    rewrite (@simple_loop_full env toFarcasterTime client ids Hserve Hids a s n 0%nat 0 t).
    + rewrite Q. cbn [Z.of_nat]. rewrite Z.add_0_r, Z.add_0_l. reflexivity.
    + intros k Hk. split; [|split]; [apply Hc | apply Rk | apply Hfull]; lia.
  - intros j Hj Hbefore Hempty.
    assert (S : seq 0 n = seq 0 j ++ j :: seq (S j) (n - S j)).
    { replace n with (j + S (n - S j))%nat at 1 by lia.
      rewrite seq_app. reflexivity. }
    rewrite S, map_app.
    pose proof (@simple_loop_full env toFarcasterTime client ids Hserve Hids
                  a s j 0%nat 0 t) as F.
    specialize (F ltac:(intros k Hk; split; [|split];
                        [apply Hc | apply Rk | apply Hbefore]; lia)).
    rewrite (forEach_app _ _ _ _ _ F).
    cbn [map forEach].
    rewrite (bind_Some _ (@simple_loop_step env toFarcasterTime client ids Hserve Hids
                            _ _ _ _ (Hc j Hj) (Rk j Hj))).
    rewrite Hempty, simple_loop_failed.
    rewrite Q, seq_S, !map_app, <- app_assoc. reflexivity.
Qed.

(** X13. On a hub that serves the trie of its messages, the simple counter
    asks for the node of each second of the span in turn. When every second
    holds a message it returns the number of messages of the span; at the
    first second that holds none it fails as unavailable, the node being
    missing, and asks no further. *)
Theorem getNumMessagesInSpan_second_by_second
    (env : Env) (toFarcasterTime : number -> HubResult number)
    (client : HubRpcClient) (ids : list SyncId) (a b s : Z) (t : Trace) :
  servesTrie env client (map syncIdBytes ids) ->
  (forall id, In id ids -> representable (timestamp id)) ->
  let n := Z.to_nat ((b - a + 999) / 1000) in
  (forall k, (k < n)%nat ->
     toFarcasterTime (Int (a + 1000 * Z.of_nat k)) = ok (Int (s + Z.of_nat k))) ->
  0 <= s -> s + Z.of_nat n <= 10 ^ Z.of_nat TIMESTAMP_LENGTH ->
  let run := getNumMessagesInSpan toFarcasterTime
               (RpcMetadataRetriever_getMetadata env (mkRpcMetadataRetriever client))
               (Int a) (Int b) t in
  let queries := fun m => map (GetSyncMetadataByPrefix client)
                            (map timePrefix (secondsFrom s m)) in
  ((forall k, (k < n)%nat -> messagesAt ids (s + Z.of_nat k) <> []) ->
   run = Some (ok (Z.of_nat (List.length (messagesInSpan ids s (s + Z.of_nat n)))),
               t ++ queries n)) /\
  (forall j, (j < n)%nat ->
     (forall k, (k < j)%nat -> messagesAt ids (s + Z.of_nat k) <> []) ->
     messagesAt ids (s + Z.of_nat j) = [] ->
     run = Some (err unavailable, t ++ queries (S j))).
Proof. apply simple_counter_on_trie. Qed.

Lemma toFarcasterTimeModel_instant (ts : Z) :
  0 <= ts < 2 ^ 32 -> toFarcasterTimeModel (instant ts) = ok (Int ts).
Proof.
  intros H. unfold toFarcasterTimeModel, instant.
  destruct (FARCASTER_EPOCH + 1000 * ts <? FARCASTER_EPOCH) eqn:E;
    [apply Z.ltb_lt in E; lia|].
  replace ((FARCASTER_EPOCH + 1000 * ts - FARCASTER_EPOCH + 500) / 1000) with ts
    by (apply Z.div_unique with (r := 500); lia).
  destruct (ts >? 2 ^ 32 - 1) eqn:G; [|reflexivity].
  apply Z.gtb_lt in G. lia.
Qed.

Lemma scenario_conversions (s : Z) (n k : nat) :
  0 <= s -> s + Z.of_nat n < 1000 -> (k < n)%nat ->
  toFarcasterTimeModel (Int (FARCASTER_EPOCH + 1000 * s + 1000 * Z.of_nat k))
  = ok (Int (s + Z.of_nat k)).
Proof.
  intros Hs Hn Hk.
  replace (FARCASTER_EPOCH + 1000 * s + 1000 * Z.of_nat k)
    with (FARCASTER_EPOCH + 1000 * (s + Z.of_nat k)) by lia.
  apply toFarcasterTimeModel_instant. lia.
Qed.

Lemma getNumMessagesInSpan_second_by_second_witness :
  getNumMessagesInSpan toFarcasterTimeModel (scenarioRetriever primaryClient)
    (instant 2) (instant 3) []
  = Some (ok 3, [GetSyncMetadataByPrefix primaryClient (timePrefix 2)]) /\
  getNumMessagesInSpan toFarcasterTimeModel (scenarioRetriever primaryClient)
    (instant 2) (instant 8) []
  = Some (err unavailable,
          [GetSyncMetadataByPrefix primaryClient (timePrefix 2);
           GetSyncMetadataByPrefix primaryClient (timePrefix 3)]).
Proof.
  split.
  - refine (proj1 (@getNumMessagesInSpan_second_by_second
                     (staticWorld scenarioStore) toFarcasterTimeModel primaryClient
                     (scenarioStore "primary")
                     (FARCASTER_EPOCH + 1000 * 2) (FARCASTER_EPOCH + 1000 * 3) 2 []
                     (staticWorld_serves scenarioStore primaryClient)
                     (scenario_representable "primary") _ _ _) _).
    + intros k Hk. apply (@scenario_conversions 2 1 k); [lia | simpl; lia | exact Hk].
    + lia.
    + vm_compute. discriminate.
    + intros k Hk. destruct k as [|k]; [discriminate|].
      vm_compute in Hk. lia.
  - refine (proj2 (@getNumMessagesInSpan_second_by_second
                     (staticWorld scenarioStore) toFarcasterTimeModel primaryClient
                     (scenarioStore "primary")
                     (FARCASTER_EPOCH + 1000 * 2) (FARCASTER_EPOCH + 1000 * 8) 2 []
                     (staticWorld_serves scenarioStore primaryClient)
                     (scenario_representable "primary") _ _ _) 1%nat _ _ _).
    + intros k Hk. apply (@scenario_conversions 2 6 k); [lia | simpl; lia | exact Hk].
    + lia.
    + vm_compute. discriminate.
    + vm_compute. lia.
    + intros k Hk. destruct k as [|k]; [discriminate | lia].
    + reflexivity.
Defined.

(** X14. On a hub that serves the trie of its messages, take a span of at
    least one second in which every second the simple counter steps through
    holds a message. The simple counter returns the number of messages of
    the seconds it steps through, one for each started second of the span,
    counted on from the start second; the optimized counter returns the
    number of messages between the two seconds the bounds convert to. The
    two agree when the stop time converts to the start second and as many
    seconds as the simple counter steps through, as for a span of whole
    seconds; over a span of 1.4 seconds whose stop converts to the next
    second the simple counter counts two seconds, the optimized counter
    one. *)
Theorem getNumMessagesInSpan_versus_optimized
    (env : Env) (toFarcasterTime : number -> HubResult number)
    (client : HubRpcClient) (ids : list SyncId) (a b s e : Z)
    (fuel : nat) (t : Trace) :
  servesTrie env client (map syncIdBytes ids) ->
  (forall id, In id ids -> representable (timestamp id)) ->
  let n := Z.to_nat ((b - a + 999) / 1000) in
  (0 < n)%nat ->
  (forall k, (k < n)%nat ->
     toFarcasterTime (Int (a + 1000 * Z.of_nat k)) = ok (Int (s + Z.of_nat k))) ->
  toFarcasterTime (Int b) = ok (Int e) ->
  0 <= s -> s + Z.of_nat n <= 10 ^ Z.of_nat TIMESTAMP_LENGTH ->
  s <= e -> representable e ->
  (forall k, (k < n)%nat -> messagesAt ids (s + Z.of_nat k) <> []) ->
  (TIMESTAMP_LENGTH < fuel)%nat ->
  let R := RpcMetadataRetriever_getMetadata env (mkRpcMetadataRetriever client) in
  let count := fun stop => Z.of_nat (List.length (messagesInSpan ids s stop)) in
  exists t1 t2,
    getNumMessagesInSpan toFarcasterTime R (Int a) (Int b) t
    = Some (ok (count (s + Z.of_nat n)), t1) /\
    getNumMessagesInSpanOptimized toFarcasterTime fuel R (Int a) (Int b) t
    = Some (ok (count e), t2).
Proof.
  intros Hserve Hids n Hpos Hc Hb Hs Hn Hle Re Hfull Hfuel R count.
  destruct (@simple_counter_on_trie env toFarcasterTime client ids
              a b s t Hserve Hids Hc Hs ltac:(fold n; lia)) as [Full _].
  assert (Ha : toFarcasterTime (Int a) = ok (Int s)).
  { rewrite <- (Z.add_0_r s), <- (Z.add_0_r a). apply (Hc 0%nat Hpos). }
  assert (Rs : representable s) by (unfold representable; lia).
  destruct (optimized_counter_on_trie toFarcasterTime ids (Int a) (Int b) t
              Hserve Hids Ha Hb Rs Re Hle Hfuel) as (below & E).
  eexists. eexists. split; [apply Full; exact Hfull|].
  fold R in E. rewrite E.
  assert (X : trieExists (map syncIdBytes ids)
                (getCommonPrefix (timePrefix s) (timePrefix e)) = true).
  { specialize (Hfull 0%nat Hpos). rewrite Z.add_0_r in Hfull.
    destruct (messagesAt ids s) as [|id l] eqn:M; [contradiction|].
    assert (I : In id (messagesAt ids s)) by (rewrite M; now left).
    apply filter_In in I as [I T].
    assert (P : prefixOf (timePrefix s) (syncIdBytes id) = true)
      by (rewrite prefixOf_timePrefix; auto).
    pose proof (prefixOf_trans _ _ _
                  (getCommonPrefix_left (timePrefix s) (timePrefix e)) P) as Pc.
    pose proof (@countUnder_pos (map syncIdBytes ids) _ _
                  (in_map syncIdBytes _ _ I) Pc) as C.
    unfold trieExists. destruct (getCommonPrefix _ _); [reflexivity|].
    now apply Nat.ltb_lt. }
  rewrite X. reflexivity.
Qed.

Lemma getNumMessagesInSpan_versus_optimized_witness :
  (exists t1 t2,
     getNumMessagesInSpan toFarcasterTimeModel (scenarioRetriever primaryClient)
       (instant 2) (instant 3) [] = Some (ok 3, t1) /\
     getNumMessagesInSpanOptimized toFarcasterTimeModel (S TIMESTAMP_LENGTH)
       (scenarioRetriever primaryClient) (instant 2) (instant 3) []
     = Some (ok 3, t2)) /\
  (exists t1 t2,
     getNumMessagesInSpan toFarcasterTimeModel
       (RpcMetadataRetriever_getMetadata
          (staticWorld (fun _ => [mkSyncId 2 [x01]; mkSyncId 3 [x01]]))
          (mkRpcMetadataRetriever primaryClient))
       (Int (FARCASTER_EPOCH + 2000)) (Int (FARCASTER_EPOCH + 3400)) []
     = Some (ok 2, t1) /\
     getNumMessagesInSpanOptimized toFarcasterTimeModel (S TIMESTAMP_LENGTH)
       (RpcMetadataRetriever_getMetadata
          (staticWorld (fun _ => [mkSyncId 2 [x01]; mkSyncId 3 [x01]]))
          (mkRpcMetadataRetriever primaryClient))
       (Int (FARCASTER_EPOCH + 2000)) (Int (FARCASTER_EPOCH + 3400)) []
     = Some (ok 1, t2)).
Proof.
  split.
  - destruct (@getNumMessagesInSpan_versus_optimized
                (staticWorld scenarioStore) toFarcasterTimeModel primaryClient
                (scenarioStore "primary")
                (FARCASTER_EPOCH + 1000 * 2) (FARCASTER_EPOCH + 1000 * 3) 2 3
                (S TIMESTAMP_LENGTH) []
                (staticWorld_serves scenarioStore primaryClient)
                (scenario_representable "primary"))
      as (t1 & t2 & E1 & E2).
    + vm_compute. lia.
    + intros k Hk. apply (@scenario_conversions 2 1 k); [lia | simpl; lia | exact Hk].
    + reflexivity.
    + lia.
    + vm_compute. discriminate.
    + lia.
    + apply representable_small. lia.
    + intros k Hk. destruct k as [|k]; [discriminate|].
      vm_compute in Hk. lia.
    + apply Nat.lt_succ_diag_r.
    + exists t1, t2. split; [exact E1 | exact E2].
  - destruct (@getNumMessagesInSpan_versus_optimized
                (staticWorld (fun _ => [mkSyncId 2 [x01]; mkSyncId 3 [x01]]))
                toFarcasterTimeModel primaryClient
                [mkSyncId 2 [x01]; mkSyncId 3 [x01]]
                (FARCASTER_EPOCH + 1000 * 2) (FARCASTER_EPOCH + 1000 * 2 + 1400) 2 3
                (S TIMESTAMP_LENGTH) []
                (staticWorld_serves (fun _ => [mkSyncId 2 [x01]; mkSyncId 3 [x01]])
                   primaryClient))
      as (t1 & t2 & E1 & E2).
    + intros id [<- | [<- | []]]; apply representable_small; simpl; lia.
    + vm_compute. lia.
    + intros k Hk. apply (@scenario_conversions 2 2 k); [lia | simpl; lia | exact Hk].
    + reflexivity.
    + lia.
    + vm_compute. discriminate.
    + lia.
    + apply representable_small. lia.
    + intros k Hk. destruct k as [|[|k]]; [discriminate | discriminate|].
      vm_compute in Hk. lia.
    + apply Nat.lt_succ_diag_r.
    + exists t1, t2. split; [exact E1 | exact E2].
Defined.

(* ================================================================= *)
(** ** The number of queries of the optimized counter *)

(** The leading parts of [b] of the lengths below [n]. *)
Lemma prefixOf_firstn_self (q b : Buffer) :
  prefixOf q b = true -> q = firstn (List.length q) b.
Proof. intros H. symmetry. now apply firstn_prefixOf. Qed.

Lemma leading_part_listed (q b : Buffer) (n : nat) :
  prefixOf q b = true -> (List.length q < n)%nat ->
  In q (map (fun k => firstn k b) (seq 0 n)).
Proof.
  intros P L. apply in_map_iff. exists (List.length q). split.
  - symmetry. now apply prefixOf_firstn_self.
  - apply in_seq. lia.
Qed.

Lemma map_query_inj (client : HubRpcClient) (l l' : list Buffer) :
  map (GetSyncMetadataByPrefix client) l = map (GetSyncMetadataByPrefix client) l' ->
  l = l'.
Proof.
  revert l'. induction l as [|x l IH]; intros [|y l'] H; try discriminate;
    [reflexivity|].
  cbn [map] in H. inversion H. f_equal. now apply IH.
Qed.

(** X15. On a hub that serves the trie of its messages, one run of the
    optimized counter asks at most twice the length of a time prefix and
    two more times, however many messages the hub holds and whichever way
    round the window is. *)
Theorem getNumMessagesInSpanOptimized_query_bound
    (env : Env) (toFarcasterTime : number -> HubResult number)
    (client : HubRpcClient) (ids : list SyncId)
    (startTime stopTime : number) (s e : Z) (fuel : nat) (t : Trace) :
  servesTrie env client (map syncIdBytes ids) ->
  (forall id, In id ids -> representable (timestamp id)) ->
  toFarcasterTime startTime = ok (Int s) ->
  toFarcasterTime stopTime = ok (Int e) ->
  representable s -> representable e ->
  (TIMESTAMP_LENGTH < fuel)%nat ->
  exists r queries,
    getNumMessagesInSpanOptimized toFarcasterTime fuel
      (RpcMetadataRetriever_getMetadata env (mkRpcMetadataRetriever client))
      startTime stopTime t
    = Some (r, t ++ map (GetSyncMetadataByPrefix client) queries) /\
    (List.length queries <= 2 * TIMESTAMP_LENGTH + 2)%nat.
Proof.
  intros Hserve Hids Hs He Rs Re Hfuel.
  set (c := getCommonPrefix (timePrefix s) (timePrefix e)).
  destruct (trieExists (map syncIdBytes ids) c) eqn:Hex.
  2:{ exists (err unavailable), [c]. split; [|cbn; lia].
      exact (span_unavailable ids Hserve toFarcasterTime startTime stopTime
               Hs He fuel t Hex). }
  destruct (span_run ids Hserve Hids Rs Re toFarcasterTime startTime stopTime
              Hs He t Hfuel Hex) as (node & vis & rest & N & E & HR & HG & _).
  fold c in N, E, HR, HG.
  eexists. exists (c :: c :: rest). split; [exact E|].
  destruct HG as (_ & _ & _ & ND).
  assert (Hn : prefix node = c).
  { unfold trieNode in N. rewrite Hex in N. now inversion N. }
  pose proof (HR unit (fun _ u => u) tt []) as Run. cbn [app] in Run.
  destruct (@traverseRange_queries env client (timePrefix s) (timePrefix e)
              unit (fun _ u => u) fuel node tt [] _ _ Run)
    as (below & T & F).
  cbn [app] in T. rewrite Hn in T. apply map_query_inj in T.
  inversion T; subst below. clear T.
  set (listed := map (fun k => firstn k (timePrefix s)) (seq 0 TIMESTAMP_LENGTH)
                 ++ map (fun k => firstn k (timePrefix e)) (seq 0 (S TIMESTAMP_LENGTH))).
  assert (I : incl (c :: rest) listed).
  { intros q [<- | Hq].
    - destruct (Z.eq_dec s e) as [<- | NE].
      + apply in_or_app. right. apply leading_part_listed.
        * apply getCommonPrefix_right.
        * unfold c. rewrite getCommonPrefix_same, timePrefix_length by assumption. lia.
      + apply in_or_app. left. apply leading_part_listed.
        * apply getCommonPrefix_left.
        * rewrite <- (timePrefix_length Rs).
          apply getCommonPrefix_shorter; [now rewrite !timePrefix_length|].
          intros C. apply NE. now apply timePrefix_inj.
    - rewrite Forall_forall in F. destruct (F q Hq) as [P Q].
      apply orb_true_iff in P.
      rewrite (isPrefix_prefixOf q (timePrefix_ascii Rs)),
        (isPrefix_prefixOf q (timePrefix_ascii Re)) in P.
      apply in_or_app. destruct P as [P | P].
      + left. apply leading_part_listed; [assumption|].
        pose proof (prefixOf_length _ _ P) as L.
        rewrite (timePrefix_length Rs) in L.
        destruct (Nat.eq_dec (List.length q) TIMESTAMP_LENGTH) as [EQ | NEQ]; [|lia].
        exfalso. apply Q. apply Buffer_compare_eq.
        apply prefixOf_same_length; [assumption|].
        now rewrite timePrefix_length.
      + right. apply leading_part_listed; [assumption|].
        pose proof (prefixOf_length _ _ P) as L.
        rewrite (timePrefix_length Re) in L. lia. }
  pose proof (NoDup_incl_length ND I) as B.
  assert (LL : List.length listed = (2 * TIMESTAMP_LENGTH + 1)%nat).
  { unfold listed. rewrite length_app, !length_map, !length_seq. lia. }
  unfold Buffer in B, LL |- *. cbn [List.length] in B |- *. lia.
Qed.

Lemma getNumMessagesInSpanOptimized_query_bound_witness :
  exists r queries,
    scenarioCount 0 10 []
    = Some (r, [] ++ map (GetSyncMetadataByPrefix primaryClient) queries) /\
    (List.length queries <= 2 * TIMESTAMP_LENGTH + 2)%nat.
Proof.
  exact (@getNumMessagesInSpanOptimized_query_bound
           (staticWorld scenarioStore) toFarcasterTimeModel primaryClient
           (scenarioStore "primary") (instant 0) (instant 10) 0 10
           (S TIMESTAMP_LENGTH) []
           (staticWorld_serves scenarioStore primaryClient)
           (scenario_representable "primary")
           eq_refl eq_refl
           (@representable_small 0 ltac:(lia)) (@representable_small 10 ltac:(lia))
           (Nat.lt_succ_diag_r TIMESTAMP_LENGTH)).
Defined.

(* ================================================================= *)
(** ** A window the wrong way round *)

Lemma Buffer_compare_lt_trans (a b c : Buffer) :
  Buffer_compare a b = -1 -> Buffer_compare b c = -1 -> Buffer_compare a c = -1.
Proof.
  revert b c. induction a as [|x a IH]; intros [|y b] [|z c]; cbn [Buffer_compare];
    try discriminate; try reflexivity.
  destruct (byteZ x <? byteZ y) eqn:XY.
  - intros _. destruct (byteZ y <? byteZ z) eqn:YZ.
    + intros _. apply Z.ltb_lt in XY, YZ.
      replace (byteZ x <? byteZ z) with true by (symmetry; apply Z.ltb_lt; lia).
      reflexivity.
    + destruct (byteZ z <? byteZ y) eqn:ZY; [discriminate|].
      intros _. apply Z.ltb_lt in XY. apply Z.ltb_ge in YZ, ZY.
      replace (byteZ x <? byteZ z) with true by (symmetry; apply Z.ltb_lt; lia).
      reflexivity.
  - destruct (byteZ y <? byteZ x) eqn:YX; [discriminate|].
    intros AB. apply Z.ltb_ge in XY, YX.
    assert (E : byteZ x = byteZ y) by lia. rewrite E.
    destruct (byteZ y <? byteZ z); [reflexivity|].
    destruct (byteZ z <? byteZ y); [discriminate|].
    now apply IH.
Qed.

Lemma prefixOf_shorter (a b k : Buffer) :
  prefixOf a k = true -> prefixOf b k = true ->
  (List.length a <= List.length b)%nat -> prefixOf a b = true.
Proof.
  intros A B L. rewrite <- (firstn_prefixOf _ _ B).
  now rewrite prefixOf_firstn.
Qed.

Section TrieTraversalInverted.

Variable R : MetadataRetriever.
Variable ev : Buffer -> Event.
Variable keys : list Buffer.
Variables start stop : Buffer.

Hypothesis R_serves :
  forall p t, getMetadata R p t = Some (trieMetadata keys p, t ++ [ev p]).
Hypothesis same_length : List.length stop = List.length start.
Hypothesis keys_long :
  forall k, In k keys -> (List.length start <= List.length k)%nat.
Hypothesis start_ascii : isAscii start.
Hypothesis stop_ascii : isAscii stop.
Hypothesis stop_before_start : Buffer_compare stop start = -1.

Lemma not_between (c : Buffer) :
  (Buffer_compare c start =? 1) && (Buffer_compare c stop =? -1) = false.
Proof.
  destruct (Buffer_compare c start =? 1) eqn:C1; [|reflexivity].
  destruct (Buffer_compare c stop =? -1) eqn:C2; [|reflexivity].
  apply Z.eqb_eq in C1, C2.
  pose proof (Buffer_compare_lt_trans _ _ _ C2 stop_before_start) as T.
  rewrite T in C1. discriminate.
Qed.

Lemma visit_child_inverted (fuel' : nat) (p : Buffer) (b : byte) :
  BelowInverted R ev keys start stop fuel' ->
  (List.length p < List.length start)%nat ->
  (List.length start - List.length p < S fuel')%nat ->
  (0 < countUnder keys (p ++ [b]))%nat ->
  exists v cl,
    (forall (A : Type) (f : TrieNodeMetadataResponse -> A -> A) (acc : A) (t : Trace),
       visitChild fuel' start stop R f acc (trieChild keys p b) t
       = Some (visitAll f v acc, t ++ map ev cl)) /\
    GoodInverted keys start (p ++ [b]) v.
Proof.
  intros IH Lp Lf Hpos.
  set (c := p ++ [b]).
  assert (Lc : List.length c = S (List.length p))
    by (unfold c; rewrite length_app; simpl; lia).
  unfold visitChild. cbn [prefix trieChild]. fold c.
  rewrite !isPrefix_prefixOf by assumption.
  destruct (Buffer_compare c start =? 0) eqn:E0.
  - apply Z.eqb_eq, Buffer_compare_eq in E0.
    exists [trieChild keys p b], []. split.
    + intros A f acc t. cbn. now rewrite app_nil_r.
    + split.
      * intros n [<- | []]. reflexivity.
      * intros k Hk. unfold cover. cbn [filter prefix trieChild]. fold c.
        rewrite <- E0. now destruct (prefixOf c k).
  - apply Z.eqb_neq in E0.
    destruct (prefixOf c start || prefixOf c stop) eqn:E1.
    + destruct (IH (trieChild keys p b)) as (vis & rest & HR & HG).
      * cbn [prefix trieChild]. fold c. lia.
      * cbn [prefix trieChild]. fold c.
        destruct (Nat.eq_dec (List.length c) (List.length start)) as [E|E];
          [right | left; lia].
        apply orb_true_iff in E1 as [P | P].
        -- exfalso. apply E0. apply Buffer_compare_eq.
           now apply prefixOf_same_length.
        -- apply prefixOf_same_length; [assumption | lia].
      * cbn [prefix trieChild]. now apply trieExists_child.
      * cbn [prefix trieChild] in HR, HG. fold c in HR, HG.
        exists vis, rest. split; [|exact HG].
        intros A f acc t. now rewrite (bind_Some _ (HR A f acc t)).
    + apply orb_false_iff in E1 as [P1 P2]. rewrite not_between.
      exists [], []. split.
      * intros A f acc t. cbn. now rewrite app_nil_r.
      * split; [intros n []|].
        intros k Hk. unfold cover. cbn [filter List.length].
        destruct (prefixOf c k) eqn:Pc; [|reflexivity].
        destruct (prefixOf start k) eqn:Ps; [|reflexivity].
        rewrite (prefixOf_shorter c start k Pc Ps) in P1; [discriminate | lia].
Qed.

Lemma visit_children_inverted (fuel' : nat) (p : Buffer) :
  BelowInverted R ev keys start stop fuel' ->
  (List.length p < List.length start)%nat ->
  (List.length start - List.length p < S fuel')%nat ->
  forall bs : list byte,
    (forall b, In b bs -> (0 < countUnder keys (p ++ [b]))%nat) ->
    exists vis calls,
      (forall (A : Type) (f : TrieNodeMetadataResponse -> A -> A) (acc : A) (t : Trace),
         forEach (map (trieChild keys p) bs) (visitChild fuel' start stop R f) acc t
         = Some (visitAll f vis acc, t ++ map ev calls)) /\
      (forall n, In n vis -> numMessages n = Z.of_nat (countUnder keys (prefix n))) /\
      (forall k, In k keys ->
         cover vis k
         = List.length (filter (fun b => prefixOf (p ++ [b]) k && prefixOf start k) bs)).
Proof.
  intros IH Lp Lf. induction bs as [|b bs IHbs]; intros Hpos.
  - exists [], []. split; [|split].
    + intros A f acc t. cbn. now rewrite app_nil_r.
    + intros n [].
    + intros k _. reflexivity.
  - destruct (@visit_child_inverted fuel' p b IH Lp Lf (Hpos b (or_introl eq_refl)))
      as (v & cl & Hrun & Hv & Hcov).
    destruct (IHbs (fun b' H => Hpos b' (or_intror H)))
      as (vis & calls & Hruns & Hvis & Hcovs).
    exists (v ++ vis), (cl ++ calls). split; [|split].
    + intros A f acc t. cbn [map forEach].
      rewrite (bind_Some _ (Hrun A f acc t)), Hruns.
      unfold visitAll. now rewrite fold_left_app, map_app, app_assoc.
    + intros n Hn. apply in_app_or in Hn as [Hn | Hn]; auto.
    + intros k Hk. rewrite cover_app, (Hcov k Hk), (Hcovs k Hk).
      cbn [filter]. destruct (prefixOf (p ++ [b]) k && prefixOf start k);
        reflexivity.
Qed.

Lemma traverse_node_inverted (fuel : nat) : BelowInverted R ev keys start stop fuel.
Proof.
  induction fuel as [|fuel' IH]; intros node Hf Hp Hex; [lia|].
  destruct (list_eq_dec Byte.byte_eq_dec (prefix node) stop) as [E | NE].
  { exists [], [stop]. split.
    - rewrite E in Hex.
      exact (proj1 (@traverse_stop R ev keys start stop R_serves same_length
                      start_ascii stop_ascii fuel' node E Hex)).
    - rewrite E. split; [intros n []|].
      intros k Hk. unfold cover. cbn [filter List.length].
      destruct (prefixOf stop k) eqn:Pp; [|reflexivity].
      destruct (prefixOf start k) eqn:Ps; [|reflexivity].
      pose proof (prefixOf_shorter stop start k Pp Ps ltac:(lia)) as P.
      apply prefixOf_same_length in P; [|assumption].
      rewrite P, Buffer_compare_refl in stop_before_start. discriminate. }
  assert (Lp : (List.length (prefix node) < List.length start)%nat)
    by (destruct Hp; [assumption | contradiction]).
  set (p := prefix node) in *.
  destruct (@visit_children_inverted fuel' p IH Lp Hf _ (trieChildBytes_pos keys p))
    as (vis & calls & Hruns & Hvis & Hcov).
  exists vis, (p :: calls). split.
  - intros A f acc t. rewrite traverseRange_S. fold p.
    rewrite (bind_Some _ (R_serves p t)).
    unfold trieMetadata, trieNode. rewrite Hex. cbn [children].
    rewrite (bind_Some _ (Hruns A f acc (t ++ [ev p]))).
    cbn [map ret]. now rewrite <- app_assoc.
  - split; [assumption|].
    intros k Hk. rewrite (Hcov k Hk).
    apply children_partition; [assumption|].
    pose proof (keys_long k Hk). lia.
Qed.

End TrieTraversalInverted.

(** X16. When the start of the window is after its stop, as with two times
    of day given the wrong way round, the optimized counter returns, on a
    hub that serves the trie of its messages, the number of messages of the
    start second, when the trie has a node for the common prefix of the two
    boundaries, and fails as unavailable when it has none. The result need
    not be zero, although such a window holds no message. *)
Theorem getNumMessagesInSpanOptimized_inverted_window
    (env : Env) (toFarcasterTime : number -> HubResult number)
    (client : HubRpcClient) (ids : list SyncId)
    (startTime stopTime : number) (s e : Z) (fuel : nat) (t : Trace) :
  servesTrie env client (map syncIdBytes ids) ->
  (forall id, In id ids -> representable (timestamp id)) ->
  toFarcasterTime startTime = ok (Int s) ->
  toFarcasterTime stopTime = ok (Int e) ->
  representable s -> representable e ->
  e < s ->
  (TIMESTAMP_LENGTH < fuel)%nat ->
  let c := getCommonPrefix (timePrefix s) (timePrefix e) in
  exists queries,
    getNumMessagesInSpanOptimized toFarcasterTime fuel
      (RpcMetadataRetriever_getMetadata env (mkRpcMetadataRetriever client))
      startTime stopTime t
    = Some (if trieExists (map syncIdBytes ids) c
            then ok (Z.of_nat (List.length (messagesAt ids s)))
            else err unavailable,
            t ++ map (GetSyncMetadataByPrefix client) queries).
Proof.
  intros Hserve Hids Hs He Rs Re Hlt Hfuel c.
  set (keys := map syncIdBytes ids).
  set (R := RpcMetadataRetriever_getMetadata env (mkRpcMetadataRetriever client)).
  destruct (trieExists keys c) eqn:Hex.
  2:{ exists [c]. exact (span_unavailable ids Hserve toFarcasterTime startTime stopTime
                           Hs He fuel t Hex). }
  assert (SL : List.length (timePrefix e) = List.length (timePrefix s))
    by now rewrite !timePrefix_length.
  assert (Lc : (List.length c < List.length (timePrefix s))%nat).
  { apply getCommonPrefix_shorter; [assumption|].
    intros C. apply timePrefix_inj in C; try assumption. lia. }
  assert (Inv : Buffer_compare (timePrefix e) (timePrefix s) = -1).
  { rewrite timePrefix_compare by assumption. now apply compareZ_lt. }
  destruct (trieNode keys c) as [node|] eqn:N;
    [|unfold trieNode in N; rewrite Hex in N; discriminate].
  assert (Hn : prefix node = c).
  { unfold trieNode in N. rewrite Hex in N. now inversion N. }
  destruct (@traverse_node_inverted R
              (GetSyncMetadataByPrefix client) keys (timePrefix s) (timePrefix e)
              (rpc_serves ids Hserve) SL
              (keys_long_enough ids Hids Rs)
              (timePrefix_ascii Rs) (timePrefix_ascii Re) Inv fuel node)
    as (vis & calls & HR & Hv & Hc).
  { rewrite (timePrefix_length Rs). lia. }
  { left. now rewrite Hn. }
  { now rewrite Hn. }
  assert (Sum : visitAll (fun node count => count + numMessages node) vis 0
                = Z.of_nat (List.length (messagesAt ids s))).
  { rewrite (visitAll_sum keys) by assumption.
    rewrite Z.add_0_l. f_equal.
    rewrite <- (@countUnder_timePrefix ids s Hids Rs). fold keys.
    unfold countUnder. rewrite filter_length_sum. apply list_sum_map_ext.
    intros k Hk. rewrite (Hc k Hk), Hn.
    destruct (prefixOf (timePrefix s) k) eqn:P; [|now rewrite andb_false_r].
    rewrite andb_true_r. unfold c.
    now rewrite (prefixOf_trans _ _ _ (getCommonPrefix_left _ (timePrefix e)) P). }
  exists (c :: calls).
  unfold getNumMessagesInSpanOptimized.
  rewrite (bind_Some _ (getPrefixInfo_trie ids Hserve toFarcasterTime
                          startTime stopTime Hs He t)).
  fold keys c. rewrite N.
  cbn [commonPrefixMetadata startTimePrefix stopTimePrefix].
  rewrite (bind_Some _ (HR _ _ _ _)), Sum. cbn [ret map].
  now rewrite <- app_assoc.
Qed.

Lemma getNumMessagesInSpanOptimized_inverted_window_witness :
  exists queries,
    scenarioCount 7 2 []
    = Some (ok 2, [] ++ map (GetSyncMetadataByPrefix primaryClient) queries).
Proof.
  exact (@getNumMessagesInSpanOptimized_inverted_window
           (staticWorld scenarioStore) toFarcasterTimeModel primaryClient
           (scenarioStore "primary") (instant 7) (instant 2) 7 2
           (S TIMESTAMP_LENGTH) []
           (staticWorld_serves scenarioStore primaryClient)
           (scenario_representable "primary")
           eq_refl eq_refl
           (@representable_small 7 ltac:(lia)) (@representable_small 2 ltac:(lia))
           ltac:(lia) (Nat.lt_succ_diag_r TIMESTAMP_LENGTH)).
Defined.

(* ================================================================= *)
(** ** The counter on the local sync engine *)

Section SpanOverRetriever.

Variable R : MetadataRetriever.
Variable ev : Buffer -> Event.
Variable ids : list SyncId.
Variables s e : Z.
Local Abbreviation keys := (map syncIdBytes ids).
Local Abbreviation c := (getCommonPrefix (timePrefix s) (timePrefix e)).
Hypothesis R_serves :
  forall p t, getMetadata R p t = Some (trieMetadata keys p, t ++ [ev p]).
Hypothesis ids_representable : forall id, In id ids -> representable (timestamp id).
Hypothesis s_representable : representable s.
Hypothesis e_representable : representable e.
Hypothesis s_le_e : s <= e.

Variable toFarcasterTime : number -> HubResult number.
Variables startTime stopTime : number.
Hypothesis start_converts : toFarcasterTime startTime = ok (Int s).
Hypothesis stop_converts : toFarcasterTime stopTime = ok (Int e).

Lemma retriever_traversal (fuel : nat) (node : TrieNodeMetadataResponse) :
  (TIMESTAMP_LENGTH < fuel)%nat ->
  prefix node = c -> trieExists keys c = true ->
  exists vis rest,
    Runs R ev (timePrefix s) (timePrefix e) fuel node vis (c :: rest) /\
    Good keys (timePrefix s) (timePrefix e) c vis (c :: rest) /\
    Covers keys (timePrefix s) (timePrefix e) c vis.
Proof.
  intros enough_fuel Hn Hex.
  assert (SL : List.length (timePrefix e) = List.length (timePrefix s))
    by now rewrite !timePrefix_length.
  destruct (Z.eq_dec s e) as [E | NE].
  - exists [], []. rewrite <- E in *.
    rewrite getCommonPrefix_same in *.
    assert (F : fuel = S (pred fuel)) by lia. rewrite F.
    destruct (@traverse_stop R ev keys (timePrefix s) (timePrefix s)
                R_serves eq_refl (timePrefix_ascii s_representable)
                (timePrefix_ascii s_representable) (pred fuel) node Hn Hex)
      as [HR HG].
    split; [exact HR | split; [exact HG|]].
    intros k Hk. unfold cover. cbn [filter List.length].
    destruct (prefixOf (timePrefix s) k) eqn:P; [|reflexivity].
    now rewrite (@inWindow_at_stop (timePrefix s) (timePrefix s) eq_refl k P).
  - assert (Lc : (List.length c < List.length (timePrefix s))%nat).
    { apply getCommonPrefix_shorter; [assumption|].
      intros C. apply NE. now apply timePrefix_inj. }
    pose proof (@traverse_node R ev keys (timePrefix s) (timePrefix e)
                  R_serves SL
                  (keys_long_enough ids ids_representable s_representable)
                  (timePrefix_ascii s_representable)
                  (timePrefix_ascii e_representable)
                  fuel node) as T.
    rewrite Hn in T. destruct T as (vis & rest & HR & HG).
    + rewrite (timePrefix_length s_representable). lia.
    + now left.
    + assumption.
    + exists vis, rest. split; [exact HR | split; [exact HG|]].
      apply HG. rewrite timePrefix_compare by assumption. apply compareZ_lt. lia.
Qed.

Lemma retriever_counter (fuel : nat) (t : Trace) :
  (TIMESTAMP_LENGTH < fuel)%nat ->
  let run := getNumMessagesInSpanOptimized toFarcasterTime fuel R
               startTime stopTime t in
  if trieExists keys c
  then exists below,
         run = Some (ok (Z.of_nat (List.length (messagesInSpan ids s e))),
                     t ++ map ev (c :: below))
  else run = Some (err unavailable, t ++ [ev c]).
Proof.
  intros enough_fuel run.
  assert (P : getPrefixInfo toFarcasterTime R startTime stopTime t
              = Some (match trieNode keys c with
                      | Some node => ok (mkPrefixInfo (timePrefix s) (timePrefix e) node)
                      | None => err unavailable
                      end, t ++ [ev c])).
  { unfold getPrefixInfo, getTimePrefix. rewrite start_converts, stop_converts.
    cbn [HubResult_map]. fold (timePrefix s) (timePrefix e).
    rewrite (bind_Some _ (R_serves c t)). unfold trieMetadata.
    destruct (trieNode keys c); reflexivity. }
  subst run. unfold getNumMessagesInSpanOptimized. rewrite (bind_Some _ P).
  unfold trieNode. destruct (trieExists keys c) eqn:Hex; [|reflexivity].
  destruct (@retriever_traversal fuel
              (mkTrieNodeMetadataResponse c (Z.of_nat (countUnder keys c))
                 (map (trieChild keys c) (trieChildBytes keys c)))
              enough_fuel eq_refl Hex) as (vis & rest & HR & HG & HC).
  exists (c :: rest).
  cbn [commonPrefixMetadata startTimePrefix stopTimePrefix].
  rewrite (bind_Some _ (HR _ _ _ _)). cbn [ret map].
  rewrite (span_sum ids ids_representable s_representable e_representable HG HC).
  now rewrite <- app_assoc.
Qed.

End SpanOverRetriever.

Lemma engine_serves (env : Env) (keys : list Buffer) :
  holdsTrie env keys ->
  forall p t,
    getMetadata (SyncEngineMetadataRetriever_getMetadata env) p t
    = Some (trieMetadata keys p, t ++ [GetTrieNodeMetadata p]).
Proof.
  intros H p t. cbn [getMetadata SyncEngineMetadataRetriever_getMetadata].
  unfold bind, call. rewrite H. unfold trieMetadata.
  destruct (trieNode keys p); reflexivity.
Qed.

(** X17. On a local sync engine that holds the trie of its messages, and
    for a window whose start is not after its stop, the optimized counter
    returns the number of messages of the window when the trie has a node
    for the common prefix of the two boundaries; when it has none, the
    engine has nothing to answer with, the retriever makes of it the error
    [unavailable], "Missing metadata for node", and the counter returns
    that error after this one query. *)
Theorem getNumMessagesInSpanOptimized_on_sync_engine
    (env : Env) (toFarcasterTime : number -> HubResult number) (ids : list SyncId)
    (startTime stopTime : number) (s e : Z) (fuel : nat) (t : Trace) :
  holdsTrie env (map syncIdBytes ids) ->
  (forall id, In id ids -> representable (timestamp id)) ->
  toFarcasterTime startTime = ok (Int s) ->
  toFarcasterTime stopTime = ok (Int e) ->
  representable s -> representable e ->
  s <= e ->
  (TIMESTAMP_LENGTH < fuel)%nat ->
  let c := getCommonPrefix (timePrefix s) (timePrefix e) in
  let run := getNumMessagesInSpanOptimized toFarcasterTime fuel
               (SyncEngineMetadataRetriever_getMetadata env) startTime stopTime t in
  if trieExists (map syncIdBytes ids) c
  then exists below,
         run = Some (ok (Z.of_nat (List.length (messagesInSpan ids s e))),
                     t ++ map GetTrieNodeMetadata (c :: below))
  else run = Some (err (mkHubError "unavailable" "Missing metadata for node"),
                   t ++ [GetTrieNodeMetadata c]).
Proof.
  intros Hh Hids Hs He Rs Re Hle Hfuel c run.
  exact (@retriever_counter (SyncEngineMetadataRetriever_getMetadata env)
           GetTrieNodeMetadata ids s e (engine_serves Hh) Hids Rs Re Hle
           toFarcasterTime startTime stopTime Hs He fuel t Hfuel).
Qed.

Lemma getNumMessagesInSpanOptimized_on_sync_engine_witness :
  (exists below,
     getNumMessagesInSpanOptimized toFarcasterTimeModel (S TIMESTAMP_LENGTH)
       (SyncEngineMetadataRetriever_getMetadata engineWorld) (instant 0) (instant 10) []
     = Some (ok 5, [] ++ map GetTrieNodeMetadata (Buffer_from "00000000" :: below))) /\
  getNumMessagesInSpanOptimized toFarcasterTimeModel (S TIMESTAMP_LENGTH)
    (SyncEngineMetadataRetriever_getMetadata engineWorld) (instant 20) (instant 29) []
  = Some (err (mkHubError "unavailable" "Missing metadata for node"),
          [] ++ [GetTrieNodeMetadata (Buffer_from "000000002")]).
Proof.
  split.
  - exact (@getNumMessagesInSpanOptimized_on_sync_engine
             engineWorld toFarcasterTimeModel (scenarioStore "primary")
             (instant 0) (instant 10) 0 10 (S TIMESTAMP_LENGTH) []
             (fun _ _ => eq_refl) (scenario_representable "primary")
             eq_refl eq_refl
             (@representable_small 0 ltac:(lia)) (@representable_small 10 ltac:(lia))
             ltac:(lia) (Nat.lt_succ_diag_r TIMESTAMP_LENGTH)).
  - exact (@getNumMessagesInSpanOptimized_on_sync_engine
             engineWorld toFarcasterTimeModel (scenarioStore "primary")
             (instant 20) (instant 29) 20 29 (S TIMESTAMP_LENGTH) []
             (fun _ _ => eq_refl) (scenario_representable "primary")
             eq_refl eq_refl
             (@representable_small 20 ltac:(lia)) (@representable_small 29 ltac:(lia))
             ltac:(lia) (Nat.lt_succ_diag_r TIMESTAMP_LENGTH)).
Defined.

(* ================================================================= *)
(** ** The investigation *)

Lemma tryPushingMissingMessages_run
    (env : Env) (withMessages missingMessages : HubRpcClient)
    (missingSyncIds : list Buffer) (t : Trace) :
  tryPushingMissingMessages env (mkRpcMetadataRetriever withMessages)
    (mkRpcMetadataRetriever missingMessages) missingSyncIds t
  = match missingSyncIds with
    | [] => Some (ok [], t)
    | _ :: _ =>
        let t1 := t ++ [GetAllMessagesBySyncIds withMessages missingSyncIds] in
        match messagesBySyncIds env t withMessages missingSyncIds with
        | err e => Some (err e, t1)
        | ok messages =>
            Some (ok (submissionOutcomes env missingMessages messages t1),
                  t1 ++ map (SubmitMessage missingMessages) messages)
        end
    end.
Proof.
  unfold tryPushingMissingMessages.
  destruct missingSyncIds as [|i l]; [reflexivity|].
  cbn [List.length Nat.eqb _rpcClient].
  assert (E : getAllMessagesBySyncIds env withMessages (i :: l) t
              = Some (messagesBySyncIds env t withMessages (i :: l),
                      t ++ [GetAllMessagesBySyncIds withMessages (i :: l)]))
    by reflexivity.
  rewrite (bind_Some _ E).
  destruct (messagesBySyncIds env t withMessages (i :: l)) as [messages | e];
    [|reflexivity].
  now rewrite (bind_Some _ (submit_loop env missingMessages messages [] _)).
Qed.

Lemma uniqueSyncIds_nothing (mySyncIds otherSyncIds : list Buffer) :
  (forall x, In x mySyncIds -> In x otherSyncIds) ->
  uniqueSyncIds mySyncIds otherSyncIds = [].
Proof.
  intros H. destruct (uniqueSyncIds mySyncIds otherSyncIds) as [|x l] eqn:E;
    [reflexivity|].
  assert (I : In x (x :: l)) by now left.
  rewrite <- E in I. apply In_uniqueSyncIds in I as [I N].
  contradiction N. now apply H.
Qed.

(** X18. When the two collections hold the same identifiers, the
    investigation fetches no message and submits none: it returns two empty
    lists of outcomes right after the second collection. *)
Theorem investigateDiff_nothing_to_repair
    (env : Env) (toFarcasterTime : number -> HubResult number) (fuel : nat)
    (primaryRpcClient peerRpcClient : HubRpcClient)
    (startTime stopTime : number) (primaryIds peerIds : list Buffer)
    (t t1 t2 : Trace) :
  computeSyncIdsInSpan env toFarcasterTime fuel
    (mkRpcMetadataRetriever primaryRpcClient) startTime stopTime t
  = Some (ok primaryIds, t1) ->
  computeSyncIdsInSpan env toFarcasterTime fuel
    (mkRpcMetadataRetriever peerRpcClient) startTime stopTime t1
  = Some (ok peerIds, t2) ->
  (forall x, In x primaryIds <-> In x peerIds) ->
  investigateDiff env toFarcasterTime fuel
    (mkRpcMetadataRetriever primaryRpcClient) (mkRpcMetadataRetriever peerRpcClient)
    startTime stopTime t
  = Some (ok (mkDiffResults [] []), t2).
Proof.
  intros HP HQ Same. unfold investigateDiff.
  rewrite (bind_Some _ HP), (bind_Some _ HQ).
  rewrite !uniqueSyncIds_nothing by (intros x; apply Same).
  reflexivity.
Qed.

Lemma investigateDiff_nothing_to_repair_witness :
  exists t2,
    investigateDiff (staticWorld scenarioStore) toFarcasterTimeModel (S TIMESTAMP_LENGTH)
      (mkRpcMetadataRetriever primaryClient) (mkRpcMetadataRetriever peerClient)
      (instant 0) (instant 5) []
    = Some (ok (mkDiffResults [] []), t2).
Proof.
  eexists.
  eapply investigateDiff_nothing_to_repair.
  - vm_compute. reflexivity.
  - vm_compute. reflexivity.
  - intros x. split; exact (fun H => H).
Defined.

(* ----------------------------------------------------------------- *)
(** *** The investigation of two hubs that answer *)

Lemma firstn_syncIdBytes (id : SyncId) :
  representable (timestamp id) ->
  firstn TIMESTAMP_LENGTH (syncIdBytes id) = timePrefix (timestamp id).
Proof.
  intros Ri. unfold syncIdBytes. rewrite <- (timePrefix_length Ri) at 1.
  rewrite firstn_app, Nat.sub_diag, firstn_all. cbn [firstn]. apply app_nil_r.
Qed.

Lemma syncIdBytes_timestamp (a b : SyncId) :
  representable (timestamp a) -> representable (timestamp b) ->
  syncIdBytes a = syncIdBytes b -> timestamp a = timestamp b.
Proof.
  intros Ra Rb E. apply timePrefix_inj; try assumption.
  rewrite <- (firstn_syncIdBytes a Ra), <- (firstn_syncIdBytes b Rb). now rewrite E.
Qed.

Lemma key_in_span (ids : list SyncId) (s e : Z) (id : SyncId) :
  (forall id', In id' ids -> representable (timestamp id')) ->
  representable (timestamp id) ->
  In (syncIdBytes id) (map syncIdBytes (messagesInSpan ids s e))
  <-> inSpan s e id = true /\ In (syncIdBytes id) (map syncIdBytes ids).
Proof.
  intros Hids Rid. rewrite !in_map_iff. split.
  - intros (id' & E & I). apply filter_In in I as [I W].
    assert (T : timestamp id' = timestamp id)
      by (apply syncIdBytes_timestamp; auto).
    split; [|now exists id'].
    unfold inSpan in *. now rewrite <- T.
  - intros (W & id' & E & I). exists id'. split; [assumption|].
    apply filter_In. split; [assumption|].
    assert (T : timestamp id' = timestamp id)
      by (apply syncIdBytes_timestamp; auto).
    unfold inSpan in *. now rewrite T.
Qed.

Lemma wanted_missingInSpan (mine others : list SyncId) (s e : Z)
    (collected collected' : list Buffer) :
  (forall id, In id mine -> representable (timestamp id)) ->
  (forall id, In id others -> representable (timestamp id)) ->
  Permutation collected (map syncIdBytes (messagesInSpan mine s e)) ->
  Permutation collected' (map syncIdBytes (messagesInSpan others s e)) ->
  filter (fun id => memBuffer (syncIdBytes id) (uniqueSyncIds collected collected')) mine
  = missingInSpan s e mine others.
Proof.
  intros Hm Ho Pm Po. unfold missingInSpan. apply filter_ext_in. intros id Hid.
  apply eq_true_iff_eq.
  rewrite memBuffer_In, In_uniqueSyncIds, andb_true_iff, negb_true_iff.
  assert (A : In (syncIdBytes id) collected
              <-> inSpan s e id = true /\ In (syncIdBytes id) (map syncIdBytes mine)).
  { rewrite <- key_in_span by auto.
    split; apply Permutation_in; [assumption | now apply Permutation_sym]. }
  assert (B : In (syncIdBytes id) collected'
              <-> inSpan s e id = true /\ In (syncIdBytes id) (map syncIdBytes others)).
  { rewrite <- key_in_span by auto.
    split; apply Permutation_in; [assumption | now apply Permutation_sym]. }
  rewrite A, B, <- not_true_iff_false, memBuffer_In.
  split.
  - intros [[W _] N]. split; [assumption|]. intros I. apply N. now split.
  - intros [W N]. split.
    + split; [assumption | now apply in_map].
    + intros [_ I]. contradiction.
Qed.

Lemma push_on_answering_hub
    (env : Env) (withMessages missingMessages : HubRpcClient)
    (held : list SyncId) (wanted : list Buffer) (t : Trace) :
  handsOut env withMessages held ->
  let messages := map messageOf
                    (filter (fun id => memBuffer (syncIdBytes id) wanted) held) in
  exists fetch,
    (fetch = [] \/ fetch = [GetAllMessagesBySyncIds withMessages wanted]) /\
    tryPushingMissingMessages env (mkRpcMetadataRetriever withMessages)
      (mkRpcMetadataRetriever missingMessages) wanted t
    = Some (ok (submissionOutcomes env missingMessages messages (t ++ fetch)),
            (t ++ fetch) ++ map (SubmitMessage missingMessages) messages).
Proof.
  intros H messages. rewrite tryPushingMissingMessages_run.
  destruct wanted as [|i l].
  - exists []. split; [now left|]. subst messages.
    replace (filter _ held) with (@nil SyncId).
    + cbn. now rewrite !app_nil_r.
    + symmetry. clear H. induction held as [|x held IH]; [reflexivity | exact IH].
  - exists [GetAllMessagesBySyncIds withMessages (i :: l)].
    split; [now right|]. cbv zeta. now rewrite H.
Qed.

(** The collection on a hub that answers asks for nodes and then lists
    identifiers, and does nothing else. *)
Lemma collection_on_trie
    (env : Env) (toFarcasterTime : number -> HubResult number)
    (client : HubRpcClient) (ids : list SyncId)
    (startTime stopTime : number) (s e : Z) (fuel : nat) (t : Trace) :
  servesTrie env client (map syncIdBytes ids) ->
  listsTrie env client (map syncIdBytes ids) ->
  (forall id, In id ids -> representable (timestamp id)) ->
  toFarcasterTime startTime = ok (Int s) ->
  toFarcasterTime stopTime = ok (Int e) ->
  representable s -> representable e ->
  s <= e ->
  (TIMESTAMP_LENGTH < fuel)%nat ->
  trieExists (map syncIdBytes ids) (getCommonPrefix (timePrefix s) (timePrefix e)) = true ->
  exists result queried listed,
    computeSyncIdsInSpan env toFarcasterTime fuel
      (mkRpcMetadataRetriever client) startTime stopTime t
    = Some (ok result,
            (t ++ map (GetSyncMetadataByPrefix client) queried)
              ++ map (GetAllSyncIdsByPrefix client) listed) /\
    Permutation result (map syncIdBytes (messagesInSpan ids s e)).
Proof.
  intros Hserve Hlist Hids Hs He Rs Re Hle Hfuel Hex.
  destruct (computeSyncIdsInSpan_complete toFarcasterTime ids startTime stopTime
              t Hserve Hlist Hids Hs He Rs Re Hle Hfuel Hex) as (result & t' & E & P).
  destruct (span_run ids Hserve Hids Rs Re toFarcasterTime startTime stopTime
              Hs He t Hfuel Hex) as (node & vis & rest & N & _ & HR & _ & _).
  set (c := getCommonPrefix (timePrefix s) (timePrefix e)) in *.
  set (prefixes := visitAll (fun node prefixes => prefixes ++ [prefix node]) vis []).
  assert (E' : computeSyncIdsInSpan env toFarcasterTime fuel
                 (mkRpcMetadataRetriever client) startTime stopTime t
               = Some (ok (idsOfFetches env client prefixes
                             ((t ++ [GetSyncMetadataByPrefix client c])
                                ++ map (GetSyncMetadataByPrefix client) (c :: rest))),
                       (t ++ map (GetSyncMetadataByPrefix client) (c :: c :: rest))
                         ++ map (GetAllSyncIdsByPrefix client) prefixes)).
  { rewrite computeSyncIdsInSpan_run.
    rewrite (getPrefixInfo_trie ids Hserve toFarcasterTime startTime stopTime Hs He t).
    fold c. rewrite N.
    cbn [commonPrefixMetadata startTimePrefix stopTimePrefix].
    rewrite (HR _ (fun node prefixes => prefixes ++ [prefix node]) [] _).
    fold prefixes. cbn [map]. now rewrite <- !app_assoc. }
  rewrite E' in E. inversion E; subst result t'; clear E.
  eexists. exists (c :: c :: rest), prefixes. split; [exact E' | exact P].
Qed.

Lemma Forall_map_event {A} (f : A -> Event) (p : Event -> bool) (l : list A) :
  (forall x, p (f x) = true) -> Forall (fun ev => p ev = true) (map f l).
Proof.
  intros H. apply Forall_forall. intros ev I.
  apply in_map_iff in I as (x & <- & _). apply H.
Qed.

Lemma investigation_on_answering_hubs
    (env : Env) (toFarcasterTime : number -> HubResult number)
    (primaryRpcClient peerRpcClient : HubRpcClient)
    (primaryIds peerIds : list SyncId)
    (startTime stopTime : number) (s e : Z) (fuel : nat) (t : Trace) :
  servesTrie env primaryRpcClient (map syncIdBytes primaryIds) ->
  listsTrie env primaryRpcClient (map syncIdBytes primaryIds) ->
  handsOut env primaryRpcClient primaryIds ->
  servesTrie env peerRpcClient (map syncIdBytes peerIds) ->
  listsTrie env peerRpcClient (map syncIdBytes peerIds) ->
  handsOut env peerRpcClient peerIds ->
  (forall id, In id primaryIds -> representable (timestamp id)) ->
  (forall id, In id peerIds -> representable (timestamp id)) ->
  toFarcasterTime startTime = ok (Int s) ->
  toFarcasterTime stopTime = ok (Int e) ->
  representable s -> representable e ->
  s <= e ->
  (TIMESTAMP_LENGTH < fuel)%nat ->
  let c := getCommonPrefix (timePrefix s) (timePrefix e) in
  trieExists (map syncIdBytes primaryIds) c = true ->
  trieExists (map syncIdBytes peerIds) c = true ->
  let toPeer := map messageOf (missingInSpan s e primaryIds peerIds) in
  let toPrimary := map messageOf (missingInSpan s e peerIds primaryIds) in
  exists collection fetch1 fetch2,
    Forall (fun ev => isCollection ev = true) collection /\
    (fetch1 = [] \/
     exists wanted, fetch1 = [GetAllMessagesBySyncIds primaryRpcClient wanted]) /\
    (fetch2 = [] \/
     exists wanted, fetch2 = [GetAllMessagesBySyncIds peerRpcClient wanted]) /\
    let t1 := (t ++ collection) ++ fetch1 in
    let t2 := (t1 ++ map (SubmitMessage peerRpcClient) toPeer) ++ fetch2 in
    investigateDiff env toFarcasterTime fuel
      (mkRpcMetadataRetriever primaryRpcClient) (mkRpcMetadataRetriever peerRpcClient)
      startTime stopTime t
    = Some (ok (mkDiffResults
                  (submissionOutcomes env peerRpcClient toPeer t1)
                  (submissionOutcomes env primaryRpcClient toPrimary t2)),
            t2 ++ map (SubmitMessage primaryRpcClient) toPrimary).
Proof.
  intros SP LP HP SQ LQ HQ IP IQ Hs He Rs Re Hle Hfuel c XP XQ toPeer toPrimary.
  destruct (collection_on_trie toFarcasterTime primaryIds startTime stopTime
              t SP LP IP Hs He Rs Re Hle Hfuel XP) as (rP & qP & lP & EP & PP).
  match type of EP with
  | _ = Some (_, ?u) =>
      destruct (collection_on_trie toFarcasterTime peerIds startTime stopTime
                  u SQ LQ IQ Hs He Rs Re Hle Hfuel XQ) as (rQ & qQ & lQ & EQ & PQ)
  end.
  set (collection := (map (GetSyncMetadataByPrefix primaryRpcClient) qP
                        ++ map (GetAllSyncIdsByPrefix primaryRpcClient) lP)
                       ++ map (GetSyncMetadataByPrefix peerRpcClient) qQ
                       ++ map (GetAllSyncIdsByPrefix peerRpcClient) lQ).
  assert (T : ((t ++ map (GetSyncMetadataByPrefix primaryRpcClient) qP)
                 ++ map (GetAllSyncIdsByPrefix primaryRpcClient) lP)
                ++ map (GetSyncMetadataByPrefix peerRpcClient) qQ
              = (t ++ map (GetSyncMetadataByPrefix primaryRpcClient) qP
                   ++ map (GetAllSyncIdsByPrefix primaryRpcClient) lP)
                  ++ map (GetSyncMetadataByPrefix peerRpcClient) qQ)
    by now rewrite <- !app_assoc.
  assert (C : (((t ++ map (GetSyncMetadataByPrefix primaryRpcClient) qP)
                  ++ map (GetAllSyncIdsByPrefix primaryRpcClient) lP)
                 ++ map (GetSyncMetadataByPrefix peerRpcClient) qQ)
                ++ map (GetAllSyncIdsByPrefix peerRpcClient) lQ
              = t ++ collection)
    by (unfold collection; now rewrite <- !app_assoc).
  rewrite C in EQ. clear T C.
  destruct (push_on_answering_hub peerRpcClient (uniqueSyncIds rP rQ) (t ++ collection) HP)
    as (fetch1 & F1 & E1).
  rewrite (@wanted_missingInSpan primaryIds peerIds s e rP rQ IP IQ PP PQ) in E1.
  fold toPeer in E1.
  destruct (push_on_answering_hub primaryRpcClient (uniqueSyncIds rQ rP)
              (((t ++ collection) ++ fetch1) ++ map (SubmitMessage peerRpcClient) toPeer)
              HQ)
    as (fetch2 & F2 & E2).
  rewrite (@wanted_missingInSpan peerIds primaryIds s e rQ rP IQ IP PQ PP) in E2.
  fold toPrimary in E2.
  exists collection, fetch1, fetch2. split; [|split; [|split]].
  - unfold collection. repeat (apply Forall_app; split);
      apply Forall_map_event; reflexivity.
  - destruct F1 as [F1 | F1]; [now left | right; eexists; exact F1].
  - destruct F2 as [F2 | F2]; [now left | right; eexists; exact F2].
  - cbv zeta. unfold investigateDiff.
    rewrite (bind_Some _ EP), (bind_Some _ EQ), (bind_Some _ E1), (bind_Some _ E2).
    reflexivity.
Qed.

(** X19. Between two hubs that serve and list the tries of their messages
    and hand out the messages asked for, and over a window for which both
    collections succeed, the investigation first collects, asking the hubs
    for nodes and identifiers only; then it fetches at most once from the
    primary and submits to the peer the messages of the window that the
    primary holds and the peer lacks; then it fetches at most once from the
    peer and submits to the primary those that the peer holds and the
    primary lacks. Each message is submitted as often as its holder holds
    it, in the order the holder keeps them; nothing else is submitted, and
    the outcomes returned are those of these submissions, one for each. *)
Theorem investigateDiff_repairs_both_ways
    (env : Env) (toFarcasterTime : number -> HubResult number)
    (primaryRpcClient peerRpcClient : HubRpcClient)
    (primaryIds peerIds : list SyncId)
    (startTime stopTime : number) (s e : Z) (fuel : nat) (t : Trace) :
  servesTrie env primaryRpcClient (map syncIdBytes primaryIds) ->
  listsTrie env primaryRpcClient (map syncIdBytes primaryIds) ->
  handsOut env primaryRpcClient primaryIds ->
  servesTrie env peerRpcClient (map syncIdBytes peerIds) ->
  listsTrie env peerRpcClient (map syncIdBytes peerIds) ->
  handsOut env peerRpcClient peerIds ->
  (forall id, In id primaryIds -> representable (timestamp id)) ->
  (forall id, In id peerIds -> representable (timestamp id)) ->
  toFarcasterTime startTime = ok (Int s) ->
  toFarcasterTime stopTime = ok (Int e) ->
  representable s -> representable e ->
  s <= e ->
  (TIMESTAMP_LENGTH < fuel)%nat ->
  let c := getCommonPrefix (timePrefix s) (timePrefix e) in
  trieExists (map syncIdBytes primaryIds) c = true ->
  trieExists (map syncIdBytes peerIds) c = true ->
  let toPeer := map messageOf (missingInSpan s e primaryIds peerIds) in
  let toPrimary := map messageOf (missingInSpan s e peerIds primaryIds) in
  exists collection fetch1 fetch2,
    Forall (fun ev => isCollection ev = true) collection /\
    (fetch1 = [] \/
     exists wanted, fetch1 = [GetAllMessagesBySyncIds primaryRpcClient wanted]) /\
    (fetch2 = [] \/
     exists wanted, fetch2 = [GetAllMessagesBySyncIds peerRpcClient wanted]) /\
    let t1 := (t ++ collection) ++ fetch1 in
    let t2 := (t1 ++ map (SubmitMessage peerRpcClient) toPeer) ++ fetch2 in
    investigateDiff env toFarcasterTime fuel
      (mkRpcMetadataRetriever primaryRpcClient) (mkRpcMetadataRetriever peerRpcClient)
      startTime stopTime t
    = Some (ok (mkDiffResults
                  (submissionOutcomes env peerRpcClient toPeer t1)
                  (submissionOutcomes env primaryRpcClient toPrimary t2)),
            t2 ++ map (SubmitMessage primaryRpcClient) toPrimary).
Proof. apply investigation_on_answering_hubs. Qed.

Lemma staticWorld_lists (store : string -> list SyncId) (c : HubRpcClient) :
  listsTrie (staticWorld store) c (map syncIdBytes (store (clientAddress c))).
Proof. intros t p. reflexivity. Qed.

Lemma staticWorld_handsOut (store : string -> list SyncId) (c : HubRpcClient) :
  handsOut (staticWorld store) c (store (clientAddress c)).
Proof. intros t wanted. reflexivity. Qed.

Lemma investigateDiff_repairs_both_ways_witness :
  exists collection fetch1 fetch2,
    Forall (fun ev => isCollection ev = true) collection /\
    (fetch1 = [] \/
     exists wanted, fetch1 = [GetAllMessagesBySyncIds primaryClient wanted]) /\
    (fetch2 = [] \/
     exists wanted, fetch2 = [GetAllMessagesBySyncIds peerClient wanted]) /\
    investigateDiff (staticWorld scenarioStore) toFarcasterTimeModel (S TIMESTAMP_LENGTH)
      (mkRpcMetadataRetriever primaryClient) (mkRpcMetadataRetriever peerClient)
      (instant 0) (instant 10) []
    = Some (ok (mkDiffResults
                  [ok (messageOf (mkSyncId 7 [x01])); ok (messageOf (mkSyncId 7 [x02]))]
                  []),
            ((([] ++ collection) ++ fetch1)
               ++ map (SubmitMessage peerClient)
                    [messageOf (mkSyncId 7 [x01]); messageOf (mkSyncId 7 [x02])])
              ++ fetch2 ++ map (SubmitMessage primaryClient) []).
Proof.
  destruct (@investigateDiff_repairs_both_ways
              (staticWorld scenarioStore) toFarcasterTimeModel primaryClient peerClient
              (scenarioStore "primary") (scenarioStore "peer")
              (instant 0) (instant 10) 0 10 (S TIMESTAMP_LENGTH) []
              (staticWorld_serves scenarioStore primaryClient)
              (staticWorld_lists scenarioStore primaryClient)
              (staticWorld_handsOut scenarioStore primaryClient)
              (staticWorld_serves scenarioStore peerClient)
              (staticWorld_lists scenarioStore peerClient)
              (staticWorld_handsOut scenarioStore peerClient)
              (scenario_representable "primary") (scenario_representable "peer")
              eq_refl eq_refl
              (@representable_small 0 ltac:(lia)) (@representable_small 10 ltac:(lia))
              ltac:(lia) (Nat.lt_succ_diag_r TIMESTAMP_LENGTH) eq_refl eq_refl)
    as (collection & fetch1 & fetch2 & C & F1 & F2 & E).
  exists collection, fetch1, fetch2.
  split; [exact C | split; [exact F1 | split; [exact F2|]]].
  cbv zeta in E. rewrite E. rewrite <- !app_assoc. reflexivity.
Defined.

(* ================================================================= *)
(** ** An investigation that cannot collect *)

(** X20. The investigation stops at the first collection that fails. On a
    primary whose trie has no node for the common prefix it returns the
    error after that one query and asks nothing of the peer; and when it is
    the peer's trie that has no such node, it returns the error right after
    the query to the peer: no message is fetched and none is submitted. *)
Theorem investigateDiff_stops_at_first_failure
    (env : Env) (toFarcasterTime : number -> HubResult number) (fuel : nat)
    (primaryRpcClient peerRpcClient : HubRpcClient)
    (primaryIds : list SyncId) (peerIds : list SyncId)
    (startTime stopTime : number) (s e : Z) (t : Trace) :
  toFarcasterTime startTime = ok (Int s) ->
  toFarcasterTime stopTime = ok (Int e) ->
  let c := getCommonPrefix (timePrefix s) (timePrefix e) in
  let run := investigateDiff env toFarcasterTime fuel
               (mkRpcMetadataRetriever primaryRpcClient)
               (mkRpcMetadataRetriever peerRpcClient) startTime stopTime t in
  (servesTrie env primaryRpcClient (map syncIdBytes primaryIds) ->
   trieExists (map syncIdBytes primaryIds) c = false ->
   run = Some (err unavailable, t ++ [GetSyncMetadataByPrefix primaryRpcClient c])) /\
  (forall (collected : list Buffer) (t1 : Trace),
     computeSyncIdsInSpan env toFarcasterTime fuel
       (mkRpcMetadataRetriever primaryRpcClient) startTime stopTime t
     = Some (ok collected, t1) ->
     servesTrie env peerRpcClient (map syncIdBytes peerIds) ->
     trieExists (map syncIdBytes peerIds) c = false ->
     run = Some (err unavailable, t1 ++ [GetSyncMetadataByPrefix peerRpcClient c])).
Proof.
  intros Hs He c run.
  assert (F : forall (client : HubRpcClient) (ids : list SyncId) (u : Trace),
             servesTrie env client (map syncIdBytes ids) ->
             trieExists (map syncIdBytes ids) c = false ->
             computeSyncIdsInSpan env toFarcasterTime fuel
               (mkRpcMetadataRetriever client) startTime stopTime u
             = Some (err unavailable, u ++ [GetSyncMetadataByPrefix client c])).
  { intros client ids u Hserve Hex. rewrite computeSyncIdsInSpan_run.
    rewrite (getPrefixInfo_trie ids Hserve toFarcasterTime startTime stopTime Hs He u).
    fold c. unfold trieNode. now rewrite Hex. }
  subst run. unfold investigateDiff. split.
  - intros Hserve Hex. now rewrite (bind_Some _ (F _ _ t Hserve Hex)).
  - intros collected t1 Hp Hserve Hex.
    now rewrite (bind_Some _ Hp), (bind_Some _ (F _ _ t1 Hserve Hex)).
Qed.

Lemma investigateDiff_stops_at_first_failure_witness :
  investigateDiff (staticWorld scenarioStore) toFarcasterTimeModel (S TIMESTAMP_LENGTH)
    (mkRpcMetadataRetriever primaryClient) (mkRpcMetadataRetriever peerClient)
    (instant 20) (instant 29) []
  = Some (err unavailable,
          [GetSyncMetadataByPrefix primaryClient (Buffer_from "000000002")]).
Proof.
  exact (proj1 (@investigateDiff_stops_at_first_failure
                  (staticWorld scenarioStore) toFarcasterTimeModel (S TIMESTAMP_LENGTH)
                  primaryClient peerClient
                  (scenarioStore "primary") (scenarioStore "peer")
                  (instant 20) (instant 29) 20 29 [] eq_refl eq_refl)
           (staticWorld_serves scenarioStore primaryClient) eq_refl).
Defined.

(* ================================================================= *)
(** ** The collection against the count *)

(** X21. On a hub that serves and lists the trie of its messages, the
    collector and the optimized counter agree over a window whose start is
    not after its stop and whose common prefix has a node: the collector
    returns as many identifiers as the counter counts messages. *)
Theorem computeSyncIdsInSpan_matches_the_count
    (env : Env) (toFarcasterTime : number -> HubResult number)
    (client : HubRpcClient) (ids : list SyncId)
    (startTime stopTime : number) (s e : Z) (fuel : nat) (t u : Trace) :
  servesTrie env client (map syncIdBytes ids) ->
  listsTrie env client (map syncIdBytes ids) ->
  (forall id, In id ids -> representable (timestamp id)) ->
  toFarcasterTime startTime = ok (Int s) ->
  toFarcasterTime stopTime = ok (Int e) ->
  representable s -> representable e ->
  s <= e ->
  (TIMESTAMP_LENGTH < fuel)%nat ->
  trieExists (map syncIdBytes ids) (getCommonPrefix (timePrefix s) (timePrefix e))
  = true ->
  exists collected count t' u',
    computeSyncIdsInSpan env toFarcasterTime fuel (mkRpcMetadataRetriever client)
      startTime stopTime t
    = Some (ok collected, t') /\
    getNumMessagesInSpanOptimized toFarcasterTime fuel
      (RpcMetadataRetriever_getMetadata env (mkRpcMetadataRetriever client))
      startTime stopTime u
    = Some (ok count, u') /\
    Z.of_nat (List.length collected) = count.
Proof.
  intros Hserve Hlist Hids Hs He Rs Re Hle Hfuel Hex.
  destruct (computeSyncIdsInSpan_complete toFarcasterTime ids startTime stopTime
              t Hserve Hlist Hids Hs He Rs Re Hle Hfuel Hex) as (collected & t' & C & P).
  destruct (optimized_counter_on_trie toFarcasterTime ids startTime stopTime u
              Hserve Hids Hs He Rs Re Hle Hfuel) as (below & N).
  rewrite Hex in N.
  exists collected. eexists. exists t'. eexists.
  split; [exact C | split; [exact N|]].
  now rewrite (Permutation_length P), length_map.
Qed.

Lemma computeSyncIdsInSpan_matches_the_count_witness :
  exists collected count t' u',
    computeSyncIdsInSpan (staticWorld scenarioStore) toFarcasterTimeModel
      (S TIMESTAMP_LENGTH) (mkRpcMetadataRetriever primaryClient)
      (instant 0) (instant 10) []
    = Some (ok collected, t') /\
    scenarioCount 0 10 [] = Some (ok count, u') /\
    Z.of_nat (List.length collected) = count.
Proof.
  exact (@computeSyncIdsInSpan_matches_the_count
           (staticWorld scenarioStore) toFarcasterTimeModel primaryClient
           (scenarioStore "primary") (instant 0) (instant 10) 0 10
           (S TIMESTAMP_LENGTH) [] []
           (staticWorld_serves scenarioStore primaryClient)
           (staticWorld_lists scenarioStore primaryClient)
           (scenario_representable "primary")
           eq_refl eq_refl
           (@representable_small 0 ltac:(lia)) (@representable_small 10 ltac:(lia))
           ltac:(lia) (Nat.lt_succ_diag_r TIMESTAMP_LENGTH) eq_refl).
Defined.

(* ================================================================= *)
(** ** The choice of the peers *)

Section SortByKey.

Variable A : Type.
Local Abbreviation le := (fun a b : Z * A => fst a <= fst b).

Lemma insertByKey_perm (x : Z * A) (l : list (Z * A)) :
  Permutation (insertByKey x l) (x :: l).
Proof.
  induction l as [|y l IH]; [reflexivity|].
  cbn [insertByKey]. destruct (fst x <? fst y); [reflexivity|].
  rewrite IH. apply perm_swap.
Qed.

Lemma insertByKey_sorted (x : Z * A) (l : list (Z * A)) :
  StronglySorted le l -> StronglySorted le (insertByKey x l).
Proof.
  induction l as [|y l IH]; intros S.
  - repeat constructor.
  - inversion S as [|? ? S' F]; subst. cbn [insertByKey].
    destruct (fst x <? fst y) eqn:E.
    + apply Z.ltb_lt in E. constructor; [assumption|].
      constructor; [cbn; lia|].
      eapply Forall_impl; [|exact F]. cbn. intros; lia.
    + apply Z.ltb_ge in E. constructor; [now apply IH|].
      eapply Permutation_Forall; [symmetry; apply insertByKey_perm|].
      constructor; assumption.
Qed.

Lemma sortByKey_fold (l : list (Z * A)) :
  forall sorted,
    StronglySorted le sorted ->
    Permutation (fold_left (fun sorted x => insertByKey x sorted) l sorted) (sorted ++ l) /\
    StronglySorted le (fold_left (fun sorted x => insertByKey x sorted) l sorted).
Proof.
  induction l as [|x l IH]; intros sorted S.
  - cbn. now rewrite app_nil_r.
  - cbn [fold_left]. destruct (IH _ (insertByKey_sorted x S)) as [P S'].
    split; [|assumption]. rewrite P, insertByKey_perm.
    apply Permutation_middle.
Qed.

Lemma sortByKey_sorts (l : list (Z * A)) :
  Permutation (sortByKey l) l /\ StronglySorted le (sortByKey l).
Proof. apply (sortByKey_fold l (sorted := [])). constructor. Qed.

End SortByKey.

Lemma In_firstn {A} (n : nat) (l : list A) (x : A) : In x (firstn n l) -> In x l.
Proof.
  intros H. rewrite <- (firstn_skipn n l). apply in_or_app. now left.
Qed.

Lemma Array_slice0_In {A} (count : number) (l : list A) (x : A) :
  In x (Array_slice0 count l) -> In x l.
Proof.
  destruct count as [|z]; [contradiction|]. unfold Array_slice0.
  destruct (z <? 0); apply In_firstn.
Qed.

Lemma Array_slice0_map {A B} (f : A -> B) (count : number) (l : list A) :
  Array_slice0 count (map f l) = map f (Array_slice0 count l).
Proof.
  destruct count as [|z]; [reflexivity|]. unfold Array_slice0.
  rewrite length_map. destruct (z <? 0); apply firstn_map.
Qed.

(** [slice(0, count)] keeps the first [sliceCount count n] elements of an
    array of [n]. *)
Lemma Array_slice0_firstn {A} (count : number) (l : list A) :
  Array_slice0 count l = firstn (sliceCount count (List.length l)) l.
Proof.
  destruct count as [|z]; [reflexivity|]. unfold Array_slice0, sliceCount.
  destruct (z <? 0) eqn:E.
  - f_equal. apply Z.ltb_lt in E. lia.
  - destruct (Nat.le_gt_cases (Z.to_nat z) (List.length l)) as [L | L].
    + now rewrite Nat.min_l.
    + rewrite Nat.min_r by lia. now rewrite !firstn_all2 by lia.
Qed.

Lemma sliceCount_mono (count : number) (n m : nat) :
  (n <= m)%nat -> (sliceCount count n <= sliceCount count m)%nat.
Proof.
  intros L. destruct count as [|z]; unfold sliceCount; [lia|].
  destruct (z <? 0); lia.
Qed.

Lemma pickPeers_run (env : Env) (client : HubRpcClient) (count : number) (t : Trace) :
  let t' := t ++ [GetCurrentPeers client] in
  let resolve := fun peer =>
                   match rpcAddress peer with
                   | Some _ => match addressInfoString peer with
                               | ok s => Some s
                               | err _ => None
                               end
                   | None => None
                   end in
  match currentPeers env t client with
  | err e => pickPeers env (mkRpcMetadataRetriever client) count t = Some (err e, t')
  | ok contacts =>
      let keyed := combine (randomKeys env t' (List.length contacts)) contacts in
      exists sorted,
        pickPeers env (mkRpcMetadataRetriever client) count t
        = Some (ok (map resolve (map snd (Array_slice0 count sorted))), t') /\
        Permutation sorted keyed /\
        StronglySorted (fun a b : Z * ContactInfo => fst a <= fst b) sorted
  end.
Proof.
  intros t' resolve. unfold pickPeers.
  assert (E : getCurrentPeers env client t = Some (currentPeers env t client, t'))
    by reflexivity.
  cbn [_rpcClient]. rewrite (bind_Some _ E).
  destruct (currentPeers env t client) as [contacts | e]; [|reflexivity].
  cbv zeta. set (keyed := combine _ contacts).
  destruct (sortByKey_sorts keyed) as [P S].
  exists (sortByKey keyed). split; [|split; assumption].
  cbn [HubResult_map]. fold keyed. now rewrite Array_slice0_map.
Qed.

(** X22. [pickPeers] hands on the error of the hub that cannot list its
    contacts. Otherwise, each contact being dealt one random key, it puts
    the contacts in the order of their keys, smallest first, and returns
    the first [n] of them, resolved to addresses: [n] is the count asked
    for, or the number of contacts when that is less; for a count below
    zero it is the number of contacts less that many, so that all but the
    last are returned for -1; and for a count that is not a number it is
    zero. *)
Theorem pickPeers_sample (env : Env) (client : HubRpcClient) (count : number)
    (t : Trace) :
  let t' := t ++ [GetCurrentPeers client] in
  let resolve := fun peer =>
                   match rpcAddress peer with
                   | Some _ => match addressInfoString peer with
                               | ok s => Some s
                               | err _ => None
                               end
                   | None => None
                   end in
  match currentPeers env t client with
  | err e => pickPeers env (mkRpcMetadataRetriever client) count t = Some (err e, t')
  | ok contacts =>
      let keys := randomKeys env t' (List.length contacts) in
      List.length keys = List.length contacts ->
      let n := match count with
               | NaN => 0%nat
               | Int z => if z <? 0 then (List.length contacts - Z.to_nat (- z))%nat
                          else Nat.min (Z.to_nat z) (List.length contacts)
               end in
      exists sorted : list (Z * ContactInfo),
        Permutation sorted (combine keys contacts) /\
        StronglySorted (fun a b => fst a <= fst b) sorted /\
        pickPeers env (mkRpcMetadataRetriever client) count t
        = Some (ok (map resolve (map snd (firstn n sorted))), t')
  end.
Proof.
  intros t' resolve. pose proof (pickPeers_run env client count t) as H.
  cbv zeta in H. fold t' in H.
  destruct (currentPeers env t client) as [contacts | e]; [|exact H].
  intros keys L n. destruct H as (sorted & E & P & S).
  exists sorted. split; [exact P | split; [exact S|]].
  rewrite E, Array_slice0_firstn.
  rewrite (Permutation_length P), length_combine. fold keys. rewrite L, Nat.min_id.
  reflexivity.
Qed.

Lemma pickPeers_sample_witness :
  exists sorted : list (Z * ContactInfo),
    Permutation sorted
      (combine [0; 0] [mkContactInfo (Some "gossip") (ok "other");
                       mkContactInfo (Some "gossip") (ok "peer")]%string) /\
    StronglySorted (fun a b => fst a <= fst b) sorted /\
    pickPeers unreachablePeerWorld (mkRpcMetadataRetriever primaryClient) (Int (-1)) []
    = Some (ok (map (fun peer =>
                       match rpcAddress peer with
                       | Some _ => match addressInfoString peer with
                                   | ok s => Some s
                                   | err _ => None
                                   end
                       | None => None
                       end)
                    (map snd (firstn 1 sorted))),
            [GetCurrentPeers primaryClient]).
Proof.
  exact (@pickPeers_sample unreachablePeerWorld primaryClient (Int (-1)) [] eq_refl).
Defined.

(* ================================================================= *)
(** ** The times of day *)

Section TimesOfDay.

Local Open Scope string_scope.

Lemma splitColon_noColon (a : string) : noColon a = true -> splitColon a = [a].
Proof.
  induction a as [|ch a IH]; [reflexivity|].
  cbn [noColon splitColon]. intros H. apply andb_true_iff in H as [C N].
  apply negb_true_iff in C. rewrite C, (IH N). reflexivity.
Qed.

Lemma splitColon_app (a rest : string) :
  noColon a = true -> splitColon (a ++ ":" ++ rest) = a :: splitColon rest.
Proof.
  induction a as [|ch a IH]; [reflexivity|].
  cbn [noColon]. intros H. apply andb_true_iff in H as [C N].
  apply negb_true_iff in C. cbn [append splitColon]. rewrite C.
  change (a ++ String ":" rest) with (a ++ ":" ++ rest). now rewrite (IH N).
Qed.

Lemma splitColon_nonempty (s : string) : splitColon s <> [].
Proof.
  destruct s as [|ch s]; [discriminate|]. cbn [splitColon].
  destruct (Ascii.eqb ch ":"); [discriminate|].
  destruct (splitColon s); discriminate.
Qed.

(** X23. [parseTime] looks at the first three parts between colons and at
    nothing else: a string with fewer than three parts is rejected, one with
    three parts is rejected exactly when one of them is empty, and whatever
    follows a third colon is ignored. *)
Theorem parseTime_three_parts (clock : LocalClock) (a b c rest : string) :
  noColon a = true -> noColon b = true -> noColon c = true ->
  parseTime clock a = None /\
  parseTime clock (a ++ ":" ++ b) = None /\
  (parseTime clock (a ++ ":" ++ b ++ ":" ++ c) = None
   <-> a = "" \/ b = "" \/ c = "") /\
  parseTime clock (a ++ ":" ++ b ++ ":" ++ c ++ ":" ++ rest)
  = parseTime clock (a ++ ":" ++ b ++ ":" ++ c).
Proof.
  intros Na Nb Nc. unfold parseTime.
  rewrite !splitColon_app by assumption.
  rewrite !(splitColon_noColon _ Na), !(splitColon_noColon _ Nb),
    !(splitColon_noColon _ Nc).
  cbn [nth_error]. split; [|split; [|split]].
  - now rewrite andb_false_r.
  - now rewrite andb_false_r.
  - destruct a, b, c; cbn [truthy andb]; split;
      try discriminate; try (intros [H | [H | H]]; discriminate H); auto.
  - destruct (splitColon rest) eqn:E; [now apply splitColon_nonempty in E|].
    reflexivity.
Qed.

Lemma parseTime_three_parts_witness :
  parseTime epochDay "12" = None /\
  parseTime epochDay ("12" ++ ":" ++ "34") = None /\
  (parseTime epochDay ("12" ++ ":" ++ "34" ++ ":" ++ "") = None
   <-> "12" = "" \/ "34" = "" \/ "" = "") /\
  parseTime epochDay ("12" ++ ":" ++ "34" ++ ":" ++ "56" ++ ":" ++ "78")
  = parseTime epochDay ("12" ++ ":" ++ "34" ++ ":" ++ "56").
Proof.
  destruct (@parseTime_three_parts epochDay "12" "34" "" "78"
              eq_refl eq_refl eq_refl) as (A & B & C & _).
  destruct (@parseTime_three_parts epochDay "12" "34" "56" "78"
              eq_refl eq_refl eq_refl) as (_ & _ & _ & D).
  exact (conj A (conj B (conj C D))).
Defined.

Lemma isDigit_cases (ch : ascii) :
  isDigit ch = true ->
  In ch ["0"; "1"; "2"; "3"; "4"; "5"; "6"; "7"; "8"; "9"]%char.
Proof.
  destruct ch as [[] [] [] [] [] [] [] []]; intros H;
    try discriminate H; cbn; tauto.
Qed.

Ltac digit_cases H :=
  apply isDigit_cases in H;
  repeat (destruct H as [H | H]; [subst|]); [..|contradiction].

Lemma allDigits_noColon (s : string) : allDigits s = true -> noColon s = true.
Proof.
  induction s as [|ch s IH]; [reflexivity|].
  cbn [allDigits noColon]. intros H. apply andb_true_iff in H as [D A].
  rewrite (IH A), andb_true_r. digit_cases D; reflexivity.
Qed.

Lemma digitValue_digit (ch : ascii) :
  isDigit ch = true -> digitValue 10 ch = Some (Z.of_nat (nat_of_ascii ch) - 48).
Proof. intros D. digit_cases D; reflexivity. Qed.

Lemma leadingDigits_decimal (s : string) :
  allDigits s = true ->
  forall acc, leadingDigits 10 s (Some acc) = Some (decimalValue_from acc s).
Proof.
  induction s as [|ch s IH]; intros H acc; [reflexivity|].
  cbn [allDigits] in H. apply andb_true_iff in H as [D A].
  cbn [leadingDigits decimalValue_from]. rewrite (digitValue_digit _ D).
  now rewrite (IH A).
Qed.

Lemma parseInt_decimal (s : string) :
  isDecimal s = true -> parseInt s = Int (decimalValue s).
Proof.
  destruct s as [|ch s]; [discriminate|].
  cbn [isDecimal allDigits]. intros H. apply andb_true_iff in H as [D A].
  assert (L : leadingDigits 10 (String ch s) None
              = Some (decimalValue (String ch s))).
  { cbn [leadingDigits]. rewrite (digitValue_digit _ D).
    unfold decimalValue. cbn [decimalValue_from].
    now rewrite (leadingDigits_decimal _ A). }
  assert (V : forall v, Int (1 * v) = Int v) by (intros; f_equal; lia).
  assert (T : trimStart (String ch s) = String ch s).
  { cbn [trimStart]. replace (isWhiteSpace ch) with false; [reflexivity|].
    digit_cases D; reflexivity. }
  unfold parseInt. rewrite T. clear T.
  digit_cases D; cbv zeta beta iota; try (rewrite L; apply V).
  (* the digit is 0: what follows is not an x *)
  destruct s as [|c2 s2]; [reflexivity|].
  cbn [allDigits] in A. apply andb_true_iff in A as [D2 A2].
  digit_cases D2; cbv zeta beta iota; rewrite L; apply V.
Qed.

(** X24. For hours, minutes and seconds written in decimal digits,
    [parseTime] returns the instant at which the local clock shows that
    many hours, minutes and seconds counted on from the start of today:
    the instant [UTC] gives for that local time, if a date can hold it. The
    three numbers are not held to the ranges of a clock. On a platform whose
    offset does not change, the instant lies that many hours, minutes and
    seconds after the local midnight. *)
Theorem parseTime_decimal_parts (clock : LocalClock)
    (hours minutes seconds : string) :
  isDecimal hours = true -> isDecimal minutes = true -> isDecimal seconds = true ->
  let time := decimalValue hours * 3600000
              + decimalValue minutes * 60000 + decimalValue seconds * 1000 in
  let result := parseTime clock (hours ++ ":" ++ minutes ++ ":" ++ seconds) in
  result = Some (TimeClip (UTC clock (localDayStart clock + time))) /\
  (forall offset : Z,
     (forall t, UTC clock t = t - offset) ->
     result = Some (TimeClip (UTC clock (localDayStart clock) + time))).
Proof.
  intros Hh Hm Hs time result.
  assert (N : forall x, isDecimal x = true -> noColon x = true /\ truthy (Some x) = true).
  { intros [|ch x] H; [discriminate|]. split; [|reflexivity].
    now apply allDigits_noColon. }
  destruct (N _ Hh) as [Nh Th], (N _ Hm) as [Nm Tm], (N _ Hs) as [Ns Ts].
  assert (E : result = Some (TimeClip (UTC clock (localDayStart clock + time)))).
  { subst result. unfold parseTime. rewrite !splitColon_app by assumption.
    rewrite (splitColon_noColon _ Ns). cbn [nth_error]. rewrite Th, Tm, Ts.
    cbn [andb]. rewrite !parseInt_decimal by assumption.
    unfold Date_setHours. now rewrite Z.add_0_r. }
  split; [exact E|].
  intros offset H. rewrite E, !H. do 2 f_equal. lia.
Qed.

Lemma parseTime_decimal_parts_witness :
  parseTime epochDay ("12" ++ ":" ++ "34" ++ ":" ++ "56")
  = Some (Int (FARCASTER_EPOCH + (12 * 3600000 + 34 * 60000 + 56 * 1000))) /\
  parseTime epochDay ("25" ++ ":" ++ "61" ++ ":" ++ "7")
  = Some (Int (FARCASTER_EPOCH + (25 * 3600000 + 61 * 60000 + 7 * 1000))).
Proof.
  split.
  - exact (proj1 (@parseTime_decimal_parts epochDay "12" "34" "56"
                    eq_refl eq_refl eq_refl)).
  - exact (proj1 (@parseTime_decimal_parts epochDay "25" "61" "7"
                    eq_refl eq_refl eq_refl)).
Defined.

End TimesOfDay.

(* ================================================================= *)
(** ** The records of a session *)

Section Records.

Variable outfile : string.

Lemma appendsAtMost_nil (n : nat) : appendsAtMost outfile n [].
Proof. split; [cbn; lia | constructor]. Qed.

Lemma appendsAtMost_app (n k : nat) (d1 d2 : list Event) :
  appendsAtMost outfile n d1 -> appendsAtMost outfile k d2 ->
  appendsAtMost outfile (n + k) (d1 ++ d2).
Proof.
  intros [L1 F1] [L2 F2]. split.
  - rewrite filter_app, length_app. lia.
  - apply Forall_app. now split.
Qed.

Lemma Appends_ret {A} (a : A) : Appends outfile 0 (ret a).
Proof.
  intros t x t' H. inversion H; subst. exists []. split.
  - now rewrite app_nil_r.
  - apply appendsAtMost_nil.
Qed.

Lemma Appends_call {A} (answer : Trace -> A) (e : Event) :
  isAppendFile e = false -> Appends outfile 0 (call answer e).
Proof.
  intros N t x t' H. inversion H; subst. exists [e]. split; [reflexivity|].
  split.
  - cbn. rewrite N. cbn. lia.
  - constructor; [|constructor]. now destruct e.
Qed.

Lemma Appends_weaken {A} (n n' : nat) (m : M A) :
  (n <= n')%nat -> Appends outfile n m -> Appends outfile n' m.
Proof.
  intros L H t x t' E. destruct (H t x t' E) as (d & -> & C & F).
  exists d. split; [reflexivity|]. split; [lia | assumption].
Qed.

Lemma Appends_bind {A B} (n k : nat) (m : M A) (f : A -> M B) :
  Appends outfile n m -> (forall a, Appends outfile k (f a)) ->
  Appends outfile (n + k) (bind m f).
Proof.
  intros Hm Hf t x t' E. unfold bind in E.
  destruct (m t) as [[a t1]|] eqn:E1; [|discriminate].
  destruct (Hm _ _ _ E1) as (d1 & -> & C1).
  destruct (Hf a _ _ _ E) as (d2 & -> & C2).
  exists (d1 ++ d2). split; [now rewrite app_assoc|].
  now apply appendsAtMost_app.
Qed.

Lemma Appends_bind0 {A B} (m : M A) (f : A -> M B) :
  Appends outfile 0 m -> (forall a, Appends outfile 0 (f a)) ->
  Appends outfile 0 (bind m f).
Proof. intros Hm Hf. exact (@Appends_bind A B 0 0 m f Hm Hf). Qed.

Lemma Appends_forEach {A S} (k : nat) (l : list A) (body : S -> A -> M S) :
  (forall s x, In x l -> Appends outfile k (body s x)) ->
  forall s, Appends outfile (k * List.length l) (forEach l body s).
Proof.
  induction l as [|x l IH]; intros H s.
  - cbn [forEach]. eapply Appends_weaken; [|apply Appends_ret]. lia.
  - cbn [forEach List.length]. eapply Appends_weaken;
      [|apply (@Appends_bind _ _ k (k * List.length l))].
    + lia.
    + apply H. now left.
    + intros s'. apply IH. intros s0 y Hy. apply H. now right.
Qed.

Lemma Appends_forEach0 {A S} (l : list A) (body : S -> A -> M S) :
  (forall s x, Appends outfile 0 (body s x)) ->
  forall s, Appends outfile 0 (forEach l body s).
Proof.
  intros H s. eapply Appends_weaken; [|apply (@Appends_forEach _ _ 0)]; auto.
Qed.

Variable env : Env.
Variable toFarcasterTime : number -> HubResult number.

Lemma Appends_appendFile (data : list (string * JSON)) :
  Appends outfile 1 (appendFile env outfile data).
Proof.
  intros t x t' H. inversion H; subst. exists [AppendFile outfile data].
  split; [reflexivity|]. split; [cbn; lia | now repeat constructor].
Qed.

(** A retriever that appends to no file. *)
Local Abbreviation quiet := (fun R => forall p, Appends outfile 0 (getMetadata R p)).

Lemma rpc_quiet (r : RpcMetadataRetriever) :
  quiet (RpcMetadataRetriever_getMetadata env r).
Proof. intros p. now apply Appends_call. Qed.

Lemma traverseRange_quiet {A : Type} (R : MetadataRetriever)
    (f : TrieNodeMetadataResponse -> A -> A) (start stop : Buffer) (fuel : nat) :
  quiet R ->
  forall node acc, Appends outfile 0 (traverseRange fuel node start stop R f acc).
Proof.
  intros HR. induction fuel as [|fuel' IH]; intros node acc;
    [intros t x t' H; discriminate|].
  rewrite traverseRange_S. apply Appends_bind0; [apply HR|].
  intros [value | e]; [|apply Appends_ret].
  apply Appends_bind0; [|intros; apply Appends_ret].
  apply Appends_forEach0. intros a child. unfold visitChild.
  destruct (Buffer_compare (prefix child) start =? 0); [apply Appends_ret|].
  destruct (isPrefix start (prefix child) || isPrefix stop (prefix child)).
  - apply Appends_bind0; [apply IH | intros; apply Appends_ret].
  - destruct ((Buffer_compare (prefix child) start =? 1)
              && (Buffer_compare (prefix child) stop =? -1)); apply Appends_ret.
Qed.

Lemma getPrefixInfo_quiet (R : MetadataRetriever) (startTime stopTime : number) :
  quiet R -> Appends outfile 0 (getPrefixInfo toFarcasterTime R startTime stopTime).
Proof.
  intros HR. unfold getPrefixInfo.
  destruct (getTimePrefix toFarcasterTime startTime); [|apply Appends_ret].
  destruct (getTimePrefix toFarcasterTime stopTime); [|apply Appends_ret].
  apply Appends_bind0; [apply HR|].
  intros [v | e]; apply Appends_ret.
Qed.

Lemma getNumMessagesInSpanOptimized_quiet (fuel : nat) (R : MetadataRetriever)
    (startTime stopTime : number) :
  quiet R ->
  Appends outfile 0
    (getNumMessagesInSpanOptimized toFarcasterTime fuel R startTime stopTime).
Proof.
  intros HR. unfold getNumMessagesInSpanOptimized.
  apply Appends_bind0; [now apply getPrefixInfo_quiet|].
  intros [info | e]; [|apply Appends_ret].
  apply Appends_bind0; [now apply traverseRange_quiet|].
  intros [[u | e] count]; apply Appends_ret.
Qed.

Lemma computeSyncHealthMessageStats_quiet (fuel : nat) (startTime stopTime : number)
    (R R' : MetadataRetriever) :
  quiet R -> quiet R' ->
  Appends outfile 0
    (computeSyncHealthMessageStats toFarcasterTime fuel startTime stopTime R R').
Proof.
  intros HR HR'. unfold computeSyncHealthMessageStats.
  apply Appends_bind0; [now apply getNumMessagesInSpanOptimized_quiet|].
  intros p. apply Appends_bind0; [now apply getNumMessagesInSpanOptimized_quiet|].
  intros q. destruct p; [destruct q|]; apply Appends_ret.
Qed.

Lemma computeSyncIdsInSpan_quiet (fuel : nat) (r : RpcMetadataRetriever)
    (startTime stopTime : number) :
  Appends outfile 0 (computeSyncIdsInSpan env toFarcasterTime fuel r startTime stopTime).
Proof.
  unfold computeSyncIdsInSpan.
  apply Appends_bind0; [apply getPrefixInfo_quiet, rpc_quiet|].
  intros [info | e]; [|apply Appends_ret].
  apply Appends_bind0; [apply traverseRange_quiet, rpc_quiet|].
  intros [[u | e] prefixes]; [|apply Appends_ret].
  apply Appends_bind0; [|intros; apply Appends_ret].
  unfold collectSyncIds. apply Appends_forEach0. intros syncIds p.
  apply Appends_bind0; [now apply Appends_call|].
  intros [v | e]; apply Appends_ret.
Qed.

Lemma tryPushingMissingMessages_quiet (r r' : RpcMetadataRetriever)
    (missingSyncIds : list Buffer) :
  Appends outfile 0 (tryPushingMissingMessages env r r' missingSyncIds).
Proof.
  unfold tryPushingMissingMessages.
  destruct (List.length missingSyncIds =? 0)%nat; [apply Appends_ret|].
  apply Appends_bind0; [now apply Appends_call|].
  intros [messages | e]; [|apply Appends_ret].
  apply Appends_bind0; [|intros; apply Appends_ret].
  apply Appends_forEach0. intros results m.
  apply Appends_bind0; [now apply Appends_call | intros; apply Appends_ret].
Qed.

Lemma investigateDiff_quiet (fuel : nat) (r r' : RpcMetadataRetriever)
    (startTime stopTime : number) :
  Appends outfile 0 (investigateDiff env toFarcasterTime fuel r r' startTime stopTime).
Proof.
  unfold investigateDiff.
  apply Appends_bind0; [apply computeSyncIdsInSpan_quiet|].
  intros [primaryIds | e]; [|apply Appends_ret].
  apply Appends_bind0; [apply computeSyncIdsInSpan_quiet|].
  intros [peerIds | e]; [|apply Appends_ret].
  apply Appends_bind0; [apply tryPushingMissingMessages_quiet|].
  intros [toPeer | e]; [|apply Appends_ret].
  apply Appends_bind0; [apply tryPushingMissingMessages_quiet|].
  intros [toPrimary | e]; apply Appends_ret.
Qed.

Lemma createClient_quiet (transport : Transport) (address : string) :
  Appends outfile 0 (createClient env transport address).
Proof. now apply Appends_call. Qed.

Lemma connectPeer_quiet (peer : string) : Appends outfile 0 (connectPeer env peer).
Proof.
  unfold connectPeer, getInsecureHubRpcClient, getSSLHubRpcClient.
  apply Appends_bind0; [apply createClient_quiet|].
  intros [c|].
  - apply Appends_bind0; [now apply Appends_call|].
    intros [readyErr|]; [apply Appends_ret|].
    apply Appends_bind0; [apply createClient_quiet | intros; apply Appends_ret].
  - apply Appends_bind0; [apply createClient_quiet | intros; apply Appends_ret].
Qed.

Lemma onPeerReady_quiet (peer : string) (readyErr : option HubError)
    (c : HubRpcClient) :
  Appends outfile 0 (onPeerReady env peer readyErr c).
Proof.
  unfold onPeerReady. destruct readyErr; [|apply Appends_ret].
  apply Appends_bind0; [apply createClient_quiet | intros; apply Appends_ret].
Qed.

Variable fuel : nat.

(** One peer's pass calls [appendFile] at most once. *)
Lemma reconcilePeer_appends (startTime stopTime : number) (primaryNode : string)
    (primaryMetadataRetriever : RpcMetadataRetriever) (peer : string) :
  Appends outfile 1
    (reconcilePeer env toFarcasterTime fuel startTime stopTime primaryNode outfile
       primaryMetadataRetriever peer).
Proof.
  unfold reconcilePeer.
  apply (@Appends_bind _ _ 0 1); [apply connectPeer_quiet|].
  intros [[c readyErr]|]; [|eapply Appends_weaken; [|apply Appends_ret]; lia].
  apply (@Appends_bind _ _ 0 1);
    [apply computeSyncHealthMessageStats_quiet; apply rpc_quiet|].
  intros stats.
  apply (@Appends_bind _ _ 1 0).
  - destruct stats as [value | e];
      [|eapply Appends_weaken; [|apply Appends_ret]; lia].
    apply (@Appends_bind _ _ 0 1); [|intros; apply Appends_appendFile].
    destruct (negb (computeDiff value =? 0)); [|apply Appends_ret].
    apply Appends_bind0; [apply investigateDiff_quiet|].
    intros [r | e]; apply Appends_ret.
  - intros written. apply Appends_bind0; [apply onPeerReady_quiet|].
    intros current. destruct written as [u|]; [|apply Appends_ret].
    apply Appends_bind0; [now apply Appends_call|].
    intros; apply Appends_ret.
Qed.

(** The loop calls it at most once for each selected peer. *)
Lemma reconcilePeers_appends (startTime stopTime : number) (primaryNode : string)
    (primaryMetadataRetriever : RpcMetadataRetriever) (peers : list (option string)) :
  Appends outfile (List.length peers)
    (reconcilePeers env toFarcasterTime fuel startTime stopTime primaryNode outfile
       primaryMetadataRetriever peers).
Proof.
  unfold reconcilePeers.
  eapply Appends_weaken; [|apply (@Appends_forEach _ _ 1)].
  - lia.
  - intros completion [peer|] _.
    + destruct completion; [|eapply Appends_weaken; [|apply Appends_ret]; lia].
      apply reconcilePeer_appends.
    + destruct completion; eapply Appends_weaken; try apply Appends_ret; lia.
Qed.

Lemma pickPeers_length (r : RpcMetadataRetriever) (count : number)
    (t : Trace) (peers : HubResult (list (option string))) (t' : Trace) :
  pickPeers env r count t = Some (peers, t') ->
  t' = t ++ [GetCurrentPeers (_rpcClient r)] /\
  match peers with
  | ok value =>
      (List.length value
       <= sliceCount count
            match currentPeers env t (_rpcClient r) with
            | ok contacts => List.length contacts
            | err _ => 0
            end)%nat
  | err _ => True
  end.
Proof.
  unfold pickPeers, bind, getCurrentPeers, call, ret. intros H.
  inversion H; subst; clear H. split; [reflexivity|].
  destruct (currentPeers env t (_rpcClient r)) as [contacts | e]; [|exact I].
  cbn [HubResult_map]. rewrite length_map, Array_slice0_firstn, length_firstn.
  etransitivity; [apply Nat.le_min_l|]. apply sliceCount_mono.
  rewrite length_map.
  destruct (sortByKey_sorts
              (combine (randomKeys env (t ++ [GetCurrentPeers (_rpcClient r)])
                          (List.length contacts)) contacts)) as [P _].
  rewrite (Permutation_length P), length_combine. apply Nat.le_min_r.
Qed.

Variable clock : LocalClock.

Lemma printSyncHealth_appends (startTimeOfDay stopTimeOfDay : string)
    (maxNumPeers : number) (primaryNode : string)
    (t : Trace) (completion : Completion) (t' : Trace) :
  printSyncHealth env toFarcasterTime fuel clock startTimeOfDay stopTimeOfDay
    maxNumPeers primaryNode outfile t
  = Some (completion, t') ->
  let primaryRpcClient := mkHubRpcClient SSL primaryNode in
  let t2 := (t ++ [CreateClient primaryRpcClient]) ++ [WaitForReady primaryRpcClient] in
  let listed := match currentPeers env t2 primaryRpcClient with
                | ok contacts => List.length contacts
                | err _ => 0%nat
                end in
  exists d, t' = t ++ d /\ appendsAtMost outfile (sliceCount maxNumPeers listed) d.
Proof.
  intros H primaryRpcClient t2 listed.
  assert (Q : forall (d : list Event) (n : nat),
             Forall (fun e => isAppendFile e = false) d ->
             appendsAtMost outfile n d).
  { intros d n F. split.
    - replace (filter isAppendFile d) with (@nil Event); [cbn; lia|].
      symmetry. induction F as [|e d E F IH]; [reflexivity|].
      cbn [filter]. now rewrite E.
    - eapply Forall_impl; [|exact F]. intros e E. now destruct e. }
  unfold printSyncHealth in H.
  destruct (parseTime clock startTimeOfDay) as [startTime|];
    [|inversion H; subst; exists []; split; [now rewrite app_nil_r | now apply Q]].
  destruct (parseTime clock stopTimeOfDay) as [stopTime|];
    [|inversion H; subst; exists []; split; [now rewrite app_nil_r | now apply Q]].
  unfold bind at 1 in H. unfold getSSLHubRpcClient, createClient, call at 1 in H.
  fold primaryRpcClient in H.
  destruct (createRaises env t primaryRpcClient).
  { inversion H; subst. exists [CreateClient primaryRpcClient].
    split; [reflexivity | apply Q; now repeat constructor]. }
  unfold bind at 1 in H. unfold waitForReady, call at 1 in H. fold t2 in H.
  assert (E2 : t2 = t ++ [CreateClient primaryRpcClient; WaitForReady primaryRpcClient])
    by (unfold t2; now rewrite <- app_assoc).
  destruct (waitRaises env (t ++ [CreateClient primaryRpcClient]) primaryRpcClient).
  { inversion H; subst. eexists. split; [exact E2 | apply Q; now repeat constructor]. }
  destruct (readyError env (t ++ [CreateClient primaryRpcClient]) primaryRpcClient).
  { inversion H; subst. eexists. split; [exact E2 | apply Q; now repeat constructor]. }
  unfold bind at 1 in H.
  destruct (pickPeers env (mkRpcMetadataRetriever primaryRpcClient) maxNumPeers t2)
    as [[peers t3]|] eqn:P; [|discriminate].
  apply pickPeers_length in P as [-> L]. cbn [_rpcClient] in L, H. fold listed in L.
  assert (E3 : t2 ++ [GetCurrentPeers primaryRpcClient]
               = t ++ [CreateClient primaryRpcClient; WaitForReady primaryRpcClient;
                       GetCurrentPeers primaryRpcClient])
    by (rewrite E2, <- app_assoc; reflexivity).
  destruct peers as [value | e].
  2:{ inversion H; subst. eexists. split; [exact E3 | apply Q; now repeat constructor]. }
  unfold bind at 1 in H.
  destruct (reconcilePeers env toFarcasterTime fuel startTime stopTime primaryNode
              outfile (mkRpcMetadataRetriever primaryRpcClient) value
              (t2 ++ [GetCurrentPeers primaryRpcClient])) as [[c t4]|] eqn:Lp;
    [|discriminate].
  destruct (@reconcilePeers_appends _ _ _ _ _ _ _ _ Lp) as (d & Ed & [C F]).
  subst t4.
  rewrite E3 in H.
  destruct c.
  - unfold bind, closeClient, call, ret in H. inversion H; subst.
    exists (([CreateClient primaryRpcClient; WaitForReady primaryRpcClient;
              GetCurrentPeers primaryRpcClient] ++ d) ++ [CloseClient primaryRpcClient]).
    split; [now rewrite !app_assoc|]. split.
    + rewrite !filter_app, !length_app. cbn. lia.
    + repeat (apply Forall_app; split); try assumption; now repeat constructor.
  - inversion H; subst.
    exists ([CreateClient primaryRpcClient; WaitForReady primaryRpcClient;
             GetCurrentPeers primaryRpcClient] ++ d).
    split; [now rewrite !app_assoc|]. split.
    + rewrite !filter_app, !length_app. cbn. lia.
    + repeat (apply Forall_app; split); try assumption; now repeat constructor.
Qed.

End Records.

(** X25. Whatever the hubs answer, a session that finishes has called
    [appendFile] at most once for each peer it selected, and on no file but
    [outfile]. The peers selected are what [slice(0, maxNumPeers)] keeps of
    the contacts the primary lists: no more than [maxNumPeers] of them when
    that is zero or more, none when it is not a number, and, when it is
    below zero, all the contacts but the last so many. *)
Theorem printSyncHealth_appends_at_most
    (env : Env) (toFarcasterTime : number -> HubResult number) (fuel : nat)
    (clock : LocalClock) (startTimeOfDay stopTimeOfDay : string)
    (maxNumPeers : number)
    (primaryNode outfile : string) (t : Trace) (completion : Completion) (t' : Trace) :
  printSyncHealth env toFarcasterTime fuel clock startTimeOfDay stopTimeOfDay
    maxNumPeers primaryNode outfile t
  = Some (completion, t') ->
  let primaryRpcClient := mkHubRpcClient SSL primaryNode in
  let t2 := (t ++ [CreateClient primaryRpcClient]) ++ [WaitForReady primaryRpcClient] in
  let listed := match currentPeers env t2 primaryRpcClient with
                | ok contacts => List.length contacts
                | err _ => 0%nat
                end in
  let selected := match maxNumPeers with
                  | NaN => 0%nat
                  | Int z => if z <? 0 then (listed - Z.to_nat (- z))%nat
                             else Nat.min (Z.to_nat z) listed
                  end in
  exists d,
    t' = t ++ d /\
    (List.length (filter isAppendFile d) <= selected)%nat /\
    Forall (fun e => match e with
                     | AppendFile path _ => path = outfile
                     | _ => True
                     end) d.
Proof. apply printSyncHealth_appends. Qed.

Lemma printSyncHealth_appends_at_most_witness :
  (exists completion t' d,
     session "00:00:00" "00:00:10" [] = Some (completion, t') /\
     t' = [] ++ d /\
     (List.length (filter isAppendFile d) <= 1)%nat /\
     Forall (fun e => match e with
                      | AppendFile path _ => path = "out.log"%string
                      | _ => True
                      end) d) /\
  (exists completion t' d,
     printSyncHealth unreachablePeerWorld toFarcasterTimeModel (S TIMESTAMP_LENGTH)
       epochDay "00:00:00" "00:00:10" (Int (-1)) "primary" "out.log" []
     = Some (completion, t') /\
     t' = [] ++ d /\
     (List.length (filter isAppendFile d) <= 1)%nat /\
     Forall (fun e => match e with
                      | AppendFile path _ => path = "out.log"%string
                      | _ => True
                      end) d).
Proof.
  split.
  - assert (E : exists completion t',
               session "00:00:00" "00:00:10" [] = Some (completion, t'))
      by (vm_compute; eexists; eexists; reflexivity).
    destruct E as (completion & t' & E).
    exists completion, t'.
    destruct (printSyncHealth_appends_at_most _ _ _ _ _ _ _ _ _ _ E) as (d & H).
    exists d. split; [exact E | exact H].
  - assert (E : exists completion t',
               printSyncHealth unreachablePeerWorld toFarcasterTimeModel
                 (S TIMESTAMP_LENGTH) epochDay "00:00:00" "00:00:10" (Int (-1))
                 "primary" "out.log" []
               = Some (completion, t'))
      by (vm_compute; eexists; eexists; reflexivity).
    destruct E as (completion & t' & E).
    exists completion, t'.
    destruct (printSyncHealth_appends_at_most _ _ _ _ _ _ _ _ _ _ E) as (d & H).
    exists d. split; [exact E | exact H].
Defined.

(** With [maxNumPeers] at -1 and two contacts listed, one peer is selected
    and one record is appended. *)
Example printSyncHealth_negative_count :
  option_map (fun r => (fst r, List.length (filter isAppendFile (snd r))))
    (printSyncHealth unreachablePeerWorld toFarcasterTimeModel (S TIMESTAMP_LENGTH)
       epochDay "00:00:00" "00:00:10" (Int (-1)) "primary" "out.log" [])
  = Some (Returned, 1%nat).
Proof. vm_compute. reflexivity. Qed.

(* ================================================================= *)
(** ** The primary of a session *)

(** X26. The primary is reached over the secure transport only. When its
    client cannot be created, or does not become ready, the run ends with
    the exception and nothing else has happened; when the primary cannot
    list its peers the run returns at once; in these cases the client, if
    there is one, is left open. When no peer is asked for, or none of the
    contacts listed resolves to an address, no peer is contacted: the run
    closes the primary's client and returns. *)
Theorem printSyncHealth_primary_only
    (env : Env) (toFarcasterTime : number -> HubResult number) (fuel : nat)
    (clock : LocalClock) (startTimeOfDay stopTimeOfDay : string) (maxNumPeers : number)
    (primaryNode outfile : string) (startTime stopTime : number) (t : Trace) :
  parseTime clock startTimeOfDay = Some startTime ->
  parseTime clock stopTimeOfDay = Some stopTime ->
  let primaryRpcClient := mkHubRpcClient SSL primaryNode in
  let t1 := t ++ [CreateClient primaryRpcClient] in
  let t2 := t1 ++ [WaitForReady primaryRpcClient] in
  let t3 := t2 ++ [GetCurrentPeers primaryRpcClient] in
  let run := printSyncHealth env toFarcasterTime fuel clock
               startTimeOfDay stopTimeOfDay maxNumPeers primaryNode outfile t in
  if createRaises env t primaryRpcClient then run = Some (Raised, t1)
  else if waitRaises env t1 primaryRpcClient then run = Some (Raised, t2)
  else match readyError env t1 primaryRpcClient with
       | Some _ => run = Some (Raised, t2)
       | None =>
           match currentPeers env t2 primaryRpcClient with
           | err _ => run = Some (Returned, t3)
           | ok contacts =>
               maxNumPeers = Int 0 \/
               Forall (fun contact => rpcAddress contact = None \/
                                      isOk (addressInfoString contact) = false)
                      contacts ->
               run = Some (Returned, t3 ++ [CloseClient primaryRpcClient])
           end
       end.
Proof.
  intros Hs He primaryRpcClient t1 t2 t3 run. subst run.
  unfold printSyncHealth. rewrite Hs, He.
  unfold getSSLHubRpcClient, createClient, waitForReady.
  assert (C : call (fun u => if createRaises env u primaryRpcClient
                             then None else Some primaryRpcClient)
                   (CreateClient primaryRpcClient) t
              = Some (if createRaises env t primaryRpcClient
                      then None else Some primaryRpcClient, t1)) by reflexivity.
  fold primaryRpcClient. rewrite (bind_Some _ C).
  destruct (createRaises env t primaryRpcClient); [reflexivity|].
  assert (W : call (fun u => if waitRaises env u primaryRpcClient
                             then None else Some (readyError env u primaryRpcClient))
                   (WaitForReady primaryRpcClient) t1
              = Some (if waitRaises env t1 primaryRpcClient
                      then None else Some (readyError env t1 primaryRpcClient), t2))
    by reflexivity.
  rewrite (bind_Some _ W).
  destruct (waitRaises env t1 primaryRpcClient); [reflexivity|].
  destruct (readyError env t1 primaryRpcClient); [reflexivity|].
  pose proof (pickPeers_run env primaryRpcClient maxNumPeers t2) as P.
  cbv zeta in P. fold t3 in P.
  destruct (currentPeers env t2 primaryRpcClient) as [contacts | e].
  2:{ now rewrite (bind_Some _ P). }
  destruct P as (sorted & P & Perm & _).
  intros H. rewrite (bind_Some _ P).
  set (resolve := fun peer : ContactInfo => _) in *.
  assert (N : Forall (fun p => p = None)
                (map resolve (map snd (Array_slice0 maxNumPeers sorted)))).
  { destruct H as [-> | H].
    - constructor.
    - apply Forall_forall. intros p Hp.
      apply in_map_iff in Hp as (contact & <- & Hc).
      apply in_map_iff in Hc as ([k x] & <- & Hx).
      apply Array_slice0_In in Hx.
      pose proof (Permutation_in _ Perm Hx) as I. apply in_combine_r in I.
      rewrite Forall_forall in H. cbn [snd]. unfold resolve.
      destruct (H x I) as [-> | A]; [reflexivity|].
      destruct (rpcAddress x); [|reflexivity].
      now destruct (addressInfoString x). }
  unfold reconcilePeers.
  match goal with
  | |- context [forEach ?l ?body Returned] =>
      assert (F : forEach l body Returned t3 = Some (Returned, t3))
  end.
  { apply forEach_unchanged. intros p Hp.
    rewrite Forall_forall in N. now rewrite (N p Hp). }
  now rewrite (bind_Some _ F).
Qed.

Lemma printSyncHealth_primary_only_witness :
  printSyncHealth sessionWorld toFarcasterTimeModel (S TIMESTAMP_LENGTH) epochDay
    "00:00:00" "00:00:10" (Int 0) "primary" "out.log" []
  = Some (Returned,
          [CreateClient primaryClient; WaitForReady primaryClient;
           GetCurrentPeers primaryClient; CloseClient primaryClient]).
Proof.
  refine (@printSyncHealth_primary_only sessionWorld toFarcasterTimeModel
            (S TIMESTAMP_LENGTH) epochDay "00:00:00" "00:00:10" (Int 0)
            "primary" "out.log" _ _ [] eq_refl eq_refl _).
  now left.
Defined.

(* ================================================================= *)
(** ** A peer that cannot be connected to *)

Lemma bind_assoc {A B C} (m : M A) (f : A -> M B) (g : B -> M C) (t : Trace) :
  bind (bind m f) g t = bind m (fun a => bind (f a) g) t.
Proof. unfold bind. now destruct (m t) as [[a t1]|]. Qed.

Lemma forEach_raised {A} (l : list A) (body : Completion -> A -> M Completion)
    (t : Trace) :
  (forall x, body Raised x t = Some (Raised, t)) ->
  forEach l body Raised t = Some (Raised, t).
Proof. intros H. apply forEach_unchanged. intros x _. apply H. Qed.

(** X27. When, for one of the selected peers, neither an insecure nor a
    secure client can be created, the passes of the peers before it having
    returned, the exception ends the whole session there: the peers that
    were to follow are not contacted, nothing more is appended, and the
    primary's client is not closed. *)
Theorem printSyncHealth_exception_ends_session
    (env : Env) (toFarcasterTime : number -> HubResult number) (fuel : nat)
    (clock : LocalClock) (startTimeOfDay stopTimeOfDay : string)
    (maxNumPeers : number)
    (primaryNode outfile : string) (startTime stopTime : number)
    (before : list (option string)) (peer : string) (others : list (option string))
    (t t3 t4 : Trace) :
  parseTime clock startTimeOfDay = Some startTime ->
  parseTime clock stopTimeOfDay = Some stopTime ->
  let primaryRpcClient := mkHubRpcClient SSL primaryNode in
  let t1 := t ++ [CreateClient primaryRpcClient] in
  let t2 := t1 ++ [WaitForReady primaryRpcClient] in
  createRaises env t primaryRpcClient = false ->
  waitRaises env t1 primaryRpcClient = false ->
  readyError env t1 primaryRpcClient = None ->
  pickPeers env (mkRpcMetadataRetriever primaryRpcClient) maxNumPeers t2
  = Some (ok (before ++ Some peer :: others), t3) ->
  reconcilePeers env toFarcasterTime fuel startTime stopTime primaryNode outfile
    (mkRpcMetadataRetriever primaryRpcClient) before t3
  = Some (Returned, t4) ->
  let insecure := mkHubRpcClient Insecure peer in
  let secure := mkHubRpcClient SSL peer in
  createRaises env t4 insecure = true ->
  createRaises env (t4 ++ [CreateClient insecure]) secure = true ->
  printSyncHealth env toFarcasterTime fuel clock startTimeOfDay stopTimeOfDay
    maxNumPeers primaryNode outfile t
  = Some (Raised, t4 ++ [CreateClient insecure; CreateClient secure]).
Proof.
  intros Hs He primaryRpcClient t1 t2 C W Rd P B insecure secure CI CS.
  unfold printSyncHealth. rewrite Hs, He.
  unfold getSSLHubRpcClient, createClient, waitForReady.
  assert (E1 : call (fun u => if createRaises env u primaryRpcClient
                              then None else Some primaryRpcClient)
                    (CreateClient primaryRpcClient) t
               = Some (Some primaryRpcClient, t1))
    by (unfold call; now rewrite C).
  fold primaryRpcClient. rewrite (bind_Some _ E1).
  assert (E2 : call (fun u => if waitRaises env u primaryRpcClient
                              then None else Some (readyError env u primaryRpcClient))
                    (WaitForReady primaryRpcClient) t1
               = Some (Some None, t2))
    by (unfold call; now rewrite W, Rd).
  rewrite (bind_Some _ E2), (bind_Some _ P).
  assert (E3 : reconcilePeer env toFarcasterTime fuel startTime stopTime primaryNode
                 outfile (mkRpcMetadataRetriever primaryRpcClient) peer t4
               = Some (Raised, t4 ++ [CreateClient insecure; CreateClient secure])).
  { unfold reconcilePeer, connectPeer, getInsecureHubRpcClient, getSSLHubRpcClient,
      createClient, call, bind, ret.
    fold insecure secure. rewrite CI, CS. cbn [option_map].
    now rewrite <- app_assoc. }
  assert (L : reconcilePeers env toFarcasterTime fuel startTime stopTime primaryNode
                outfile (mkRpcMetadataRetriever primaryRpcClient)
                (before ++ Some peer :: others) t3
              = Some (Raised, t4 ++ [CreateClient insecure; CreateClient secure])).
  { unfold reconcilePeers in *. rewrite (forEach_app _ _ _ _ _ B).
    cbn [forEach]. rewrite (bind_Some _ E3).
    apply forEach_raised. reflexivity. }
  now rewrite (bind_Some _ L).
Qed.

Lemma printSyncHealth_exception_ends_session_witness :
  exists t4,
    reconcilePeers unreachablePeerWorld toFarcasterTimeModel (S TIMESTAMP_LENGTH)
      (instant 0) (instant 10) "primary" "out.log"
      (mkRpcMetadataRetriever primaryClient) [Some "other"%string]
      [CreateClient primaryClient; WaitForReady primaryClient;
       GetCurrentPeers primaryClient]
    = Some (Returned, t4) /\
    printSyncHealth unreachablePeerWorld toFarcasterTimeModel (S TIMESTAMP_LENGTH)
      epochDay "00:00:00" "00:00:10" (Int 2) "primary" "out.log" []
    = Some (Raised,
            t4 ++ [CreateClient (mkHubRpcClient Insecure "peer");
                   CreateClient (mkHubRpcClient SSL "peer")]).
Proof.
  eexists. split; [vm_compute; reflexivity|].
  refine (@printSyncHealth_exception_ends_session
            unreachablePeerWorld toFarcasterTimeModel (S TIMESTAMP_LENGTH)
            epochDay "00:00:00" "00:00:10" (Int 2) "primary" "out.log" _ _
            [Some "other"%string] "peer" [] [] _ _
            eq_refl eq_refl eq_refl eq_refl eq_refl eq_refl _ eq_refl eq_refl).
  vm_compute. reflexivity.
Defined.

(* ================================================================= *)
(** ** The record of a pass *)

(** X28. Take a pass whose connection step has yielded a client with no
    error of readiness pending, and whose measurement has succeeded. It
    calls [appendFile] with its record also when there is nothing to report
    on a repair: when the two counts are equal it does not investigate at
    all, whatever the two hubs hold, and when the investigation fails the
    record is written all the same; in both cases the record carries the
    counts and no outcome. When the append succeeds the pass then closes
    the peer's client; when it is rejected the pass ends there, and the
    client is left open. *)
Theorem reconcilePeer_record_without_outcomes
    (env : Env) (toFarcasterTime : number -> HubResult number) (fuel : nat)
    (startTime stopTime : number) (primaryNode outfile : string)
    (primaryMetadataRetriever : RpcMetadataRetriever) (peer : string)
    (peerRpcClient : HubRpcClient) (value : SyncHealthMessageStats)
    (t t1 t2 : Trace) :
  connectPeer env peer t = Some (Some (peerRpcClient, None), t1) ->
  computeSyncHealthMessageStats toFarcasterTime fuel startTime stopTime
    (RpcMetadataRetriever_getMetadata env primaryMetadataRetriever)
    (RpcMetadataRetriever_getMetadata env (mkRpcMetadataRetriever peerRpcClient)) t1
  = Some (ok value, t2) ->
  let record := serializedSummary
                  (mkStats startTime stopTime primaryNode peer value [] []) in
  let run := reconcilePeer env toFarcasterTime fuel startTime stopTime
               primaryNode outfile primaryMetadataRetriever peer t in
  let ending := fun t3 : Trace =>
                  t3 ++ AppendFile outfile record
                        :: (if appendRejects env t3 outfile record then []
                            else [CloseClient peerRpcClient]) in
  (primaryNumMessages value = peerNumMessages value ->
   run = Some (Returned, ending t2)) /\
  (forall (e : HubError) (t3 : Trace),
     primaryNumMessages value <> peerNumMessages value ->
     investigateDiff env toFarcasterTime fuel primaryMetadataRetriever
       (mkRpcMetadataRetriever peerRpcClient) startTime stopTime t2
     = Some (err e, t3) ->
     run = Some (Returned, ending t3)).
Proof.
  intros Hc Hm record run ending. subst run ending. unfold reconcilePeer.
  rewrite (bind_Some _ Hc), (bind_Some _ Hm). split.
  - intros E. unfold computeDiff. rewrite E, Z.sub_diag. cbn [Z.abs Z.eqb negb].
    unfold bind, ret, appendFile, onPeerReady, closeClient, call, ret. fold record.
    destruct (appendRejects env t2 outfile record); [reflexivity|].
    now rewrite <- app_assoc.
  - intros e t3 N Hi.
    replace (computeDiff value =? 0) with false
      by (symmetry; apply Z.eqb_neq; unfold computeDiff; lia).
    cbn [negb]. rewrite !bind_assoc, (bind_Some _ Hi).
    unfold bind, ret, appendFile, onPeerReady, closeClient, call, ret. fold record.
    destruct (appendRejects env t3 outfile record); [reflexivity|].
    now rewrite <- app_assoc.
Qed.

Lemma reconcilePeer_record_without_outcomes_witness :
  let record := serializedSummary
                  (mkStats (instant 0) (instant 5) "primary" "peer"
                     (mkSyncHealthMessageStats 3 3) [] []) in
  (exists t2,
     reconcilePeer sessionWorld toFarcasterTimeModel (S TIMESTAMP_LENGTH)
       (instant 0) (instant 5) "primary" "out.log"
       (mkRpcMetadataRetriever primaryClient) "peer" []
     = Some (Returned, t2 ++ [AppendFile "out.log" record; CloseClient peerClient])) /\
  (exists t2,
     reconcilePeer fullDiskWorld toFarcasterTimeModel (S TIMESTAMP_LENGTH)
       (instant 0) (instant 5) "primary" "out.log"
       (mkRpcMetadataRetriever primaryClient) "peer" []
     = Some (Returned, t2 ++ [AppendFile "out.log" record])).
Proof.
  split; eexists.
  - refine (proj1 (@reconcilePeer_record_without_outcomes
                     sessionWorld toFarcasterTimeModel (S TIMESTAMP_LENGTH)
                     (instant 0) (instant 5) "primary" "out.log"
                     (mkRpcMetadataRetriever primaryClient) "peer" peerClient
                     (mkSyncHealthMessageStats 3 3) [] _ _ _ _) _).
    + reflexivity.
    + vm_compute. reflexivity.
    + reflexivity.
  - refine (proj1 (@reconcilePeer_record_without_outcomes
                     fullDiskWorld toFarcasterTimeModel (S TIMESTAMP_LENGTH)
                     (instant 0) (instant 5) "primary" "out.log"
                     (mkRpcMetadataRetriever primaryClient) "peer" peerClient
                     (mkSyncHealthMessageStats 3 3) [] _ _ _ _) _).
    + reflexivity.
    + vm_compute. reflexivity.
    + reflexivity.
Defined.

(* ================================================================= *)
(** ** A pass between two hubs that answer *)

Lemma Forall_isHubCall_collection (l : list Event) :
  Forall (fun ev => isCollection ev = true) l ->
  Forall (fun ev => isHubCall ev = true) l.
Proof.
  intros F. eapply Forall_impl; [|exact F]. intros ev H. now destruct ev.
Qed.

(** X29. Take a pass whose connection step has yielded a client with no
    error of readiness pending, between two hubs that serve and list the
    tries of their messages and hand out the messages asked for, over a
    window for which both tries have a node for the common prefix. After
    the connection it only calls the two hubs, then calls [appendFile] once,
    and, the append succeeding, closes the peer's client; when the append is
    rejected it ends there and leaves the client open. The record carries
    the two true counts of the window. When the counts differ it carries
    one outcome for each message of the window that one hub holds and the
    other lacks; when they are equal it carries none, whatever the two hubs
    hold. *)
Theorem reconcilePeer_on_answering_hubs
    (env : Env) (toFarcasterTime : number -> HubResult number) (fuel : nat)
    (startTime stopTime : number) (primaryNode outfile : string)
    (primaryRpcClient : HubRpcClient) (peer : string) (peerRpcClient : HubRpcClient)
    (primaryIds peerIds : list SyncId) (s e : Z) (t t1 : Trace) :
  connectPeer env peer t = Some (Some (peerRpcClient, None), t1) ->
  servesTrie env primaryRpcClient (map syncIdBytes primaryIds) ->
  listsTrie env primaryRpcClient (map syncIdBytes primaryIds) ->
  handsOut env primaryRpcClient primaryIds ->
  servesTrie env peerRpcClient (map syncIdBytes peerIds) ->
  listsTrie env peerRpcClient (map syncIdBytes peerIds) ->
  handsOut env peerRpcClient peerIds ->
  (forall id, In id primaryIds -> representable (timestamp id)) ->
  (forall id, In id peerIds -> representable (timestamp id)) ->
  toFarcasterTime startTime = ok (Int s) ->
  toFarcasterTime stopTime = ok (Int e) ->
  representable s -> representable e ->
  s <= e ->
  (TIMESTAMP_LENGTH < fuel)%nat ->
  let c := getCommonPrefix (timePrefix s) (timePrefix e) in
  trieExists (map syncIdBytes primaryIds) c = true ->
  trieExists (map syncIdBytes peerIds) c = true ->
  let primaryCount := Z.of_nat (List.length (messagesInSpan primaryIds s e)) in
  let peerCount := Z.of_nat (List.length (messagesInSpan peerIds s e)) in
  exists calls toPeer toPrimary,
    let record := serializedSummary
                    (mkStats startTime stopTime primaryNode peer
                       (mkSyncHealthMessageStats primaryCount peerCount)
                       toPeer toPrimary) in
    Forall (fun ev => isHubCall ev = true) calls /\
    reconcilePeer env toFarcasterTime fuel startTime stopTime primaryNode outfile
      (mkRpcMetadataRetriever primaryRpcClient) peer t
    = Some (Returned,
            (t1 ++ calls)
              ++ AppendFile outfile record
                 :: (if appendRejects env (t1 ++ calls) outfile record then []
                     else [CloseClient peerRpcClient])) /\
    List.length toPeer
    = (if primaryCount =? peerCount then 0%nat
       else List.length (missingInSpan s e primaryIds peerIds)) /\
    List.length toPrimary
    = (if primaryCount =? peerCount then 0%nat
       else List.length (missingInSpan s e peerIds primaryIds)).
Proof.
  intros Hc SP LP HP SQ LQ HQ IP IQ Hs He Rs Re Hle Hfuel c XP XQ
    primaryCount peerCount.
  destruct (@measurement_on_tries env toFarcasterTime primaryRpcClient peerRpcClient
              primaryIds peerIds startTime stopTime s e fuel t1
              SP SQ IP IQ Hs He Rs Re Hle Hfuel) as (bp & bq & M).
  fold c in M. rewrite XP, XQ in M. cbn [andb] in M.
  fold primaryCount peerCount in M.
  set (measuring := map (GetSyncMetadataByPrefix primaryRpcClient) (c :: bp)
                      ++ map (GetSyncMetadataByPrefix peerRpcClient) (c :: bq)).
  assert (Tm : (t1 ++ map (GetSyncMetadataByPrefix primaryRpcClient) (c :: bp))
                 ++ map (GetSyncMetadataByPrefix peerRpcClient) (c :: bq)
               = t1 ++ measuring) by (unfold measuring; now rewrite app_assoc).
  rewrite Tm in M. clear Tm.
  assert (Fm : Forall (fun ev => isHubCall ev = true) measuring)
    by (unfold measuring; apply Forall_app; split;
        apply Forall_map_event; reflexivity).
  assert (Close : forall (u : Trace) (record : list (string * JSON)),
             bind (appendFile env outfile record)
               (fun written =>
                  current <- onPeerReady env peer None peerRpcClient ;;
                  match written with
                  | Some _ => closeClient current ;;; ret Returned
                  | None => ret Returned
                  end) u
             = Some (Returned,
                     u ++ AppendFile outfile record
                          :: (if appendRejects env u outfile record then []
                              else [CloseClient peerRpcClient]))).
  { intros u record.
    unfold bind, ret, appendFile, onPeerReady, closeClient, call, ret.
    destruct (appendRejects env u outfile record); [reflexivity|].
    now rewrite <- app_assoc. }
  unfold reconcilePeer. rewrite (bind_Some _ Hc), (bind_Some _ M).
  unfold computeDiff. cbn [primaryNumMessages peerNumMessages].
  destruct (primaryCount =? peerCount) eqn:E.
  - apply Z.eqb_eq in E. rewrite E, Z.sub_diag. cbn [Z.abs Z.eqb negb].
    exists measuring, [], []. cbv zeta.
    split; [exact Fm | split; [|split; reflexivity]].
    rewrite !bind_assoc. unfold bind at 1. unfold ret at 1. apply Close.
  - apply Z.eqb_neq in E.
    replace (Z.abs (primaryCount - peerCount) =? 0) with false
      by (symmetry; apply Z.eqb_neq; lia).
    cbn [negb].
    destruct (@investigation_on_answering_hubs env toFarcasterTime
                primaryRpcClient peerRpcClient primaryIds peerIds
                startTime stopTime s e fuel (t1 ++ measuring)
                SP LP HP SQ LQ HQ IP IQ Hs He Rs Re Hle Hfuel XP XQ)
      as (collection & fetch1 & fetch2 & Fc & F1 & F2 & I).
    cbv zeta in I.
    set (toPeer := map messageOf (missingInSpan s e primaryIds peerIds)) in *.
    set (toPrimary := map messageOf (missingInSpan s e peerIds primaryIds)) in *.
    set (calls := measuring ++ collection ++ fetch1
                    ++ map (SubmitMessage peerRpcClient) toPeer ++ fetch2
                    ++ map (SubmitMessage primaryRpcClient) toPrimary).
    assert (Tc : (((((t1 ++ measuring) ++ collection) ++ fetch1)
                     ++ map (SubmitMessage peerRpcClient) toPeer) ++ fetch2)
                   ++ map (SubmitMessage primaryRpcClient) toPrimary
                 = t1 ++ calls) by (unfold calls; now rewrite <- !app_assoc).
    rewrite Tc in I.
    exists calls. eexists. eexists. cbv zeta. split; [|split; [|split]].
    + unfold calls.
      apply Forall_app; split; [exact Fm|].
      apply Forall_app; split; [now apply Forall_isHubCall_collection|].
      apply Forall_app; split;
        [destruct F1 as [-> | [w ->]]; now repeat constructor|].
      apply Forall_app; split; [apply Forall_map_event; reflexivity|].
      apply Forall_app; split;
        [destruct F2 as [-> | [w ->]]; now repeat constructor|].
      apply Forall_map_event; reflexivity.
    + rewrite !bind_assoc, (bind_Some _ I). cbn [resultsPushingToPeer
        resultsPushingToPrimary]. unfold bind at 1. unfold ret at 1. apply Close.
    + rewrite submissionOutcomes_length. unfold toPeer. apply length_map.
    + rewrite submissionOutcomes_length. unfold toPrimary. apply length_map.
Qed.

Lemma sessionWorld_answers (c : HubRpcClient) :
  servesTrie sessionWorld c (map syncIdBytes (scenarioStore (clientAddress c))) /\
  listsTrie sessionWorld c (map syncIdBytes (scenarioStore (clientAddress c))) /\
  handsOut sessionWorld c (scenarioStore (clientAddress c)).
Proof. repeat split. Qed.

Lemma reconcilePeer_on_answering_hubs_witness :
  exists calls toPeer toPrimary,
    Forall (fun ev => isHubCall ev = true) calls /\
    reconcilePeer sessionWorld toFarcasterTimeModel (S TIMESTAMP_LENGTH)
      (instant 0) (instant 10) "primary" "out.log"
      (mkRpcMetadataRetriever primaryClient) "peer" []
    = Some (Returned,
            ([CreateClient peerClient; WaitForReady peerClient] ++ calls)
              ++ [AppendFile "out.log"
                    (serializedSummary
                       (mkStats (instant 0) (instant 10) "primary" "peer"
                          (mkSyncHealthMessageStats 5 3) toPeer toPrimary));
                  CloseClient peerClient]) /\
    List.length toPeer = 2%nat /\
    List.length toPrimary = 0%nat.
Proof.
  exact (@reconcilePeer_on_answering_hubs
           sessionWorld toFarcasterTimeModel (S TIMESTAMP_LENGTH)
           (instant 0) (instant 10) "primary" "out.log" primaryClient
           "peer" peerClient (scenarioStore "primary") (scenarioStore "peer")
           0 10 [] _ eq_refl
           (proj1 (sessionWorld_answers primaryClient))
           (proj1 (proj2 (sessionWorld_answers primaryClient)))
           (proj2 (proj2 (sessionWorld_answers primaryClient)))
           (proj1 (sessionWorld_answers peerClient))
           (proj1 (proj2 (sessionWorld_answers peerClient)))
           (proj2 (proj2 (sessionWorld_answers peerClient)))
           (scenario_representable "primary") (scenario_representable "peer")
           eq_refl eq_refl
           (@representable_small 0 ltac:(lia)) (@representable_small 10 ltac:(lia))
           ltac:(lia) (Nat.lt_succ_diag_r TIMESTAMP_LENGTH) eq_refl eq_refl).
Defined.

(* ================================================================= *)
(** ** A pass without a record *)


